(** * QtXlsx cell formats: [Format] and its shared [FormatPrivate] state

    A shallow embedding of src/xlsx/xlsxformat.cpp.

    - [QDataStream], [QColor]: the parts of Qt the key computation uses.
    - [NumberData] ... [ProtectionData]: the attribute bundles held by
      [FormatPrivate].
    - [Format]: every member function of class Format, as a function on
      the [FormatPrivate] value reached through the [d] pointer.  A
      [const] member that writes through [d] (the key accessors) returns
      the result together with the new state.
    - [QString], [DateSpec]: the string operations of isDateTimeFormat
      as the code has them, and the removal of the colour tokens in the
      words of the specification, against which the former is proved.
    - [Shared]: the handles themselves: a store of reference-counted
      [FormatPrivate] cells and the [d] pointers into it.

    Integers ([int]) are [Z]; the setters store what they are given and
    never compute with it, so the only place the 32-bit width shows is
    the serialisation, where the wrap-around is written out. *)

From Stdlib Require Import ZArith Strings.Byte Strings.Ascii Permutation.
From stdpp Require Import gmap strings list fin_maps.

Local Open Scope Z_scope.

(** ** Qt value types *)

Definition QByteArray : Type := list byte.

#[global] Instance byte_eq_decision : EqDecision byte := Byte.byte_eq_dec.

(** [QDataStream] writing, in its default big-endian byte order.  A
    negative [int] is written in two's complement: [Z.shiftr] floors and
    the low byte is taken modulo 256. *)
Module QDataStream.

Definition byte_of_Z (z : Z) : byte :=
  match Byte.of_N (Z.to_N (z mod 256)) with
  | Some b => b
  | None => x00
  end.

Definition put_u8 (z : Z) : QByteArray := [byte_of_Z z].

Definition put_u16 (z : Z) : QByteArray :=
  [byte_of_Z (Z.shiftr z 8); byte_of_Z z].

Definition put_i32 (z : Z) : QByteArray :=
  [byte_of_Z (Z.shiftr z 24); byte_of_Z (Z.shiftr z 16);
   byte_of_Z (Z.shiftr z 8); byte_of_Z z].

Definition put_bool (b : bool) : QByteArray :=
  put_u8 (if b then 1 else 0).

(** operator<<(QByteArray): the length as a quint32, then the bytes.  (A
    null array, which Qt writes as length 0xFFFFFFFF, does not occur: every
    key that is streamed was itself produced by a stream.) *)
Definition put_bytes (ba : QByteArray) : QByteArray :=
  put_i32 (Z.of_nat (length ba)) ++ ba.

(** operator<<(QString): the length in bytes as a quint32, then the
    UTF-16 code units, high byte first.  The strings of this model are
    8-bit, so every high byte is 0. *)
Definition put_string (s : string) : QByteArray :=
  put_i32 (2 * Z.of_nat (String.length s))
  ++ flat_map (fun c => [x00; byte_of_ascii c]) (String.list_ascii_of_string s).

End QDataStream.

(** [QColor]: a colour specification and its five 16-bit components.
    A default-constructed colour is invalid. *)
Module QColor.

Inductive Spec : Type := Invalid | Rgb | Hsv | Cmyk | Hsl.

Definition spec_value (s : Spec) : Z :=
  match s with Invalid => 0 | Rgb => 1 | Hsv => 2 | Cmyk => 3 | Hsl => 4 end.

Record t : Type := mk {
  cspec : Spec;
  alpha : Z;
  c1 : Z;
  c2 : Z;
  c3 : Z;
  pad : Z
}.

Definition invalid : t := mk Invalid 65535 0 0 0 0.

Definition rgb (r g b : Z) : t := mk Rgb 65535 (r * 257) (g * 257) (b * 257) 0.

Definition isValid (c : t) : bool :=
  match cspec c with Invalid => false | _ => true end.

Definition put (c : t) : QByteArray :=
  QDataStream.put_u8 (spec_value (cspec c))
  ++ QDataStream.put_u16 (alpha c) ++ QDataStream.put_u16 (c1 c)
  ++ QDataStream.put_u16 (c2 c) ++ QDataStream.put_u16 (c3 c)
  ++ QDataStream.put_u16 (pad c).

End QColor.

(** ** Enumerations of class Format *)

(** Modelled from the spec: xlsxformat.h, which declares enum
    Format::HorizontalAlignment, is not among the sources.  A closed
    enumeration (specification, section 9) of the enumerators that
    xlsxformat.cpp names. *)
Inductive HorizontalAlignment : Type :=
  | AlignHGeneral
  | AlignLeft
  | AlignHCenter
  | AlignRight
  | AlignHFill
  | AlignHJustify
  | AlignHMerge
  | AlignHDistributed.

(** Modelled from the spec: enum Format::VerticalAlignment of the missing
    xlsxformat.h; the enumerators that xlsxformat.cpp names. *)
Inductive VerticalAlignment : Type :=
  | AlignTop
  | AlignVCenter
  | AlignBottom
  | AlignVJustify
  | AlignVDistributed.

(** Modelled from the spec: the integer values of the enumerators, which
    the missing xlsxformat.h fixes; numbered in the order in which
    horizontalAlignmentString lists them, general first. *)
Definition HorizontalAlignment_value (a : HorizontalAlignment) : Z :=
  match a with
  | AlignHGeneral => 0
  | AlignLeft => 1
  | AlignHCenter => 2
  | AlignRight => 3
  | AlignHFill => 4
  | AlignHJustify => 5
  | AlignHMerge => 6
  | AlignHDistributed => 7
  end.

(** Modelled from the spec: the integer values of the enumerators of the
    missing xlsxformat.h, numbered top, center, bottom, justify,
    distributed. *)
Definition VerticalAlignment_value (a : VerticalAlignment) : Z :=
  match a with
  | AlignTop => 0
  | AlignVCenter => 1
  | AlignBottom => 2
  | AlignVJustify => 3
  | AlignVDistributed => 4
  end.

#[global] Instance HorizontalAlignment_eq_dec : EqDecision HorizontalAlignment.
Proof. solve_decision. Defined.

#[global] Instance VerticalAlignment_eq_dec : EqDecision VerticalAlignment.
Proof. solve_decision. Defined.

(** Modelled from the spec: the remaining enumerations of the missing
    xlsxformat.h.  xlsxformat.cpp only stores and returns their values, so
    a value is the integer of its enumerator. *)
Definition FontScript : Type := Z.
Definition FontUnderline : Type := Z.
Definition BorderStyle : Type := Z.
Definition DiagonalBorderType : Type := Z.
Definition FillPattern : Type := Z.

(** Modelled from the spec: the two fill patterns that xlsxformat.cpp
    names, "no pattern" and "solid", as the first two enumerators. *)
Definition PatternNone : FillPattern := 0.
Definition PatternSolid : FillPattern := 1.

(** ** The attribute bundles

    xlsxformat_p.h, which declares the bundles and defines the key(),
    index(), setIndex() and indexValid() members of the font, border and
    fill bundles, is not among the sources.  The field names are those
    xlsxformat.cpp uses; the fields of a bundle, what its members do and
    the all-default values follow sections 3 and 4.2 of the specification.
    The [set_] functions write one field and keep the others. *)

Module NumberData.

(** Modelled from the spec: the number format bundle of the missing xlsxformat_p.h; the
    fields of section 3, under the names xlsxformat.cpp uses. *)
Record t : Type := mk {
  formatIndex : Z;
  formatString : string;
  _valid : bool
}.

Definition set_formatIndex (v : Z) (r : t) : t :=
  mk v (formatString r) (_valid r).
Definition set_formatString (v : string) (r : t) : t :=
  mk (formatIndex r) v (_valid r).
Definition set_valid (v : bool) (r : t) : t :=
  mk (formatIndex r) (formatString r) v.

(** Modelled from the spec: the default number format of the missing
    xlsxformat_p.h: index 0, no format string, index authoritative. *)
Definition default : t := mk 0 "" true.

End NumberData.

Module FontData.

(** Modelled from the spec: the font bundle of the missing xlsxformat_p.h; the
    fields of section 3, under the names xlsxformat.cpp uses. *)
Record t : Type := mk {
  size : Z;
  italic : bool;
  strikeOut : bool;
  color : QColor.t;
  themeColor : string;
  bold : bool;
  scirpt : FontScript;
  underline : FontUnderline;
  outline : bool;
  shadow : bool;
  name : string;
  family : Z;
  scheme : string;
  _dirty : bool;
  _key : QByteArray;
  _indexValid : bool;
  _index : Z
}.

Definition set_size (v : Z) (r : t) : t :=
  mk v (italic r) (strikeOut r) (color r) (themeColor r) (bold r) (scirpt r)
     (underline r) (outline r) (shadow r) (name r) (family r) (scheme r)
     (_dirty r) (_key r) (_indexValid r) (_index r).
Definition set_italic (v : bool) (r : t) : t :=
  mk (size r) v (strikeOut r) (color r) (themeColor r) (bold r) (scirpt r)
     (underline r) (outline r) (shadow r) (name r) (family r) (scheme r)
     (_dirty r) (_key r) (_indexValid r) (_index r).
Definition set_strikeOut (v : bool) (r : t) : t :=
  mk (size r) (italic r) v (color r) (themeColor r) (bold r) (scirpt r)
     (underline r) (outline r) (shadow r) (name r) (family r) (scheme r)
     (_dirty r) (_key r) (_indexValid r) (_index r).
Definition set_color (v : QColor.t) (r : t) : t :=
  mk (size r) (italic r) (strikeOut r) v (themeColor r) (bold r) (scirpt r)
     (underline r) (outline r) (shadow r) (name r) (family r) (scheme r)
     (_dirty r) (_key r) (_indexValid r) (_index r).
Definition set_bold (v : bool) (r : t) : t :=
  mk (size r) (italic r) (strikeOut r) (color r) (themeColor r) v (scirpt r)
     (underline r) (outline r) (shadow r) (name r) (family r) (scheme r)
     (_dirty r) (_key r) (_indexValid r) (_index r).
Definition set_scirpt (v : FontScript) (r : t) : t :=
  mk (size r) (italic r) (strikeOut r) (color r) (themeColor r) (bold r) v
     (underline r) (outline r) (shadow r) (name r) (family r) (scheme r)
     (_dirty r) (_key r) (_indexValid r) (_index r).
Definition set_underline (v : FontUnderline) (r : t) : t :=
  mk (size r) (italic r) (strikeOut r) (color r) (themeColor r) (bold r)
     (scirpt r) v (outline r) (shadow r) (name r) (family r) (scheme r)
     (_dirty r) (_key r) (_indexValid r) (_index r).
Definition set_outline (v : bool) (r : t) : t :=
  mk (size r) (italic r) (strikeOut r) (color r) (themeColor r) (bold r)
     (scirpt r) (underline r) v (shadow r) (name r) (family r) (scheme r)
     (_dirty r) (_key r) (_indexValid r) (_index r).
Definition set_name (v : string) (r : t) : t :=
  mk (size r) (italic r) (strikeOut r) (color r) (themeColor r) (bold r)
     (scirpt r) (underline r) (outline r) (shadow r) v (family r) (scheme r)
     (_dirty r) (_key r) (_indexValid r) (_index r).
Definition set_dirty (v : bool) (r : t) : t :=
  mk (size r) (italic r) (strikeOut r) (color r) (themeColor r) (bold r)
     (scirpt r) (underline r) (outline r) (shadow r) (name r) (family r)
     (scheme r) v (_key r) (_indexValid r) (_index r).
Definition set_key (v : QByteArray) (r : t) : t :=
  mk (size r) (italic r) (strikeOut r) (color r) (themeColor r) (bold r)
     (scirpt r) (underline r) (outline r) (shadow r) (name r) (family r)
     (scheme r) (_dirty r) v (_indexValid r) (_index r).
Definition set_indexValid (v : bool) (r : t) : t :=
  mk (size r) (italic r) (strikeOut r) (color r) (themeColor r) (bold r)
     (scirpt r) (underline r) (outline r) (shadow r) (name r) (family r)
     (scheme r) (_dirty r) (_key r) v (_index r).
Definition set_index (v : Z) (r : t) : t :=
  mk (size r) (italic r) (strikeOut r) (color r) (themeColor r) (bold r)
     (scirpt r) (underline r) (outline r) (shadow r) (name r) (family r)
     (scheme r) (_dirty r) (_key r) (_indexValid r) v.

(** Modelled from the spec: the default font of the missing xlsxformat_p.h;
    dirty, with no key and no index yet. *)
Definition default : t :=
  mk 11 false false QColor.invalid "" false 0 0 false false "Calibri" 2
     "minor" true [] false (-1).

(** Modelled from the spec: the canonical sub-key of the missing
    xlsxformat_p.h, a deterministic serialisation of the content fields in
    a fixed order (that of section 3). *)
Definition serialize (r : t) : QByteArray :=
  QDataStream.put_i32 (size r) ++ QDataStream.put_bool (bold r)
  ++ QDataStream.put_bool (italic r) ++ QDataStream.put_bool (strikeOut r)
  ++ QDataStream.put_bool (outline r) ++ QDataStream.put_bool (shadow r)
  ++ QDataStream.put_i32 (underline r) ++ QDataStream.put_i32 (scirpt r)
  ++ QColor.put (color r) ++ QDataStream.put_string (themeColor r)
  ++ QDataStream.put_i32 (family r) ++ QDataStream.put_string (name r)
  ++ QDataStream.put_string (scheme r).

(** Modelled from the spec: key() of the missing xlsxformat_p.h (section
    4.2): recomputed when the bundle is dirty, which clears the flag and
    drops the index cached for the old content; the cached key otherwise. *)
Definition key (r : t) : QByteArray * t :=
  if _dirty r
  then let k := serialize r in
       (k, set_indexValid false (set_dirty false (set_key k r)))
  else (_key r, r).

(** Modelled from the spec: indexValid() of the missing xlsxformat_p.h:
    true only if the bundle is not dirty and an index was set. *)
Definition indexValid (r : t) : bool := negb (_dirty r) && _indexValid r.

(** Modelled from the spec: index() of the missing xlsxformat_p.h. *)
Definition index (r : t) : Z := _index r.

(** Modelled from the spec: setIndex() of the missing xlsxformat_p.h. *)
Definition setIndex (i : Z) (r : t) : t := set_indexValid true (set_index i r).

End FontData.

Module AlignmentData.

(** Modelled from the spec: the alignment bundle of the missing xlsxformat_p.h; the
    fields of section 3, under the names xlsxformat.cpp uses. *)
Record t : Type := mk {
  alignH : HorizontalAlignment;
  alignV : VerticalAlignment;
  indent : Z;
  rotation : Z;
  wrap : bool;
  shinkToFit : bool
}.

Definition set_alignH (v : HorizontalAlignment) (r : t) : t :=
  mk v (alignV r) (indent r) (rotation r) (wrap r) (shinkToFit r).
Definition set_alignV (v : VerticalAlignment) (r : t) : t :=
  mk (alignH r) v (indent r) (rotation r) (wrap r) (shinkToFit r).
Definition set_indent (v : Z) (r : t) : t :=
  mk (alignH r) (alignV r) v (rotation r) (wrap r) (shinkToFit r).
Definition set_rotation (v : Z) (r : t) : t :=
  mk (alignH r) (alignV r) (indent r) v (wrap r) (shinkToFit r).
Definition set_wrap (v : bool) (r : t) : t :=
  mk (alignH r) (alignV r) (indent r) (rotation r) v (shinkToFit r).
Definition set_shinkToFit (v : bool) (r : t) : t :=
  mk (alignH r) (alignV r) (indent r) (rotation r) (wrap r) v.

(** Modelled from the spec: the default alignment of the missing
    xlsxformat_p.h, the values alignmentChanged() compares with. *)
Definition default : t := mk AlignHGeneral AlignBottom 0 0 false false.

End AlignmentData.

Module BorderData.

(** Modelled from the spec: the border bundle of the missing xlsxformat_p.h; the
    fields of section 3, under the names xlsxformat.cpp uses. *)
Record t : Type := mk {
  left : BorderStyle;
  right : BorderStyle;
  top : BorderStyle;
  bottom : BorderStyle;
  diagonal : BorderStyle;
  leftColor : QColor.t;
  rightColor : QColor.t;
  topColor : QColor.t;
  bottomColor : QColor.t;
  diagonalColor : QColor.t;
  diagonalType : DiagonalBorderType;
  _dirty : bool;
  _key : QByteArray;
  _indexValid : bool;
  _index : Z
}.

Definition set_left (v : BorderStyle) (r : t) : t :=
  mk v (right r) (top r) (bottom r) (diagonal r) (leftColor r)
     (rightColor r) (topColor r) (bottomColor r) (diagonalColor r)
     (diagonalType r) (_dirty r) (_key r) (_indexValid r) (_index r).
Definition set_right (v : BorderStyle) (r : t) : t :=
  mk (left r) v (top r) (bottom r) (diagonal r) (leftColor r) (rightColor r)
     (topColor r) (bottomColor r) (diagonalColor r) (diagonalType r)
     (_dirty r) (_key r) (_indexValid r) (_index r).
Definition set_top (v : BorderStyle) (r : t) : t :=
  mk (left r) (right r) v (bottom r) (diagonal r) (leftColor r)
     (rightColor r) (topColor r) (bottomColor r) (diagonalColor r)
     (diagonalType r) (_dirty r) (_key r) (_indexValid r) (_index r).
Definition set_bottom (v : BorderStyle) (r : t) : t :=
  mk (left r) (right r) (top r) v (diagonal r) (leftColor r) (rightColor r)
     (topColor r) (bottomColor r) (diagonalColor r) (diagonalType r)
     (_dirty r) (_key r) (_indexValid r) (_index r).
Definition set_diagonal (v : BorderStyle) (r : t) : t :=
  mk (left r) (right r) (top r) (bottom r) v (leftColor r) (rightColor r)
     (topColor r) (bottomColor r) (diagonalColor r) (diagonalType r)
     (_dirty r) (_key r) (_indexValid r) (_index r).
Definition set_leftColor (v : QColor.t) (r : t) : t :=
  mk (left r) (right r) (top r) (bottom r) (diagonal r) v (rightColor r)
     (topColor r) (bottomColor r) (diagonalColor r) (diagonalType r)
     (_dirty r) (_key r) (_indexValid r) (_index r).
Definition set_rightColor (v : QColor.t) (r : t) : t :=
  mk (left r) (right r) (top r) (bottom r) (diagonal r) (leftColor r) v
     (topColor r) (bottomColor r) (diagonalColor r) (diagonalType r)
     (_dirty r) (_key r) (_indexValid r) (_index r).
Definition set_topColor (v : QColor.t) (r : t) : t :=
  mk (left r) (right r) (top r) (bottom r) (diagonal r) (leftColor r)
     (rightColor r) v (bottomColor r) (diagonalColor r) (diagonalType r)
     (_dirty r) (_key r) (_indexValid r) (_index r).
Definition set_bottomColor (v : QColor.t) (r : t) : t :=
  mk (left r) (right r) (top r) (bottom r) (diagonal r) (leftColor r)
     (rightColor r) (topColor r) v (diagonalColor r) (diagonalType r)
     (_dirty r) (_key r) (_indexValid r) (_index r).
Definition set_diagonalColor (v : QColor.t) (r : t) : t :=
  mk (left r) (right r) (top r) (bottom r) (diagonal r) (leftColor r)
     (rightColor r) (topColor r) (bottomColor r) v (diagonalType r)
     (_dirty r) (_key r) (_indexValid r) (_index r).
Definition set_diagonalType (v : DiagonalBorderType) (r : t) : t :=
  mk (left r) (right r) (top r) (bottom r) (diagonal r) (leftColor r)
     (rightColor r) (topColor r) (bottomColor r) (diagonalColor r) v
     (_dirty r) (_key r) (_indexValid r) (_index r).
Definition set_dirty (v : bool) (r : t) : t :=
  mk (left r) (right r) (top r) (bottom r) (diagonal r) (leftColor r)
     (rightColor r) (topColor r) (bottomColor r) (diagonalColor r)
     (diagonalType r) v (_key r) (_indexValid r) (_index r).
Definition set_key (v : QByteArray) (r : t) : t :=
  mk (left r) (right r) (top r) (bottom r) (diagonal r) (leftColor r)
     (rightColor r) (topColor r) (bottomColor r) (diagonalColor r)
     (diagonalType r) (_dirty r) v (_indexValid r) (_index r).
Definition set_indexValid (v : bool) (r : t) : t :=
  mk (left r) (right r) (top r) (bottom r) (diagonal r) (leftColor r)
     (rightColor r) (topColor r) (bottomColor r) (diagonalColor r)
     (diagonalType r) (_dirty r) (_key r) v (_index r).
Definition set_index (v : Z) (r : t) : t :=
  mk (left r) (right r) (top r) (bottom r) (diagonal r) (leftColor r)
     (rightColor r) (topColor r) (bottomColor r) (diagonalColor r)
     (diagonalType r) (_dirty r) (_key r) (_indexValid r) v.

(** Modelled from the spec: the default border of the missing
    xlsxformat_p.h: no lines, no colours; dirty. *)
Definition default : t :=
  mk 0 0 0 0 0 QColor.invalid QColor.invalid QColor.invalid QColor.invalid
     QColor.invalid 0 true [] false (-1).

(** Modelled from the spec: the canonical sub-key of the missing
    xlsxformat_p.h, a deterministic serialisation of the content fields. *)
Definition serialize (r : t) : QByteArray :=
  QDataStream.put_i32 (left r) ++ QColor.put (leftColor r)
  ++ QDataStream.put_i32 (right r) ++ QColor.put (rightColor r)
  ++ QDataStream.put_i32 (top r) ++ QColor.put (topColor r)
  ++ QDataStream.put_i32 (bottom r) ++ QColor.put (bottomColor r)
  ++ QDataStream.put_i32 (diagonal r) ++ QColor.put (diagonalColor r)
  ++ QDataStream.put_i32 (diagonalType r).

(** Modelled from the spec: key() of the missing xlsxformat_p.h (section
    4.2): recomputed when the bundle is dirty, which clears the flag and
    drops the index cached for the old content; the cached key otherwise. *)
Definition key (r : t) : QByteArray * t :=
  if _dirty r
  then let k := serialize r in
       (k, set_indexValid false (set_dirty false (set_key k r)))
  else (_key r, r).

(** Modelled from the spec: indexValid() of the missing xlsxformat_p.h:
    true only if the bundle is not dirty and an index was set. *)
Definition indexValid (r : t) : bool := negb (_dirty r) && _indexValid r.

(** Modelled from the spec: index() of the missing xlsxformat_p.h. *)
Definition index (r : t) : Z := _index r.

(** Modelled from the spec: setIndex() of the missing xlsxformat_p.h. *)
Definition setIndex (i : Z) (r : t) : t := set_indexValid true (set_index i r).

End BorderData.

Module FillData.

(** Modelled from the spec: the fill bundle of the missing xlsxformat_p.h; the
    fields of section 3, under the names xlsxformat.cpp uses. *)
Record t : Type := mk {
  pattern : FillPattern;
  fgColor : QColor.t;
  bgColor : QColor.t;
  _dirty : bool;
  _key : QByteArray;
  _indexValid : bool;
  _index : Z
}.

Definition set_pattern (v : FillPattern) (r : t) : t :=
  mk v (fgColor r) (bgColor r) (_dirty r) (_key r) (_indexValid r)
     (_index r).
Definition set_fgColor (v : QColor.t) (r : t) : t :=
  mk (pattern r) v (bgColor r) (_dirty r) (_key r) (_indexValid r)
     (_index r).
Definition set_bgColor (v : QColor.t) (r : t) : t :=
  mk (pattern r) (fgColor r) v (_dirty r) (_key r) (_indexValid r)
     (_index r).
Definition set_dirty (v : bool) (r : t) : t :=
  mk (pattern r) (fgColor r) (bgColor r) v (_key r) (_indexValid r)
     (_index r).
Definition set_key (v : QByteArray) (r : t) : t :=
  mk (pattern r) (fgColor r) (bgColor r) (_dirty r) v (_indexValid r)
     (_index r).
Definition set_indexValid (v : bool) (r : t) : t :=
  mk (pattern r) (fgColor r) (bgColor r) (_dirty r) (_key r) v (_index r).
Definition set_index (v : Z) (r : t) : t :=
  mk (pattern r) (fgColor r) (bgColor r) (_dirty r) (_key r) (_indexValid r)
     v.

(** Modelled from the spec: the default fill of the missing xlsxformat_p.h:
    no pattern, no colours; dirty. *)
Definition default : t :=
  mk PatternNone QColor.invalid QColor.invalid true [] false (-1).

(** Modelled from the spec: the canonical sub-key of the missing
    xlsxformat_p.h, a deterministic serialisation of the content fields. *)
Definition serialize (r : t) : QByteArray :=
  QDataStream.put_i32 (pattern r) ++ QColor.put (fgColor r)
  ++ QColor.put (bgColor r).

(** Modelled from the spec: key() of the missing xlsxformat_p.h (section
    4.2): recomputed when the bundle is dirty, which clears the flag and
    drops the index cached for the old content; the cached key otherwise. *)
Definition key (r : t) : QByteArray * t :=
  if _dirty r
  then let k := serialize r in
       (k, set_indexValid false (set_dirty false (set_key k r)))
  else (_key r, r).

(** Modelled from the spec: indexValid() of the missing xlsxformat_p.h:
    true only if the bundle is not dirty and an index was set. *)
Definition indexValid (r : t) : bool := negb (_dirty r) && _indexValid r.

(** Modelled from the spec: index() of the missing xlsxformat_p.h. *)
Definition index (r : t) : Z := _index r.

(** Modelled from the spec: setIndex() of the missing xlsxformat_p.h. *)
Definition setIndex (i : Z) (r : t) : t := set_indexValid true (set_index i r).

End FillData.

Module ProtectionData.

(** Modelled from the spec: the protection bundle of the missing xlsxformat_p.h; the
    fields of section 3, under the names xlsxformat.cpp uses. *)
Record t : Type := mk {
  hidden : bool;
  locked : bool
}.

Definition set_hidden (v : bool) (r : t) : t :=
  mk v (locked r).
Definition set_locked (v : bool) (r : t) : t :=
  mk (hidden r) v.

(** Modelled from the spec: the default protection of the missing
    xlsxformat_p.h: not hidden, locked. *)
Definition default : t := mk false true.

End ProtectionData.

(** ** FormatPrivate *)
Module FormatPrivate.

(** The class is declared in the missing xlsxformat_p.h; its members are
    those the copy constructor of FormatPrivate initialises, in that
    order. *)
Record t : Type := mk {
  numberData : NumberData.t;
  fontData : FontData.t;
  alignmentData : AlignmentData.t;
  borderData : BorderData.t;
  fillData : FillData.t;
  protectionData : ProtectionData.t;
  dirty : bool;
  formatKey : QByteArray;
  xf_index : Z;
  xf_indexValid : bool;
  is_dxf_fomat : bool;
  dxf_index : Z;
  dxf_indexValid : bool;
  theme : Z
}.

Definition set_numberData (v : NumberData.t) (r : t) : t :=
  mk v (fontData r) (alignmentData r) (borderData r) (fillData r)
     (protectionData r) (dirty r) (formatKey r) (xf_index r)
     (xf_indexValid r) (is_dxf_fomat r) (dxf_index r) (dxf_indexValid r)
     (theme r).
Definition set_fontData (v : FontData.t) (r : t) : t :=
  mk (numberData r) v (alignmentData r) (borderData r) (fillData r)
     (protectionData r) (dirty r) (formatKey r) (xf_index r)
     (xf_indexValid r) (is_dxf_fomat r) (dxf_index r) (dxf_indexValid r)
     (theme r).
Definition set_alignmentData (v : AlignmentData.t) (r : t) : t :=
  mk (numberData r) (fontData r) v (borderData r) (fillData r)
     (protectionData r) (dirty r) (formatKey r) (xf_index r)
     (xf_indexValid r) (is_dxf_fomat r) (dxf_index r) (dxf_indexValid r)
     (theme r).
Definition set_borderData (v : BorderData.t) (r : t) : t :=
  mk (numberData r) (fontData r) (alignmentData r) v (fillData r)
     (protectionData r) (dirty r) (formatKey r) (xf_index r)
     (xf_indexValid r) (is_dxf_fomat r) (dxf_index r) (dxf_indexValid r)
     (theme r).
Definition set_fillData (v : FillData.t) (r : t) : t :=
  mk (numberData r) (fontData r) (alignmentData r) (borderData r) v
     (protectionData r) (dirty r) (formatKey r) (xf_index r)
     (xf_indexValid r) (is_dxf_fomat r) (dxf_index r) (dxf_indexValid r)
     (theme r).
Definition set_protectionData (v : ProtectionData.t) (r : t) : t :=
  mk (numberData r) (fontData r) (alignmentData r) (borderData r)
     (fillData r) v (dirty r) (formatKey r) (xf_index r) (xf_indexValid r)
     (is_dxf_fomat r) (dxf_index r) (dxf_indexValid r) (theme r).
Definition set_dirty (v : bool) (r : t) : t :=
  mk (numberData r) (fontData r) (alignmentData r) (borderData r)
     (fillData r) (protectionData r) v (formatKey r) (xf_index r)
     (xf_indexValid r) (is_dxf_fomat r) (dxf_index r) (dxf_indexValid r)
     (theme r).
Definition set_formatKey (v : QByteArray) (r : t) : t :=
  mk (numberData r) (fontData r) (alignmentData r) (borderData r)
     (fillData r) (protectionData r) (dirty r) v (xf_index r)
     (xf_indexValid r) (is_dxf_fomat r) (dxf_index r) (dxf_indexValid r)
     (theme r).
Definition set_xf_index (v : Z) (r : t) : t :=
  mk (numberData r) (fontData r) (alignmentData r) (borderData r)
     (fillData r) (protectionData r) (dirty r) (formatKey r) v
     (xf_indexValid r) (is_dxf_fomat r) (dxf_index r) (dxf_indexValid r)
     (theme r).
Definition set_xf_indexValid (v : bool) (r : t) : t :=
  mk (numberData r) (fontData r) (alignmentData r) (borderData r)
     (fillData r) (protectionData r) (dirty r) (formatKey r) (xf_index r) v
     (is_dxf_fomat r) (dxf_index r) (dxf_indexValid r) (theme r).
Definition set_dxf_index (v : Z) (r : t) : t :=
  mk (numberData r) (fontData r) (alignmentData r) (borderData r)
     (fillData r) (protectionData r) (dirty r) (formatKey r) (xf_index r)
     (xf_indexValid r) (is_dxf_fomat r) v (dxf_indexValid r) (theme r).
Definition set_dxf_indexValid (v : bool) (r : t) : t :=
  mk (numberData r) (fontData r) (alignmentData r) (borderData r)
     (fillData r) (protectionData r) (dirty r) (formatKey r) (xf_index r)
     (xf_indexValid r) (is_dxf_fomat r) (dxf_index r) v (theme r).

(** FormatPrivate::FormatPrivate() *)
Definition new : t :=
  mk NumberData.default FontData.default AlignmentData.default
     BorderData.default FillData.default ProtectionData.default
     true [] (-1) false false (-1) false 0.

(** FormatPrivate::FormatPrivate(const FormatPrivate &other) copies every
    member. *)
Definition clone (other : t) : t :=
  mk (numberData other) (fontData other) (alignmentData other)
     (borderData other) (fillData other) (protectionData other)
     (dirty other) (formatKey other) (xf_index other) (xf_indexValid other)
     (is_dxf_fomat other) (dxf_index other) (dxf_indexValid other)
     (theme other).

End FormatPrivate.

(** ** QString: the string operations of isDateTimeFormat

    Strings are 8-bit here; the code looks at ASCII characters only. *)
Module QString.

Definition isEmpty (s : string) : bool :=
  match s with
  | EmptyString => true
  | String _ _ => false
  end.

(** The alternatives of [\[(Green|White|Blue|Magenta|Yellow|Cyan|Red)\]],
    in the order of the alternation. *)
Definition colorTokens : list string :=
  ["[Green]"; "[White]"; "[Blue]"; "[Magenta]"; "[Yellow]"; "[Cyan]";
   "[Red]"]%string.

(** Whether the literal [tok] matches at the head of [s]. *)
Fixpoint startsWith (tok s : string) : bool :=
  match tok with
  | EmptyString => true
  | String a tok' =>
      match s with
      | EmptyString => false
      | String b s' => Ascii.eqb a b && startsWith tok' s'
      end
  end.

(** The length of the match that starts at the head of [s], if any: the
    first alternative that matches there. *)
Definition matchAt (s : string) : option nat :=
  String.length <$> List.find (fun tok => startsWith tok s) colorTokens.

(** QString::remove(re): the matches are found in one scan of the subject
    from left to right, each starting where the previous one ended, and all
    of them are cut out; what the cuts leave behind is not scanned again.
    [skip] counts the characters of the current match still to drop. *)
Fixpoint removeFrom (skip : nat) (s : string) : string :=
  match s with
  | EmptyString => EmptyString
  | String c rest =>
      match skip with
      | S k => removeFrom k rest
      | O =>
          match matchAt s with
          | Some n => removeFrom (Nat.pred n) rest
          | None => String c (removeFrom 0 rest)
          end
      end
  end.

Definition removeColorTokens (s : string) : string := removeFrom 0 s.

(** The character class [[dmhys]]. *)
Definition is_dmhys (c : ascii) : bool :=
  (Ascii.eqb c "d" || Ascii.eqb c "m" || Ascii.eqb c "h" || Ascii.eqb c "y"
   || Ascii.eqb c "s")%char.

(** QString::contains(QRegularExpression("[dmhys]")) *)
Fixpoint contains_dmhys (s : string) : bool :=
  match s with
  | EmptyString => false
  | String c rest => is_dmhys c || contains_dmhys rest
  end.

End QString.

(** ** The format string without its colour tokens, in the words of the
    specification

    The second definition of the refinement: what "the format string
    after removing every bracketed colour token" is, said by positions
    and without a scan.  A character is removed when it lies inside an
    occurrence of a token in the format string. *)
Module DateSpec.

(** The closed set of colour names. *)
Definition colorNames : list string :=
  ["Green"; "White"; "Blue"; "Magenta"; "Yellow"; "Cyan"; "Red"]%string.

(** A colour name written as [[Name]]. *)
Definition token (name : string) : list ascii :=
  String.list_ascii_of_string ("[" +:+ name +:+ "]").

(** The token of [name] occurs in [l] at position [j]. *)
Definition occursAt (name : string) (j : nat) (l : list ascii) : bool :=
  bool_decide (take (length (token name)) (drop j l) = token name).

(** Position [i] of [l] lies inside an occurrence of a colour token. *)
Definition inToken (l : list ascii) (i : nat) : bool :=
  existsb
    (fun name =>
       existsb
         (fun j => occursAt name j l && (i <? j + length (token name))%nat)
         (seq 0 (S i)))
    colorNames.

(** The characters of [l], which are those of [whole] from position [i]
    on, that lie in no occurrence of a colour token in [whole]. *)
Fixpoint outside (whole : list ascii) (i : nat) (l : list ascii)
  : list ascii :=
  match l with
  | [] => []
  | c :: l' =>
      if inToken whole i then outside whole (S i) l'
      else c :: outside whole (S i) l'
  end.

(** The format string with every colour token removed. *)
Definition withoutColorTokens (s : string) : list ascii :=
  let l := String.list_ascii_of_string s in
  outside l 0 l.

End DateSpec.

(** ** The member functions of class Format

    Each function takes the [FormatPrivate] value behind [d] and, when the
    member writes through [d], returns the new one. *)
Module FP := FormatPrivate.

Module Format.

Definition on_number (f : NumberData.t -> NumberData.t) (d : FP.t) : FP.t :=
  FP.set_numberData (f (FP.numberData d)) d.
Definition on_font (f : FontData.t -> FontData.t) (d : FP.t) : FP.t :=
  FP.set_fontData (f (FP.fontData d)) d.
Definition on_alignment (f : AlignmentData.t -> AlignmentData.t) (d : FP.t)
  : FP.t :=
  FP.set_alignmentData (f (FP.alignmentData d)) d.
Definition on_border (f : BorderData.t -> BorderData.t) (d : FP.t) : FP.t :=
  FP.set_borderData (f (FP.borderData d)) d.
Definition on_fill (f : FillData.t -> FillData.t) (d : FP.t) : FP.t :=
  FP.set_fillData (f (FP.fillData d)) d.
Definition on_protection (f : ProtectionData.t -> ProtectionData.t)
  (d : FP.t) : FP.t :=
  FP.set_protectionData (f (FP.protectionData d)) d.

(** *** Number format *)

Definition numberFormatIndex (d : FP.t) : Z :=
  NumberData.formatIndex (FP.numberData d).

Definition setNumberFormatIndex (format : Z) (d : FP.t) : FP.t :=
  let d1 := FP.set_dirty true d in
  let d2 := on_number (NumberData.set_formatIndex format) d1 in
  on_number (NumberData.set_valid true) d2.

Definition numberFormat (d : FP.t) : string :=
  NumberData.formatString (FP.numberData d).

Definition setNumberFormat (format : string) (d : FP.t) : FP.t :=
  if QString.isEmpty format then d
  else
    let d1 := FP.set_dirty true d in
    let d2 := on_number (NumberData.set_formatString format) d1 in
    on_number (NumberData.set_valid false) d2.

Definition isDateTimeFormat (d : FP.t) : bool :=
  if NumberData._valid (FP.numberData d)
     && QString.isEmpty (NumberData.formatString (FP.numberData d))
  then
    let idx := NumberData.formatIndex (FP.numberData d) in
    if ((15 <=? idx) && (idx <=? 22)) || ((45 <=? idx) && (idx <=? 47))
    then true
    else false
  else
    let formatCode := NumberData.formatString (FP.numberData d) in
    let formatCode := QString.removeColorTokens formatCode in
    if QString.contains_dmhys formatCode
    then true
    else false.

Definition numFmtIndexValid (d : FP.t) : bool :=
  NumberData._valid (FP.numberData d).

Definition setNumFmt (index : Z) (str : string) (d : FP.t) : FP.t :=
  let d1 := on_number (NumberData.set_formatIndex index) d in
  let d2 := on_number (NumberData.set_formatString str) d1 in
  on_number (NumberData.set_valid true) d2.

(** *** Font *)

Definition fontSize (d : FP.t) : Z := FontData.size (FP.fontData d).

Definition setFontSize (size : Z) (d : FP.t) : FP.t :=
  on_font (FontData.set_dirty true) (on_font (FontData.set_size size) d).

Definition fontItalic (d : FP.t) : bool := FontData.italic (FP.fontData d).

Definition setFontItalic (italic : bool) (d : FP.t) : FP.t :=
  on_font (FontData.set_dirty true) (on_font (FontData.set_italic italic) d).

Definition fontStrikeOut (d : FP.t) : bool :=
  FontData.strikeOut (FP.fontData d).

Definition setFontStrikeOut (strikeOut : bool) (d : FP.t) : FP.t :=
  on_font (FontData.set_dirty true)
    (on_font (FontData.set_strikeOut strikeOut) d).

Definition fontColor (d : FP.t) : QColor.t :=
  if negb (QColor.isValid (FontData.color (FP.fontData d)))
     && negb (QString.isEmpty
                (FontData.themeColor (FP.fontData d)))
  then QColor.invalid
  else FontData.color (FP.fontData d).

Definition setFontColor (color : QColor.t) (d : FP.t) : FP.t :=
  on_font (FontData.set_dirty true) (on_font (FontData.set_color color) d).

Definition fontBold (d : FP.t) : bool := FontData.bold (FP.fontData d).

Definition setFontBold (bold : bool) (d : FP.t) : FP.t :=
  on_font (FontData.set_dirty true) (on_font (FontData.set_bold bold) d).

Definition fontScript (d : FP.t) : FontScript :=
  FontData.scirpt (FP.fontData d).

Definition setFontScript (script : FontScript) (d : FP.t) : FP.t :=
  on_font (FontData.set_dirty true) (on_font (FontData.set_scirpt script) d).

Definition fontUnderline (d : FP.t) : FontUnderline :=
  FontData.underline (FP.fontData d).

Definition setFontUnderline (underline : FontUnderline) (d : FP.t) : FP.t :=
  on_font (FontData.set_dirty true)
    (on_font (FontData.set_underline underline) d).

Definition fontOutline (d : FP.t) : bool := FontData.outline (FP.fontData d).

Definition setFontOutline (outline : bool) (d : FP.t) : FP.t :=
  on_font (FontData.set_dirty true)
    (on_font (FontData.set_outline outline) d).

Definition fontName (d : FP.t) : string := FontData.name (FP.fontData d).

Definition setFontName (name : string) (d : FP.t) : FP.t :=
  on_font (FontData.set_dirty true) (on_font (FontData.set_name name) d).

Definition fontIndexValid (d : FP.t) : bool :=
  FontData.indexValid (FP.fontData d).

Definition fontIndex (d : FP.t) : Z := FontData.index (FP.fontData d).

Definition setFontIndex (index : Z) (d : FP.t) : FP.t :=
  on_font (FontData.setIndex index) d.

Definition fontFamily (d : FP.t) : Z := FontData.family (FP.fontData d).

Definition fontShadow (d : FP.t) : bool := FontData.shadow (FP.fontData d).

Definition fontScheme (d : FP.t) : string := FontData.scheme (FP.fontData d).

(** fontKey() is [const] but writes through [d]: a dirty font marks the
    whole format dirty, and key() refreshes the bundle's cache. *)
Definition fontKey (d : FP.t) : QByteArray * FP.t :=
  let d1 := if FontData._dirty (FP.fontData d) then FP.set_dirty true d
            else d in
  let (k, font) := FontData.key (FP.fontData d1) in
  (k, FP.set_fontData font d1).

(** *** Alignment *)

Definition isIndentAlignment (align : HorizontalAlignment) : bool :=
  match align with
  | AlignHGeneral | AlignLeft | AlignRight | AlignHDistributed => true
  | _ => false
  end.

Definition isFillingAlignment (align : HorizontalAlignment) : bool :=
  match align with
  | AlignHFill | AlignHJustify | AlignHDistributed => true
  | _ => false
  end.

Definition horizontalAlignment (d : FP.t) : HorizontalAlignment :=
  AlignmentData.alignH (FP.alignmentData d).

Definition setHorizontalAlignment (align : HorizontalAlignment) (d : FP.t)
  : FP.t :=
  let d1 :=
    if negb (AlignmentData.indent (FP.alignmentData d) =? 0)
       && negb (isIndentAlignment align)
    then on_alignment (AlignmentData.set_indent 0) d
    else d in
  let d2 :=
    if AlignmentData.shinkToFit (FP.alignmentData d1)
       && isFillingAlignment align
    then on_alignment (AlignmentData.set_shinkToFit false) d1
    else d1 in
  FP.set_dirty true (on_alignment (AlignmentData.set_alignH align) d2).

Definition verticalAlignment (d : FP.t) : VerticalAlignment :=
  AlignmentData.alignV (FP.alignmentData d).

Definition setVerticalAlignment (align : VerticalAlignment) (d : FP.t)
  : FP.t :=
  FP.set_dirty true (on_alignment (AlignmentData.set_alignV align) d).

Definition textWrap (d : FP.t) : bool :=
  AlignmentData.wrap (FP.alignmentData d).

Definition setTextWarp (wrap : bool) (d : FP.t) : FP.t :=
  let d1 :=
    if wrap && AlignmentData.shinkToFit (FP.alignmentData d)
    then on_alignment (AlignmentData.set_shinkToFit false) d
    else d in
  FP.set_dirty true (on_alignment (AlignmentData.set_wrap wrap) d1).

Definition rotation (d : FP.t) : Z :=
  AlignmentData.rotation (FP.alignmentData d).

Definition setRotation (rotation : Z) (d : FP.t) : FP.t :=
  FP.set_dirty true (on_alignment (AlignmentData.set_rotation rotation) d).

Definition indent (d : FP.t) : Z :=
  AlignmentData.indent (FP.alignmentData d).

(** The alignments setIndent leaves alone: general, left, right, justify. *)
Definition keepsIndent (align : HorizontalAlignment) : bool :=
  match align with
  | AlignHGeneral | AlignLeft | AlignRight | AlignHJustify => true
  | _ => false
  end.

Definition setIndent (indent : Z) (d : FP.t) : FP.t :=
  let d1 :=
    if negb (indent =? 0)
       && negb (keepsIndent (AlignmentData.alignH (FP.alignmentData d)))
    then on_alignment (AlignmentData.set_alignH AlignLeft) d
    else d in
  FP.set_dirty true (on_alignment (AlignmentData.set_indent indent) d1).

Definition shrinkToFit (d : FP.t) : bool :=
  AlignmentData.shinkToFit (FP.alignmentData d).

Definition setShrinkToFit (shink : bool) (d : FP.t) : FP.t :=
  let d1 :=
    if shink && AlignmentData.wrap (FP.alignmentData d)
    then on_alignment (AlignmentData.set_wrap false) d
    else d in
  let d2 :=
    if shink && isFillingAlignment (AlignmentData.alignH (FP.alignmentData d1))
    then on_alignment (AlignmentData.set_alignH AlignLeft) d1
    else d1 in
  FP.set_dirty true (on_alignment (AlignmentData.set_shinkToFit shink) d2).

Definition alignmentChanged (d : FP.t) : bool :=
  let a := FP.alignmentData d in
  negb (bool_decide (AlignmentData.alignH a = AlignHGeneral))
  || negb (bool_decide (AlignmentData.alignV a = AlignBottom))
  || negb (AlignmentData.indent a =? 0)
  || AlignmentData.wrap a
  || negb (AlignmentData.rotation a =? 0)
  || AlignmentData.shinkToFit a.

Definition horizontalAlignmentString (d : FP.t) : string :=
  match AlignmentData.alignH (FP.alignmentData d) with
  | AlignLeft => "left"
  | AlignHCenter => "center"
  | AlignRight => "right"
  | AlignHFill => "fill"
  | AlignHJustify => "justify"
  | AlignHMerge => "centerContinuous"
  | AlignHDistributed => "distributed"
  | _ => ""
  end.

Definition verticalAlignmentString (d : FP.t) : string :=
  match AlignmentData.alignV (FP.alignmentData d) with
  | AlignTop => "top"
  | AlignVCenter => "center"
  | AlignVJustify => "justify"
  | AlignVDistributed => "distributed"
  | _ => ""
  end.

(** *** Border *)

Definition leftBorderStyle (d : FP.t) : BorderStyle :=
  BorderData.left (FP.borderData d).

Definition setLeftBorderStyle (style : BorderStyle) (d : FP.t) : FP.t :=
  on_border (BorderData.set_dirty true)
    (on_border (BorderData.set_left style) d).

Definition leftBorderColor (d : FP.t) : QColor.t :=
  BorderData.leftColor (FP.borderData d).

Definition setLeftBorderColor (color : QColor.t) (d : FP.t) : FP.t :=
  on_border (BorderData.set_dirty true)
    (on_border (BorderData.set_leftColor color) d).

Definition rightBorderStyle (d : FP.t) : BorderStyle :=
  BorderData.right (FP.borderData d).

Definition setRightBorderStyle (style : BorderStyle) (d : FP.t) : FP.t :=
  on_border (BorderData.set_dirty true)
    (on_border (BorderData.set_right style) d).

Definition rightBorderColor (d : FP.t) : QColor.t :=
  BorderData.rightColor (FP.borderData d).

Definition setRightBorderColor (color : QColor.t) (d : FP.t) : FP.t :=
  on_border (BorderData.set_dirty true)
    (on_border (BorderData.set_rightColor color) d).

Definition topBorderStyle (d : FP.t) : BorderStyle :=
  BorderData.top (FP.borderData d).

Definition setTopBorderStyle (style : BorderStyle) (d : FP.t) : FP.t :=
  on_border (BorderData.set_dirty true)
    (on_border (BorderData.set_top style) d).

Definition topBorderColor (d : FP.t) : QColor.t :=
  BorderData.topColor (FP.borderData d).

Definition setTopBorderColor (color : QColor.t) (d : FP.t) : FP.t :=
  on_border (BorderData.set_dirty true)
    (on_border (BorderData.set_topColor color) d).

Definition bottomBorderStyle (d : FP.t) : BorderStyle :=
  BorderData.bottom (FP.borderData d).

Definition setBottomBorderStyle (style : BorderStyle) (d : FP.t) : FP.t :=
  on_border (BorderData.set_dirty true)
    (on_border (BorderData.set_bottom style) d).

Definition bottomBorderColor (d : FP.t) : QColor.t :=
  BorderData.bottomColor (FP.borderData d).

Definition setBottomBorderColor (color : QColor.t) (d : FP.t) : FP.t :=
  on_border (BorderData.set_dirty true)
    (on_border (BorderData.set_bottomColor color) d).

Definition diagonalBorderStyle (d : FP.t) : BorderStyle :=
  BorderData.diagonal (FP.borderData d).

Definition setDiagonalBorderStyle (style : BorderStyle) (d : FP.t) : FP.t :=
  on_border (BorderData.set_dirty true)
    (on_border (BorderData.set_diagonal style) d).

Definition diagonalBorderType (d : FP.t) : DiagonalBorderType :=
  BorderData.diagonalType (FP.borderData d).

Definition setDiagonalBorderType (style : DiagonalBorderType) (d : FP.t)
  : FP.t :=
  on_border (BorderData.set_dirty true)
    (on_border (BorderData.set_diagonalType style) d).

Definition diagonalBorderColor (d : FP.t) : QColor.t :=
  BorderData.diagonalColor (FP.borderData d).

Definition setDiagonalBorderColor (color : QColor.t) (d : FP.t) : FP.t :=
  on_border (BorderData.set_dirty true)
    (on_border (BorderData.set_diagonalColor color) d).

Definition setBorderStyle (style : BorderStyle) (d : FP.t) : FP.t :=
  let d1 := setLeftBorderStyle style d in
  let d2 := setRightBorderStyle style d1 in
  let d3 := setBottomBorderStyle style d2 in
  setTopBorderStyle style d3.

Definition setBorderColor (color : QColor.t) (d : FP.t) : FP.t :=
  let d1 := setLeftBorderColor color d in
  let d2 := setRightBorderColor color d1 in
  let d3 := setTopBorderColor color d2 in
  setBottomBorderColor color d3.

Definition borderIndexValid (d : FP.t) : bool :=
  BorderData.indexValid (FP.borderData d).

Definition borderIndex (d : FP.t) : Z := BorderData.index (FP.borderData d).

Definition setBorderIndex (index : Z) (d : FP.t) : FP.t :=
  on_border (BorderData.setIndex index) d.

Definition borderKey (d : FP.t) : QByteArray * FP.t :=
  let d1 := if BorderData._dirty (FP.borderData d) then FP.set_dirty true d
            else d in
  let (k, border) := BorderData.key (FP.borderData d1) in
  (k, FP.set_borderData border d1).

(** *** Fill *)

Definition fillPattern (d : FP.t) : FillPattern :=
  FillData.pattern (FP.fillData d).

Definition setFillPattern (pattern : FillPattern) (d : FP.t) : FP.t :=
  on_fill (FillData.set_dirty true) (on_fill (FillData.set_pattern pattern) d).

Definition patternForegroundColor (d : FP.t) : QColor.t :=
  FillData.fgColor (FP.fillData d).

Definition setPatternForegroundColor (color : QColor.t) (d : FP.t) : FP.t :=
  let d1 :=
    if QColor.isValid color
       && (FillData.pattern (FP.fillData d) =? PatternNone)
    then on_fill (FillData.set_pattern PatternSolid) d
    else d in
  on_fill (FillData.set_dirty true) (on_fill (FillData.set_fgColor color) d1).

Definition patternBackgroundColor (d : FP.t) : QColor.t :=
  FillData.bgColor (FP.fillData d).

Definition setPatternBackgroundColor (color : QColor.t) (d : FP.t) : FP.t :=
  let d1 :=
    if QColor.isValid color
       && (FillData.pattern (FP.fillData d) =? PatternNone)
    then on_fill (FillData.set_pattern PatternSolid) d
    else d in
  on_fill (FillData.set_dirty true) (on_fill (FillData.set_bgColor color) d1).

Definition fillIndexValid (d : FP.t) : bool :=
  FillData.indexValid (FP.fillData d).

Definition fillIndex (d : FP.t) : Z := FillData.index (FP.fillData d).

Definition setFillIndex (index : Z) (d : FP.t) : FP.t :=
  on_fill (FillData.setIndex index) d.

Definition fillKey (d : FP.t) : QByteArray * FP.t :=
  let d1 := if FillData._dirty (FP.fillData d) then FP.set_dirty true d
            else d in
  let (k, fill) := FillData.key (FP.fillData d1) in
  (k, FP.set_fillData fill d1).

(** *** Protection *)

Definition hidden (d : FP.t) : bool :=
  ProtectionData.hidden (FP.protectionData d).

Definition setHidden (hidden : bool) (d : FP.t) : FP.t :=
  FP.set_dirty true (on_protection (ProtectionData.set_hidden hidden) d).

Definition locked (d : FP.t) : bool :=
  ProtectionData.locked (FP.protectionData d).

Definition setLocked (locked : bool) (d : FP.t) : FP.t :=
  FP.set_dirty true (on_protection (ProtectionData.set_locked locked) d).

(** *** The whole-format key and the two format indices *)

(** What formatKey() streams once the three sub-keys are known. *)
Definition streamKey (fontKey borderKey fillKey : QByteArray) (d : FP.t)
  : QByteArray :=
  QDataStream.put_bytes fontKey ++ QDataStream.put_bytes borderKey
  ++ QDataStream.put_bytes fillKey
  ++ QDataStream.put_i32 (NumberData.formatIndex (FP.numberData d))
  ++ QDataStream.put_i32
       (HorizontalAlignment_value (AlignmentData.alignH (FP.alignmentData d)))
  ++ QDataStream.put_i32
       (VerticalAlignment_value (AlignmentData.alignV (FP.alignmentData d)))
  ++ QDataStream.put_i32 (AlignmentData.indent (FP.alignmentData d))
  ++ QDataStream.put_i32 (AlignmentData.rotation (FP.alignmentData d))
  ++ QDataStream.put_bool (AlignmentData.shinkToFit (FP.alignmentData d))
  ++ QDataStream.put_bool (AlignmentData.wrap (FP.alignmentData d))
  ++ QDataStream.put_bool (ProtectionData.hidden (FP.protectionData d))
  ++ QDataStream.put_bool (ProtectionData.locked (FP.protectionData d)).

Definition formatKey (d : FP.t) : QByteArray * FP.t :=
  if FP.dirty d || FontData._dirty (FP.fontData d)
     || BorderData._dirty (FP.borderData d)
     || FillData._dirty (FP.fillData d)
  then
    let (fk, d1) := fontKey d in
    let (bk, d2) := borderKey d1 in
    let (lk, d3) := fillKey d2 in
    let key := streamKey fk bk lk d3 in
    let d4 := FP.set_formatKey key d3 in
    let d5 := FP.set_dirty false d4 in
    let d6 := FP.set_xf_indexValid false d5 in
    let d7 := FP.set_dxf_indexValid false d6 in
    (FP.formatKey d7, d7)
  else (FP.formatKey d, d).

Definition setXfIndex (index : Z) (d : FP.t) : FP.t :=
  FP.set_xf_indexValid true (FP.set_xf_index index d).

Definition xfIndex (d : FP.t) : Z := FP.xf_index d.

Definition xfIndexValid (d : FP.t) : bool :=
  negb (FP.dirty d) && FP.xf_indexValid d.

Definition setDxfIndex (index : Z) (d : FP.t) : FP.t :=
  FP.set_dxf_indexValid true (FP.set_dxf_index index d).

Definition dxfIndex (d : FP.t) : Z := FP.dxf_index d.

Definition dxfIndexValid (d : FP.t) : bool :=
  negb (FP.dirty d) && FP.dxf_indexValid d.

Definition isDxfFormat (d : FP.t) : bool := FP.is_dxf_fomat d.

Definition theme (d : FP.t) : Z := FP.theme d.

End Format.

(** ** Calls on one format *)

(** The non-[const] members of class Format, with their arguments. *)
Inductive Mutator : Type :=
  | SetNumberFormatIndex (format : Z)
  | SetNumberFormat (format : string)
  | SetNumFmt (index : Z) (str : string)
  | SetFontSize (size : Z)
  | SetFontItalic (italic : bool)
  | SetFontStrikeOut (strikeOut : bool)
  | SetFontColor (color : QColor.t)
  | SetFontBold (bold : bool)
  | SetFontScript (script : FontScript)
  | SetFontUnderline (underline : FontUnderline)
  | SetFontOutline (outline : bool)
  | SetFontName (name : string)
  | SetFontIndex (index : Z)
  | SetHorizontalAlignment (align : HorizontalAlignment)
  | SetVerticalAlignment (align : VerticalAlignment)
  | SetTextWarp (wrap : bool)
  | SetRotation (rotation : Z)
  | SetIndent (indent : Z)
  | SetShrinkToFit (shink : bool)
  | SetBorderStyle (style : BorderStyle)
  | SetBorderColor (color : QColor.t)
  | SetLeftBorderStyle (style : BorderStyle)
  | SetLeftBorderColor (color : QColor.t)
  | SetRightBorderStyle (style : BorderStyle)
  | SetRightBorderColor (color : QColor.t)
  | SetTopBorderStyle (style : BorderStyle)
  | SetTopBorderColor (color : QColor.t)
  | SetBottomBorderStyle (style : BorderStyle)
  | SetBottomBorderColor (color : QColor.t)
  | SetDiagonalBorderStyle (style : BorderStyle)
  | SetDiagonalBorderType (style : DiagonalBorderType)
  | SetDiagonalBorderColor (color : QColor.t)
  | SetBorderIndex (index : Z)
  | SetFillPattern (pattern : FillPattern)
  | SetPatternForegroundColor (color : QColor.t)
  | SetPatternBackgroundColor (color : QColor.t)
  | SetFillIndex (index : Z)
  | SetHidden (hidden : bool)
  | SetLocked (locked : bool)
  | SetXfIndex (index : Z)
  | SetDxfIndex (index : Z).

Definition call (m : Mutator) (d : FP.t) : FP.t :=
  match m with
  | SetNumberFormatIndex format => Format.setNumberFormatIndex format d
  | SetNumberFormat format => Format.setNumberFormat format d
  | SetNumFmt index str => Format.setNumFmt index str d
  | SetFontSize size => Format.setFontSize size d
  | SetFontItalic italic => Format.setFontItalic italic d
  | SetFontStrikeOut strikeOut => Format.setFontStrikeOut strikeOut d
  | SetFontColor color => Format.setFontColor color d
  | SetFontBold bold => Format.setFontBold bold d
  | SetFontScript script => Format.setFontScript script d
  | SetFontUnderline underline => Format.setFontUnderline underline d
  | SetFontOutline outline => Format.setFontOutline outline d
  | SetFontName name => Format.setFontName name d
  | SetFontIndex index => Format.setFontIndex index d
  | SetHorizontalAlignment align => Format.setHorizontalAlignment align d
  | SetVerticalAlignment align => Format.setVerticalAlignment align d
  | SetTextWarp wrap => Format.setTextWarp wrap d
  | SetRotation rotation => Format.setRotation rotation d
  | SetIndent indent => Format.setIndent indent d
  | SetShrinkToFit shink => Format.setShrinkToFit shink d
  | SetBorderStyle style => Format.setBorderStyle style d
  | SetBorderColor color => Format.setBorderColor color d
  | SetLeftBorderStyle style => Format.setLeftBorderStyle style d
  | SetLeftBorderColor color => Format.setLeftBorderColor color d
  | SetRightBorderStyle style => Format.setRightBorderStyle style d
  | SetRightBorderColor color => Format.setRightBorderColor color d
  | SetTopBorderStyle style => Format.setTopBorderStyle style d
  | SetTopBorderColor color => Format.setTopBorderColor color d
  | SetBottomBorderStyle style => Format.setBottomBorderStyle style d
  | SetBottomBorderColor color => Format.setBottomBorderColor color d
  | SetDiagonalBorderStyle style => Format.setDiagonalBorderStyle style d
  | SetDiagonalBorderType style => Format.setDiagonalBorderType style d
  | SetDiagonalBorderColor color => Format.setDiagonalBorderColor color d
  | SetBorderIndex index => Format.setBorderIndex index d
  | SetFillPattern pattern => Format.setFillPattern pattern d
  | SetPatternForegroundColor color =>
      Format.setPatternForegroundColor color d
  | SetPatternBackgroundColor color =>
      Format.setPatternBackgroundColor color d
  | SetFillIndex index => Format.setFillIndex index d
  | SetHidden hidden => Format.setHidden hidden d
  | SetLocked locked => Format.setLocked locked d
  | SetXfIndex index => Format.setXfIndex index d
  | SetDxfIndex index => Format.setDxfIndex index d
  end.

(** The [const] members that write through [d]. *)
Inductive KeyAccess : Type := FontKey | BorderKey | FillKey | FormatKey.

Definition access (k : KeyAccess) (d : FP.t) : QByteArray * FP.t :=
  match k with
  | FontKey => Format.fontKey d
  | BorderKey => Format.borderKey d
  | FillKey => Format.fillKey d
  | FormatKey => Format.formatKey d
  end.

(** Any call that can change the state of a format. *)
Inductive Call : Type :=
  | Mutate (m : Mutator)
  | Access (k : KeyAccess).

Definition step (c : Call) (d : FP.t) : FP.t :=
  match c with
  | Mutate m => call m d
  | Access k => snd (access k d)
  end.

(** A sequence of calls, the first of the list made first. *)
Definition run (cs : list Call) (d : FP.t) : FP.t :=
  fold_left (fun d c => step c d) cs d.

Definition calls (ms : list Mutator) (d : FP.t) : FP.t :=
  fold_left (fun d m => call m d) ms d.

(** Which dirty flag a mutator sets: the flag of the whole format, the flag
    of its own bundle, or none (the index write-backs of the registry, and
    setNumberFormat with an empty string). *)
Inductive Marks : Type := MarksFormat | MarksBundle | MarksNothing.

Definition marks (m : Mutator) : Marks :=
  match m with
  | SetNumberFormatIndex _ => MarksFormat
  | SetNumberFormat format =>
      if QString.isEmpty format then MarksNothing else MarksFormat
  | SetHorizontalAlignment _ | SetVerticalAlignment _ | SetTextWarp _
  | SetRotation _ | SetIndent _ | SetShrinkToFit _
  | SetHidden _ | SetLocked _ => MarksFormat
  | SetFontSize _ | SetFontItalic _ | SetFontStrikeOut _ | SetFontColor _
  | SetFontBold _ | SetFontScript _ | SetFontUnderline _ | SetFontOutline _
  | SetFontName _
  | SetBorderStyle _ | SetBorderColor _
  | SetLeftBorderStyle _ | SetLeftBorderColor _
  | SetRightBorderStyle _ | SetRightBorderColor _
  | SetTopBorderStyle _ | SetTopBorderColor _
  | SetBottomBorderStyle _ | SetBottomBorderColor _
  | SetDiagonalBorderStyle _ | SetDiagonalBorderType _
  | SetDiagonalBorderColor _
  | SetFillPattern _ | SetPatternForegroundColor _
  | SetPatternBackgroundColor _ => MarksBundle
  | SetNumFmt _ _ | SetFontIndex _ | SetBorderIndex _ | SetFillIndex _
  | SetXfIndex _ | SetDxfIndex _ => MarksNothing
  end.

(** Some dirty flag is set: the condition formatKey() tests. *)
Definition anyDirty (d : FP.t) : bool :=
  FP.dirty d || FontData._dirty (FP.fontData d)
  || BorderData._dirty (FP.borderData d)
  || FillData._dirty (FP.fillData d).

(** Word wrap and shrink-to-fit are not both on. *)
Definition exclusive (d : FP.t) : Prop :=
  Format.textWrap d && Format.shrinkToFit d = false.

(** ** What a mutator touches

    The attributes a mutator reads or may write.  The plain setters touch
    the one attribute they assign; a setter that normalises touches the
    attributes it tests or resets as well.  The dirty flags (set by
    everybody, to the same value) and the validity flag of the number
    format (which does not enter the key) are left out. *)

Inductive Attr : Type :=
  | ANumIndex | ANumString
  | AFontSize | AFontItalic | AFontStrikeOut | AFontColor | AFontBold
  | AFontScript | AFontUnderline | AFontOutline | AFontName | AFontIndex
  | AAlignH | AAlignV | AWrap | ARotation | AIndent | AShrink
  | ALeft | ALeftColor | ARight | ARightColor | ATop | ATopColor
  | ABottom | ABottomColor | ADiagonal | ADiagonalType | ADiagonalColor
  | ABorderIndex
  | APattern | AFgColor | ABgColor | AFillIndex
  | AHidden | ALocked
  | AXfIndex | ADxfIndex.

Definition Attr_code (a : Attr) : positive :=
  match a with
  | ANumIndex => 1 | ANumString => 2
  | AFontSize => 3 | AFontItalic => 4 | AFontStrikeOut => 5
  | AFontColor => 6 | AFontBold => 7 | AFontScript => 8
  | AFontUnderline => 9 | AFontOutline => 10 | AFontName => 11
  | AFontIndex => 12
  | AAlignH => 13 | AAlignV => 14 | AWrap => 15 | ARotation => 16
  | AIndent => 17 | AShrink => 18
  | ALeft => 19 | ALeftColor => 20 | ARight => 21 | ARightColor => 22
  | ATop => 23 | ATopColor => 24 | ABottom => 25 | ABottomColor => 26
  | ADiagonal => 27 | ADiagonalType => 28 | ADiagonalColor => 29
  | ABorderIndex => 30
  | APattern => 31 | AFgColor => 32 | ABgColor => 33 | AFillIndex => 34
  | AHidden => 35 | ALocked => 36
  | AXfIndex => 37 | ADxfIndex => 38
  end%positive.

Definition touches (m : Mutator) : list Attr :=
  match m with
  | SetNumberFormatIndex _ => [ANumIndex]
  | SetNumberFormat _ => [ANumString]
  | SetNumFmt _ _ => [ANumIndex; ANumString]
  | SetFontSize _ => [AFontSize]
  | SetFontItalic _ => [AFontItalic]
  | SetFontStrikeOut _ => [AFontStrikeOut]
  | SetFontColor _ => [AFontColor]
  | SetFontBold _ => [AFontBold]
  | SetFontScript _ => [AFontScript]
  | SetFontUnderline _ => [AFontUnderline]
  | SetFontOutline _ => [AFontOutline]
  | SetFontName _ => [AFontName]
  | SetFontIndex _ => [AFontIndex]
  | SetHorizontalAlignment _ => [AAlignH; AIndent; AShrink]
  | SetVerticalAlignment _ => [AAlignV]
  | SetTextWarp _ => [AWrap; AShrink]
  | SetRotation _ => [ARotation]
  | SetIndent _ => [AIndent; AAlignH]
  | SetShrinkToFit _ => [AShrink; AWrap; AAlignH]
  | SetBorderStyle _ => [ALeft; ARight; ABottom; ATop]
  | SetBorderColor _ => [ALeftColor; ARightColor; ATopColor; ABottomColor]
  | SetLeftBorderStyle _ => [ALeft]
  | SetLeftBorderColor _ => [ALeftColor]
  | SetRightBorderStyle _ => [ARight]
  | SetRightBorderColor _ => [ARightColor]
  | SetTopBorderStyle _ => [ATop]
  | SetTopBorderColor _ => [ATopColor]
  | SetBottomBorderStyle _ => [ABottom]
  | SetBottomBorderColor _ => [ABottomColor]
  | SetDiagonalBorderStyle _ => [ADiagonal]
  | SetDiagonalBorderType _ => [ADiagonalType]
  | SetDiagonalBorderColor _ => [ADiagonalColor]
  | SetBorderIndex _ => [ABorderIndex]
  | SetFillPattern _ => [APattern]
  | SetPatternForegroundColor _ => [AFgColor; APattern]
  | SetPatternBackgroundColor _ => [ABgColor; APattern]
  | SetFillIndex _ => [AFillIndex]
  | SetHidden _ => [AHidden]
  | SetLocked _ => [ALocked]
  | SetXfIndex _ => [AXfIndex]
  | SetDxfIndex _ => [ADxfIndex]
  end.

(** No attribute of [l1] occurs in [l2]. *)
Definition disjointb (l1 l2 : list Attr) : bool :=
  forallb (fun a =>
    forallb (fun b => negb (Pos.eqb (Attr_code a) (Attr_code b))) l2) l1.

(** The state with the validity flag of the number format forgotten:
    formatKey() does not read it. *)
Definition forgetValid (d : FP.t) : FP.t :=
  Format.on_number (NumberData.set_valid true) d.

(** ** The mutators by the bundle they act on

    A second presentation of [call], for the commutation argument: every
    mutator changes one bundle (or one of the two format indices) by a
    function of that bundle alone, and some also set the dirty flag of the
    whole format.  [call_act] below shows that it agrees with [call]. *)

Inductive Action : Type :=
  | OnNumber (mark : bool) (f : NumberData.t -> NumberData.t)
  | OnFont (f : FontData.t -> FontData.t)
  | OnAlignment (f : AlignmentData.t -> AlignmentData.t)
  | OnBorder (f : BorderData.t -> BorderData.t)
  | OnFill (f : FillData.t -> FillData.t)
  | OnProtection (f : ProtectionData.t -> ProtectionData.t)
  | OnXfIndex (index : Z)
  | OnDxfIndex (index : Z).

Definition perform (a : Action) (d : FP.t) : FP.t :=
  match a with
  | OnNumber mark f =>
      Format.on_number f (if mark then FP.set_dirty true d else d)
  | OnFont f => Format.on_font f d
  | OnAlignment f => FP.set_dirty true (Format.on_alignment f d)
  | OnBorder f => Format.on_border f d
  | OnFill f => Format.on_fill f d
  | OnProtection f => FP.set_dirty true (Format.on_protection f d)
  | OnXfIndex index => Format.setXfIndex index d
  | OnDxfIndex index => Format.setDxfIndex index d
  end.

Definition fontAttr (f : FontData.t -> FontData.t) : Action :=
  OnFont (fun r => FontData.set_dirty true (f r)).

Definition borderAttr (f : BorderData.t -> BorderData.t) : Action :=
  OnBorder (fun r => BorderData.set_dirty true (f r)).

Definition fillColor (set : QColor.t -> FillData.t -> FillData.t)
  (color : QColor.t) : Action :=
  OnFill (fun r =>
    let r1 := if QColor.isValid color && (FillData.pattern r =? PatternNone)
              then FillData.set_pattern PatternSolid r
              else r in
    FillData.set_dirty true (set color r1)).

Definition act (m : Mutator) : Action :=
  match m with
  | SetNumberFormatIndex format =>
      OnNumber true (fun r =>
        NumberData.set_valid true (NumberData.set_formatIndex format r))
  | SetNumberFormat format =>
      if QString.isEmpty format
      then OnNumber false (fun r => r)
      else OnNumber true (fun r =>
             NumberData.set_valid false
               (NumberData.set_formatString format r))
  | SetNumFmt index str =>
      OnNumber false (fun r =>
        NumberData.set_valid true
          (NumberData.set_formatString str
             (NumberData.set_formatIndex index r)))
  | SetFontSize size => fontAttr (FontData.set_size size)
  | SetFontItalic italic => fontAttr (FontData.set_italic italic)
  | SetFontStrikeOut strikeOut => fontAttr (FontData.set_strikeOut strikeOut)
  | SetFontColor color => fontAttr (FontData.set_color color)
  | SetFontBold bold => fontAttr (FontData.set_bold bold)
  | SetFontScript script => fontAttr (FontData.set_scirpt script)
  | SetFontUnderline underline => fontAttr (FontData.set_underline underline)
  | SetFontOutline outline => fontAttr (FontData.set_outline outline)
  | SetFontName name => fontAttr (FontData.set_name name)
  | SetFontIndex index => OnFont (FontData.setIndex index)
  | SetHorizontalAlignment align =>
      OnAlignment (fun r =>
        let r1 := if negb (AlignmentData.indent r =? 0)
                     && negb (Format.isIndentAlignment align)
                  then AlignmentData.set_indent 0 r
                  else r in
        let r2 := if AlignmentData.shinkToFit r1
                     && Format.isFillingAlignment align
                  then AlignmentData.set_shinkToFit false r1
                  else r1 in
        AlignmentData.set_alignH align r2)
  | SetVerticalAlignment align => OnAlignment (AlignmentData.set_alignV align)
  | SetTextWarp wrap =>
      OnAlignment (fun r =>
        let r1 := if wrap && AlignmentData.shinkToFit r
                  then AlignmentData.set_shinkToFit false r
                  else r in
        AlignmentData.set_wrap wrap r1)
  | SetRotation rotation => OnAlignment (AlignmentData.set_rotation rotation)
  | SetIndent indent =>
      OnAlignment (fun r =>
        let r1 := if negb (indent =? 0)
                     && negb (Format.keepsIndent (AlignmentData.alignH r))
                  then AlignmentData.set_alignH AlignLeft r
                  else r in
        AlignmentData.set_indent indent r1)
  | SetShrinkToFit shink =>
      OnAlignment (fun r =>
        let r1 := if shink && AlignmentData.wrap r
                  then AlignmentData.set_wrap false r
                  else r in
        let r2 := if shink
                     && Format.isFillingAlignment (AlignmentData.alignH r1)
                  then AlignmentData.set_alignH AlignLeft r1
                  else r1 in
        AlignmentData.set_shinkToFit shink r2)
  | SetBorderStyle style =>
      borderAttr (fun r =>
        BorderData.set_top style
          (BorderData.set_dirty true (BorderData.set_bottom style
             (BorderData.set_dirty true (BorderData.set_right style
                (BorderData.set_dirty true (BorderData.set_left style r)))))))
  | SetBorderColor color =>
      borderAttr (fun r =>
        BorderData.set_bottomColor color
          (BorderData.set_dirty true (BorderData.set_topColor color
             (BorderData.set_dirty true (BorderData.set_rightColor color
                (BorderData.set_dirty true
                   (BorderData.set_leftColor color r)))))))
  | SetLeftBorderStyle style => borderAttr (BorderData.set_left style)
  | SetLeftBorderColor color => borderAttr (BorderData.set_leftColor color)
  | SetRightBorderStyle style => borderAttr (BorderData.set_right style)
  | SetRightBorderColor color => borderAttr (BorderData.set_rightColor color)
  | SetTopBorderStyle style => borderAttr (BorderData.set_top style)
  | SetTopBorderColor color => borderAttr (BorderData.set_topColor color)
  | SetBottomBorderStyle style => borderAttr (BorderData.set_bottom style)
  | SetBottomBorderColor color =>
      borderAttr (BorderData.set_bottomColor color)
  | SetDiagonalBorderStyle style => borderAttr (BorderData.set_diagonal style)
  | SetDiagonalBorderType style =>
      borderAttr (BorderData.set_diagonalType style)
  | SetDiagonalBorderColor color =>
      borderAttr (BorderData.set_diagonalColor color)
  | SetBorderIndex index => OnBorder (BorderData.setIndex index)
  | SetFillPattern pattern =>
      OnFill (fun r =>
        FillData.set_dirty true (FillData.set_pattern pattern r))
  | SetPatternForegroundColor color => fillColor FillData.set_fgColor color
  | SetPatternBackgroundColor color => fillColor FillData.set_bgColor color
  | SetFillIndex index => OnFill (FillData.setIndex index)
  | SetHidden hidden => OnProtection (ProtectionData.set_hidden hidden)
  | SetLocked locked => OnProtection (ProtectionData.set_locked locked)
  | SetXfIndex index => OnXfIndex index
  | SetDxfIndex index => OnDxfIndex index
  end.

(** Two actions commute: they act on different parts, or their functions
    commute (for the number format, up to its validity flag). *)
Definition compatible (a1 a2 : Action) : Prop :=
  match a1, a2 with
  | OnNumber _ f, OnNumber _ g =>
      forall r, NumberData.set_valid true (f (g r))
                = NumberData.set_valid true (g (f r))
  | OnFont f, OnFont g => forall r, f (g r) = g (f r)
  | OnAlignment f, OnAlignment g => forall r, f (g r) = g (f r)
  | OnBorder f, OnBorder g => forall r, f (g r) = g (f r)
  | OnFill f, OnFill g => forall r, f (g r) = g (f r)
  | OnProtection f, OnProtection g => forall r, f (g r) = g (f r)
  | OnXfIndex _, OnXfIndex _ => False
  | OnDxfIndex _, OnDxfIndex _ => False
  | _, _ => True
  end.

(** ** Format objects and the state they share

    A Format holds one pointer, [d], to a reference-counted FormatPrivate
    (FormatPrivate derives from QSharedData).  The constructors, the
    assignment and the destructor of Format are in xlsxformat.cpp; what
    [d] does on a write is fixed by its declaration in xlsxformat.h, which
    is not among the sources, and is taken from the specification (see
    [mutate]). *)
Module Shared.

(** A FormatPrivate on the heap, with the counter of QSharedData. *)
Record Cell : Type := mkCell {
  ref : nat;
  data : FP.t
}.

(** The heap, by address, and the [d] pointer of every live Format object,
    by the name of the object. *)
Record World : Type := mkWorld {
  heap : gmap positive Cell;
  objects : gmap nat positive
}.

Definition empty : World := mkWorld ∅ ∅.

(** ref.ref() *)
Definition acquire (l : positive) (h : gmap positive Cell)
  : gmap positive Cell :=
  alter (fun c => mkCell (S (ref c)) (data c)) l h.

(** if (!ref.deref()) delete d *)
Definition release (l : positive) (h : gmap positive Cell)
  : gmap positive Cell :=
  match h !! l with
  | Some c =>
      if decide (ref c = 1%nat) then delete l h
      else <[l := mkCell (Nat.pred (ref c)) (data c)]> h
  | None => h
  end.

(** Format::Format() : d(new FormatPrivate) *)
Definition construct (x : nat) (w : World) : option World :=
  match objects w !! x with
  | Some _ => None
  | None =>
      let l := fresh (dom (heap w)) in
      Some (mkWorld (<[l := mkCell 1 FP.new]> (heap w))
                    (<[x := l]> (objects w)))
  end.

(** Format::Format(const Format &other) : d(other.d) *)
Definition copyConstruct (x other : nat) (w : World) : option World :=
  match objects w !! x with
  | Some _ => None
  | None =>
      l ← objects w !! other;
      Some (mkWorld (acquire l (heap w)) (<[x := l]> (objects w)))
  end.

(** Format::operator=(const Format &other): d = other.d, which does
    nothing when both already point to the same state. *)
Definition assign (x other : nat) (w : World) : option World :=
  old ← objects w !! x;
  l ← objects w !! other;
  if decide (l = old) then Some w
  else Some (mkWorld (release old (acquire l (heap w)))
                     (<[x := l]> (objects w))).

(** Format::~Format() *)
Definition destroy (x : nat) (w : World) : option World :=
  l ← objects w !! x;
  Some (mkWorld (release l (heap w)) (delete x (objects w))).

(** detach(): if (d->ref != 1), clone the state, count the clone once,
    drop one reference to the old state and point [d] to the clone.
    Returns the address [d] has afterwards. *)
Definition detach (x : nat) (w : World) : option (positive * World) :=
  l ← objects w !! x;
  c ← heap w !! l;
  if decide (ref c = 1%nat) then Some (l, w)
  else
    let l' := fresh (dom (heap w)) in
    Some (l', mkWorld (<[l' := mkCell 1 (FP.clone (data c))]>
                         (release l (heap w)))
                      (<[x := l']> (objects w))).

(** Whether the member evaluates [d->] at all: setNumberFormat returns on
    an empty string before it does. *)
Definition usesD (m : Mutator) : bool :=
  match m with
  | SetNumberFormat format => negb (QString.isEmpty format)
  | _ => true
  end.

(** Modelled from the spec: the declaration of the [d] pointer of class
    Format (xlsxformat.h) is not among the sources.  By sections 3 and 4.1
    of the specification a Format is a copy-on-write handle: the first
    write through a handle whose state is shared clones the state first,
    and reads never clone.  These are the rules of Qt's QSharedDataPointer,
    followed here: a non-[const] member detaches when it first evaluates
    [d->] and then works on the state [d] points to. *)
Definition mutate (x : nat) (m : Mutator) (w : World) : option World :=
  if usesD m then
    '(l, w1) ← detach x w;
    c ← heap w1 !! l;
    Some (mkWorld (<[l := mkCell (ref c) (call m (data c))]> (heap w1))
                  (objects w1))
  else
    _ ← objects w !! x; Some w.

(** Modelled from the spec: a key accessor is a [const] member, and
    "reads never fork" (section 4.1): it works in place on the state [d]
    points to, shared or not. *)
Definition keyAccess (x : nat) (k : KeyAccess) (w : World)
  : option (QByteArray * World) :=
  l ← objects w !! x;
  c ← heap w !! l;
  let r := access k (data c) in
  Some (r.1, mkWorld (<[l := mkCell (ref c) r.2]> (heap w)) (objects w)).

(** The state a getter of object [x] reads. *)
Definition read (x : nat) (w : World) : option FP.t :=
  l ← objects w !! x;
  data <$> heap w !! l.

(** Format::operator==, the left operand evaluated first. *)
Definition equal (x format : nat) (w : World) : option (bool * World) :=
  '(k1, w1) ← keyAccess x FormatKey w;
  '(k2, w2) ← keyAccess format FormatKey w1;
  Some (bool_decide (k1 = k2), w2).

(** Format::operator==, the right operand evaluated first. *)
Definition equal_rl (x format : nat) (w : World) : option (bool * World) :=
  '(k2, w1) ← keyAccess format FormatKey w;
  '(k1, w2) ← keyAccess x FormatKey w1;
  Some (bool_decide (k1 = k2), w2).

(** Format::operator!= *)
Definition notEqual (x format : nat) (w : World) : option (bool * World) :=
  '(k1, w1) ← keyAccess x FormatKey w;
  '(k2, w2) ← keyAccess format FormatKey w1;
  Some (negb (bool_decide (k1 = k2)), w2).

(** The statements of a program over Format objects. *)
Inductive Stmt : Type :=
  | Construct (x : nat)
  | CopyConstruct (x other : nat)
  | Assign (x other : nat)
  | Destroy (x : nat)
  | Mutator_ (x : nat) (m : Mutator)
  | KeyAccess_ (x : nat) (k : KeyAccess)
  | Equal (x format : nat).

Definition exec (s : Stmt) (w : World) : option World :=
  match s with
  | Construct x => construct x w
  | CopyConstruct x other => copyConstruct x other w
  | Assign x other => assign x other w
  | Destroy x => destroy x w
  | Mutator_ x m => mutate x m w
  | KeyAccess_ x k => snd <$> keyAccess x k w
  | Equal x format => snd <$> equal x format w
  end.

Fixpoint execs (ss : list Stmt) (w : World) : option World :=
  match ss with
  | [] => Some w
  | s :: ss' => w' ← exec s w; execs ss' w'
  end.

(** How many of the pointers [o] point to the state at [l]. *)
Definition pointers (l : positive) (o : gmap nat positive) : nat :=
  size (filter (fun p : nat * positive => p.2 = l) o).

(** How many live objects point to the state at [l]. *)
Definition sharers (l : positive) (w : World) : nat :=
  pointers l (objects w).

(** The reference counts are right: every [d] points to a state on the
    heap, and every state on the heap counts the objects that point to it,
    of which there is at least one. *)
Definition wf (w : World) : Prop :=
  (forall x l, objects w !! x = Some l -> is_Some (heap w !! l))
  /\ (forall l c, heap w !! l = Some c ->
        ref c = sharers l w /\ (1 <= ref c)%nat).

End Shared.

(** ** Further notions, for the properties of the setters and of the key *)

(** Shrink-to-fit is never on together with the alignments fill, justify
    or distributed. *)
Definition shrinkFits (d : FP.t) : Prop :=
  Format.shrinkToFit d
  && Format.isFillingAlignment (Format.horizontalAlignment d)
  = false.

(** A format with an indent is not aligned center, fill or merge. *)
Definition indentFits (d : FP.t) : Prop :=
  negb (Format.indent d =? 0)
  && match Format.horizontalAlignment d with
     | AlignHCenter | AlignHFill | AlignHMerge => true
     | _ => false
     end
  = false.

(** A number format whose index is not valid has a format string. *)
Definition numberFits (d : FP.t) : Prop :=
  negb (Format.numFmtIndexValid d) && QString.isEmpty (Format.numberFormat d)
  = false.

(** What a getter returns. *)
Inductive Value : Type :=
  | VInt (z : Z)
  | VBool (b : bool)
  | VString (s : string)
  | VColor (c : QColor.t)
  | VHorizontal (a : HorizontalAlignment)
  | VVertical (a : VerticalAlignment).

(** The getter of an attribute. *)
Definition observe (a : Attr) (d : FP.t) : Value :=
  match a with
  | ANumIndex => VInt (Format.numberFormatIndex d)
  | ANumString => VString (Format.numberFormat d)
  | AFontSize => VInt (Format.fontSize d)
  | AFontItalic => VBool (Format.fontItalic d)
  | AFontStrikeOut => VBool (Format.fontStrikeOut d)
  | AFontColor => VColor (Format.fontColor d)
  | AFontBold => VBool (Format.fontBold d)
  | AFontScript => VInt (Format.fontScript d)
  | AFontUnderline => VInt (Format.fontUnderline d)
  | AFontOutline => VBool (Format.fontOutline d)
  | AFontName => VString (Format.fontName d)
  | AFontIndex => VInt (Format.fontIndex d)
  | AAlignH => VHorizontal (Format.horizontalAlignment d)
  | AAlignV => VVertical (Format.verticalAlignment d)
  | AWrap => VBool (Format.textWrap d)
  | ARotation => VInt (Format.rotation d)
  | AIndent => VInt (Format.indent d)
  | AShrink => VBool (Format.shrinkToFit d)
  | ALeft => VInt (Format.leftBorderStyle d)
  | ALeftColor => VColor (Format.leftBorderColor d)
  | ARight => VInt (Format.rightBorderStyle d)
  | ARightColor => VColor (Format.rightBorderColor d)
  | ATop => VInt (Format.topBorderStyle d)
  | ATopColor => VColor (Format.topBorderColor d)
  | ABottom => VInt (Format.bottomBorderStyle d)
  | ABottomColor => VColor (Format.bottomBorderColor d)
  | ADiagonal => VInt (Format.diagonalBorderStyle d)
  | ADiagonalType => VInt (Format.diagonalBorderType d)
  | ADiagonalColor => VColor (Format.diagonalBorderColor d)
  | ABorderIndex => VInt (Format.borderIndex d)
  | APattern => VInt (Format.fillPattern d)
  | AFgColor => VColor (Format.patternForegroundColor d)
  | ABgColor => VColor (Format.patternBackgroundColor d)
  | AFillIndex => VInt (Format.fillIndex d)
  | AHidden => VBool (Format.hidden d)
  | ALocked => VBool (Format.locked d)
  | AXfIndex => VInt (Format.xfIndex d)
  | ADxfIndex => VInt (Format.dxfIndex d)
  end.

(** The key of the current content: what formatKey() streams when every
    sub-key is computed afresh. *)
Definition contentKey (d : FP.t) : QByteArray :=
  Format.streamKey (FontData.serialize (FP.fontData d))
    (BorderData.serialize (FP.borderData d))
    (FillData.serialize (FP.fillData d)) d.

(** The caches agree with the content: a bundle that is not dirty holds
    the key of its fields, and a format with no dirty flag holds the key
    of its content. *)
Definition coherent (d : FP.t) : Prop :=
  (FontData._dirty (FP.fontData d) = false ->
   FontData._key (FP.fontData d) = FontData.serialize (FP.fontData d))
  /\ (BorderData._dirty (FP.borderData d) = false ->
      BorderData._key (FP.borderData d)
      = BorderData.serialize (FP.borderData d))
  /\ (FillData._dirty (FP.fillData d) = false ->
      FillData._key (FP.fillData d) = FillData.serialize (FP.fillData d))
  /\ (anyDirty d = false -> FP.formatKey d = contentKey d).

(** A call other than setNumFmt. *)
Definition notSetNumFmt (c : Call) : bool :=
  match c with
  | Mutate (SetNumFmt _ _) => false
  | _ => true
  end.

(** An action that keeps the caches coherent: it marks what it changes, or
    it changes nothing that enters a key. *)
Definition marking (a : Action) : Prop :=
  match a with
  | OnNumber mark f =>
      mark = true
      \/ forall r, NumberData.formatIndex (f r) = NumberData.formatIndex r
  | OnFont f =>
      forall r, FontData._dirty (f r) = true
                \/ (FontData._dirty (f r) = FontData._dirty r
                    /\ FontData._key (f r) = FontData._key r
                    /\ FontData.serialize (f r) = FontData.serialize r)
  | OnBorder f =>
      forall r, BorderData._dirty (f r) = true
                \/ (BorderData._dirty (f r) = BorderData._dirty r
                    /\ BorderData._key (f r) = BorderData._key r
                    /\ BorderData.serialize (f r) = BorderData.serialize r)
  | OnFill f =>
      forall r, FillData._dirty (f r) = true
                \/ (FillData._dirty (f r) = FillData._dirty r
                    /\ FillData._key (f r) = FillData._key r
                    /\ FillData.serialize (f r) = FillData.serialize r)
  | _ => True
  end.

(** ** Notions for programs over shared formats *)

(** The object a statement constructs, assigns to, destroys or mutates.
    Key accessors and comparisons are [const] members and have none. *)
Definition target (s : Shared.Stmt) : option nat :=
  match s with
  | Shared.Construct x | Shared.CopyConstruct x _ | Shared.Assign x _
  | Shared.Destroy x | Shared.Mutator_ x _ => Some x
  | Shared.KeyAccess_ _ _ | Shared.Equal _ _ => None
  end.

(** The statement does not write to object [a]. *)
Definition spares (a : nat) (s : Shared.Stmt) : bool :=
  match target s with
  | Some x => negb (Nat.eqb x a)
  | None => true
  end.

(** The statement is a write: it has a target. *)
Definition isWrite (s : Shared.Stmt) : bool :=
  match target s with
  | Some _ => true
  | None => false
  end.

(** Two states with the same content: every query of class Format
    returns the same on both, the attribute getters, the queries derived
    from the attributes and the four keys, apart from the five validity
    queries of the cached indices (fontIndexValid, borderIndexValid,
    fillIndexValid, xfIndexValid, dxfIndexValid), which read the dirty
    flags. *)
Definition sameContent (d' d : FP.t) : Prop :=
  (forall a, observe a d' = observe a d)
  /\ Format.numFmtIndexValid d' = Format.numFmtIndexValid d
  /\ Format.isDateTimeFormat d' = Format.isDateTimeFormat d
  /\ Format.fontFamily d' = Format.fontFamily d
  /\ Format.fontShadow d' = Format.fontShadow d
  /\ Format.fontScheme d' = Format.fontScheme d
  /\ Format.alignmentChanged d' = Format.alignmentChanged d
  /\ Format.horizontalAlignmentString d'
     = Format.horizontalAlignmentString d
  /\ Format.verticalAlignmentString d' = Format.verticalAlignmentString d
  /\ Format.isDxfFormat d' = Format.isDxfFormat d
  /\ Format.theme d' = Format.theme d
  /\ (forall k, (access k d').1 = (access k d).1).

(** The object is constructed and not yet destroyed. *)
Definition live (x : nat) (w : Shared.World) : Prop :=
  is_Some (Shared.objects w !! x).

(** The objects a statement uses are live, and the one it constructs is
    not. *)
Definition scoped (s : Shared.Stmt) (w : Shared.World) : Prop :=
  match s with
  | Shared.Construct x => ~ live x w
  | Shared.CopyConstruct x other => ~ live x w /\ live other w
  | Shared.Assign x other | Shared.Equal x other => live x w /\ live other w
  | Shared.Destroy x | Shared.Mutator_ x _ | Shared.KeyAccess_ x _ =>
      live x w
  end.

(** * Properties *)

(** ** Basic facts about the key accessors *)

Lemma fontKey_fst (d : FP.t) :
  (Format.fontKey d).1 = (FontData.key (FP.fontData d)).1.
Proof.
  unfold Format.fontKey, FontData.key.
  destruct (FontData._dirty (FP.fontData d)) eqn:E; cbn; rewrite E; reflexivity.
Qed.

Lemma borderKey_fst (d : FP.t) :
  (Format.borderKey d).1 = (BorderData.key (FP.borderData d)).1.
Proof.
  unfold Format.borderKey, BorderData.key.
  destruct (BorderData._dirty (FP.borderData d)) eqn:E; cbn; rewrite E;
    reflexivity.
Qed.

Lemma fillKey_fst (d : FP.t) :
  (Format.fillKey d).1 = (FillData.key (FP.fillData d)).1.
Proof.
  unfold Format.fillKey, FillData.key.
  destruct (FillData._dirty (FP.fillData d)) eqn:E; cbn; rewrite E;
    reflexivity.
Qed.

(** Case analysis on the four dirty flags of a state. *)
Ltac flags d :=
  destruct d as [nd [? ? ? ? ? ? ? ? ? ? ? ? ? fdirty ? ? ?] ad
                 [? ? ? ? ? ? ? ? ? ? ? bdirty ? ? ?]
                 [? ? ? ldirty ? ? ?] pd ddirty ? ? ? ? ? ? ?];
  destruct ddirty, fdirty, bdirty, ldirty.

(** Evaluation that leaves the serialisation of the fields folded. *)
Ltac key_cbv :=
  cbv -[QDataStream.put_bytes QDataStream.put_i32 QDataStream.put_bool
        QDataStream.put_u8 QDataStream.put_u16 QDataStream.put_string
        QColor.put app].

(** The three sub-key accessors do not interfere: each returns the same
    key whichever of the others ran before it. *)
Lemma subkeys_independent (d : FP.t) :
  (Format.borderKey (Format.fontKey d).2).1 = (Format.borderKey d).1
  /\ (Format.fillKey (Format.borderKey (Format.fontKey d).2).2).1
     = (Format.fillKey d).1
  /\ (Format.fontKey (Format.borderKey d).2).1 = (Format.fontKey d).1
  /\ (Format.fontKey (Format.fillKey d).2).1 = (Format.fontKey d).1
  /\ (Format.borderKey (Format.fillKey d).2).1 = (Format.borderKey d).1.
Proof. flags d; key_cbv; repeat split; reflexivity. Qed.

(** After formatKey() no dirty flag is set. *)
Lemma formatKey_clean (d : FP.t) : anyDirty (Format.formatKey d).2 = false.
Proof. flags d; key_cbv; reflexivity. Qed.

Lemma formatKey_dirty_clear (d : FP.t) : FP.dirty (Format.formatKey d).2 = false.
Proof. flags d; key_cbv; reflexivity. Qed.

(** formatKey() returns what it leaves in the cache. *)
Lemma formatKey_cached (d : FP.t) :
  FP.formatKey (Format.formatKey d).2 = (Format.formatKey d).1.
Proof. flags d; key_cbv; reflexivity. Qed.

(** A second formatKey() returns the same key and changes nothing. *)
Lemma formatKey_idempotent (d : FP.t) :
  Format.formatKey (Format.formatKey d).2
  = ((Format.formatKey d).1, (Format.formatKey d).2).
Proof. flags d; key_cbv; reflexivity. Qed.

(** formatKey() changes caches and flags only: every attribute bundle keeps
    its content, and the getters read the same values. *)
Lemma formatKey_attributes (d : FP.t) :
  let d' := (Format.formatKey d).2 in
  FP.numberData d' = FP.numberData d
  /\ FP.alignmentData d' = FP.alignmentData d
  /\ FP.protectionData d' = FP.protectionData d
  /\ FontData.serialize (FP.fontData d') = FontData.serialize (FP.fontData d)
  /\ BorderData.serialize (FP.borderData d')
     = BorderData.serialize (FP.borderData d)
  /\ FillData.serialize (FP.fillData d') = FillData.serialize (FP.fillData d).
Proof. flags d; key_cbv; repeat split; reflexivity. Qed.

(** formatKey() on a state with a dirty flag leaves both format indices
    invalid. *)
Lemma formatKey_discards (d : FP.t) :
  anyDirty d = true ->
  Format.xfIndexValid (Format.formatKey d).2 = false
  /\ Format.dxfIndexValid (Format.formatKey d).2 = false.
Proof.
  intros H. flags d; try discriminate H; key_cbv; split; reflexivity.
Qed.

(** ** C9: setNumberFormat with an empty string *)

(** C9.  setNumberFormat("") changes nothing: the FormatPrivate behind the
    handle is the very same value afterwards (format string, format index,
    validity flag, dirty flags and all other members), and in the store of
    shared states nothing moves either: no detach, no clone, no reference
    count changes. *)
Theorem C9_setNumberFormat_empty_noop (d : FP.t) (x : nat) (w : Shared.World) :
  Format.setNumberFormat "" d = d
  /\ call (SetNumberFormat "") d = d
  /\ (is_Some (Shared.objects w !! x) ->
      Shared.mutate x (SetNumberFormat "") w = Some w).
Proof.
  split; [reflexivity | split; [reflexivity |]].
  intros [l Hl]. unfold Shared.mutate. cbn. rewrite Hl. reflexivity.
Qed.

(** ** C7: setHorizontalAlignment and the indent *)

(** C7.  On a format whose indent is not 0, setHorizontalAlignment(align)
    leaves the indent at 0 when align is not one of general, left, right,
    distributed, and leaves the indent as it was when align is one of
    them; in both cases align is the alignment stored. *)
Theorem C7_setHorizontalAlignment_indent
  (d : FP.t) (align : HorizontalAlignment) :
  Format.indent d <> 0 ->
  let d' := Format.setHorizontalAlignment align d in
  (align ∉ [AlignHGeneral; AlignLeft; AlignRight; AlignHDistributed] ->
     Format.indent d' = 0)
  /\ (align ∈ [AlignHGeneral; AlignLeft; AlignRight; AlignHDistributed] ->
     Format.indent d' = Format.indent d)
  /\ Format.horizontalAlignment d' = align.
Proof.
  intros Hind d'. subst d'.
  unfold Format.setHorizontalAlignment, Format.indent, Format.horizontalAlignment.
  apply Z.eqb_neq in Hind. unfold Format.indent in Hind. rewrite Hind.
  destruct d as [nd fd [aH aV ind rot wr sh] bd ld pd ? ? ? ? ? ? ? ?].
  cbn in *.
  split; [| split].
  - intros Hnot.
    destruct align; cbn;
      try (exfalso; apply Hnot; repeat constructor; fail);
      destruct sh; reflexivity.
  - intros Hin.
    destruct align; cbn;
      try (exfalso;
           repeat (apply elem_of_cons in Hin as [Hin | Hin];
                   [discriminate Hin |]);
           apply elem_of_nil in Hin; exact Hin);
      destruct sh; reflexivity.
  - destruct align, sh; reflexivity.
Qed.

(** Indent 3 on a fresh format, then alignment fill, then alignment
    right. *)
Lemma C7_witness :
  Format.indent (Format.setIndent 3 FP.new) <> 0
  /\ Format.indent
       (Format.setHorizontalAlignment AlignHFill (Format.setIndent 3 FP.new))
     = 0
  /\ Format.indent
       (Format.setHorizontalAlignment AlignRight (Format.setIndent 3 FP.new))
     = 3.
Proof.
  assert (H : Format.indent (Format.setIndent 3 FP.new) <> 0)
    by (vm_compute; discriminate).
  split; [exact H | split].
  - apply (C7_setHorizontalAlignment_indent _ AlignHFill H).
    intros Hin.
    repeat (apply elem_of_cons in Hin as [Hin | Hin]; [discriminate Hin |]).
    apply elem_of_nil in Hin; exact Hin.
  - apply (C7_setHorizontalAlignment_indent _ AlignRight H).
    repeat constructor.
Defined.

(** ** C10: formatKey() drops the cached format indices *)

(** C10.  When formatKey() is called with some dirty flag set (of the
    whole format or of the font, border or fill bundle), xfIndexValid()
    and dxfIndexValid() are false afterwards; also when setXfIndex and
    setDxfIndex were called just before that formatKey(). *)
Theorem C10_formatKey_discards_indices (d : FP.t) (i j : Z) :
  anyDirty d = true ->
  (Format.xfIndexValid (Format.formatKey d).2 = false
   /\ Format.dxfIndexValid (Format.formatKey d).2 = false)
  /\ (let d1 := Format.setDxfIndex j (Format.setXfIndex i d) in
      Format.xfIndexValid (Format.formatKey d1).2 = false
      /\ Format.dxfIndexValid (Format.formatKey d1).2 = false).
Proof.
  intros H. split; [apply formatKey_discards, H |].
  apply formatKey_discards. flags d; try discriminate H; reflexivity.
Qed.

(** A fresh format after setFontSize(12), with both indices set just
    before formatKey(). *)
Lemma C10_witness :
  anyDirty (Format.setFontSize 12 FP.new) = true
  /\ Format.xfIndexValid
       (Format.formatKey
          (Format.setDxfIndex 4 (Format.setXfIndex 5
             (Format.setFontSize 12 FP.new)))).2 = false.
Proof.
  split; [reflexivity |].
  apply (C10_formatKey_discards_indices (Format.setFontSize 12 FP.new) 5 4).
  reflexivity.
Defined.

(** ** C4: what formatKey() computes, and when *)

(** C4.  formatKey() recomputes the key exactly when the dirty flag of the
    whole format or of the font, border or fill bundle is set.  The key it
    then returns, and caches, is the stream of: the font sub-key, the
    border sub-key, the fill sub-key, the number format index, the
    horizontal alignment, the vertical alignment, the indent, the
    rotation, the shrink-to-fit flag, the word-wrap flag, the hidden flag
    and the locked flag, in this order and whatever key was cached before.
    With no dirty flag set it returns the cached key and changes
    nothing. *)
Theorem C4_formatKey_recomputation (d : FP.t) :
  if FP.dirty d || FontData._dirty (FP.fontData d)
     || BorderData._dirty (FP.borderData d)
     || FillData._dirty (FP.fillData d)
  then
    (Format.formatKey d).1
    = QDataStream.put_bytes (Format.fontKey d).1
      ++ QDataStream.put_bytes (Format.borderKey d).1
      ++ QDataStream.put_bytes (Format.fillKey d).1
      ++ QDataStream.put_i32 (Format.numberFormatIndex d)
      ++ QDataStream.put_i32
           (HorizontalAlignment_value (Format.horizontalAlignment d))
      ++ QDataStream.put_i32
           (VerticalAlignment_value (Format.verticalAlignment d))
      ++ QDataStream.put_i32 (Format.indent d)
      ++ QDataStream.put_i32 (Format.rotation d)
      ++ QDataStream.put_bool (Format.shrinkToFit d)
      ++ QDataStream.put_bool (Format.textWrap d)
      ++ QDataStream.put_bool (Format.hidden d)
      ++ QDataStream.put_bool (Format.locked d)
    /\ FP.formatKey (Format.formatKey d).2 = (Format.formatKey d).1
  else Format.formatKey d = (FP.formatKey d, d).
Proof.
  flags d; key_cbv; try split; reflexivity.
Qed.

(** The sub-keys that enter the key are the bundles' own: recomputed from
    the fields when the bundle is dirty, the bundle's cached key if not. *)
Lemma subkey_of_bundle (d : FP.t) :
  (Format.fontKey d).1
  = (if FontData._dirty (FP.fontData d)
     then FontData.serialize (FP.fontData d)
     else FontData._key (FP.fontData d))
  /\ (Format.borderKey d).1
     = (if BorderData._dirty (FP.borderData d)
        then BorderData.serialize (FP.borderData d)
        else BorderData._key (FP.borderData d))
  /\ (Format.fillKey d).1
     = (if FillData._dirty (FP.fillData d)
        then FillData.serialize (FP.fillData d)
        else FillData._key (FP.fillData d)).
Proof. flags d; key_cbv; repeat split; reflexivity. Qed.

(** ** C8: isDateTimeFormat *)

Lemma contains_dmhys_spec (s : string) :
  QString.contains_dmhys s = true
  <-> exists c, c ∈ ["d"; "m"; "h"; "y"; "s"]%char
                /\ c ∈ String.list_ascii_of_string s.
Proof.
  induction s as [| a s IH]; cbn.
  - split; [discriminate |]. intros (c & _ & Hc). inversion Hc.
  - rewrite orb_true_iff, IH. split.
    + intros [Ha | (c & Hc & Hin)].
      * exists a. split; [| left].
        unfold QString.is_dmhys in Ha.
        rewrite !orb_true_iff, !Ascii.eqb_eq in Ha.
        destruct Ha as [[[[-> | ->] | ->] | ->] | ->]; repeat constructor.
      * exists c. split; [exact Hc | right; exact Hin].
    + intros (c & Hc & Hin).
      apply elem_of_cons in Hin as [-> | Hin].
      * left.
        repeat (apply elem_of_cons in Hc as [-> | Hc]; [reflexivity |]).
        inversion Hc.
      * right. exists c. split; assumption.
Qed.

(** A colour token at the head of the subject is cut out, and the scan
    goes on behind it. *)
Lemma removeColorTokens_token (tok s : string) :
  tok ∈ QString.colorTokens ->
  QString.removeColorTokens (tok +:+ s)
  = QString.removeColorTokens s.
Proof.
  intros H. unfold QString.colorTokens in H.
  repeat (apply elem_of_cons in H as [-> | H]; [reflexivity |]).
  inversion H.
Qed.

(** A character at which no colour token starts is kept. *)
Lemma removeColorTokens_other (c : ascii) (s : string) :
  QString.matchAt (String c s) = None ->
  QString.removeColorTokens (String c s)
  = String c (QString.removeColorTokens s).
Proof.
  intros H. unfold QString.removeColorTokens. cbn [QString.removeFrom].
  rewrite H. reflexivity.
Qed.

(** No colour token starts at a character other than an opening
    bracket. *)
Lemma matchAt_no_bracket (c : ascii) (s : string) :
  c <> "["%char -> QString.matchAt (String c s) = None.
Proof.
  intros H.
  assert (E : Ascii.eqb "[" c = false) by (apply Ascii.eqb_neq; congruence).
  unfold QString.matchAt, QString.colorTokens.
  cbn [List.find QString.startsWith].
  rewrite E. reflexivity.
Qed.

(** *** The scan removes the occurrences of the tokens, and nothing else *)

Lemma list_ascii_app (s t : string) :
  String.list_ascii_of_string (s +:+ t)
  = String.list_ascii_of_string s ++ String.list_ascii_of_string t.
Proof.
  induction s as [| a s IH]; [reflexivity |].
  change (a :: String.list_ascii_of_string (s +:+ t)
          = a :: (String.list_ascii_of_string s
                  ++ String.list_ascii_of_string t)).
  rewrite IH. reflexivity.
Qed.

Lemma startsWith_app (tok s : string) :
  QString.startsWith tok s = true <-> exists post, s = tok +:+ post.
Proof.
  revert s. induction tok as [| a tok IH]; intros s;
    cbn [QString.startsWith].
  - split; [intros _; exists s; reflexivity | reflexivity].
  - destruct s as [| b s].
    + split; [discriminate | intros [post H]; discriminate H].
    + rewrite andb_true_iff, Ascii.eqb_eq, IH. split.
      * intros [-> [post ->]]. exists post. reflexivity.
      * intros [post H]. cbn in H. injection H as -> ->. eauto.
Qed.

Lemma startsWith_take (tok s : string) :
  QString.startsWith tok s = true
  <-> take (length (String.list_ascii_of_string tok))
        (String.list_ascii_of_string s)
      = String.list_ascii_of_string tok.
Proof.
  revert s. induction tok as [| a tok IH]; intros s;
    cbn [QString.startsWith String.list_ascii_of_string length].
  - split; reflexivity.
  - destruct s as [| b s]; cbn [String.list_ascii_of_string take].
    + split; discriminate.
    + rewrite andb_true_iff, Ascii.eqb_eq, IH. split.
      * intros [-> H]. rewrite H. reflexivity.
      * intros H. injection H as -> H. auto.
Qed.

Ltac head_token s tok name :=
  let E := fresh "E" in
  let post := fresh "post" in
  destruct (QString.startsWith tok s) eqn:E;
  [ apply startsWith_app in E as [post E];
    cbv beta iota delta [fmap option_fmap option_map];
    exists tok, post, name;
    split; [repeat constructor |];
    split; [exact E |];
    split; [repeat constructor |];
    split; reflexivity
  | ].

(** What the regular expression finds at the head of the subject: the
    token of one of the colour names, or none of them. *)
Lemma matchAt_spec (s : string) :
  match QString.matchAt s with
  | Some n =>
      exists tok post name,
        tok ∈ QString.colorTokens /\ s = tok +:+ post
        /\ name ∈ DateSpec.colorNames
        /\ String.list_ascii_of_string tok = DateSpec.token name
        /\ n = length (DateSpec.token name)
  | None =>
      forall name, name ∈ DateSpec.colorNames ->
        take (length (DateSpec.token name)) (String.list_ascii_of_string s)
        <> DateSpec.token name
  end.
Proof.
  unfold QString.matchAt, QString.colorTokens. cbn [List.find].
  head_token s "[Green]"%string "Green"%string.
  head_token s "[White]"%string "White"%string.
  head_token s "[Blue]"%string "Blue"%string.
  head_token s "[Magenta]"%string "Magenta"%string.
  head_token s "[Yellow]"%string "Yellow"%string.
  head_token s "[Cyan]"%string "Cyan"%string.
  head_token s "[Red]"%string "Red"%string.
  cbv beta iota delta [fmap option_fmap option_map].
  intros name Hin. unfold DateSpec.colorNames in Hin.
  repeat (apply elem_of_cons in Hin as [-> | Hin];
          [ intros H; apply (proj2 (startsWith_take _ s)) in H;
            match goal with
            | E : QString.startsWith ?t s = false |- _ =>
                change (QString.startsWith t s = true) in H; congruence
            end |]).
  inversion Hin.
Qed.

Lemma length_append (s t : string) :
  String.length (s +:+ t) = (String.length s + String.length t)%nat.
Proof.
  induction s as [| a s IH]; [reflexivity |].
  change (S (String.length (s +:+ t))
          = S (String.length s + String.length t)).
  rewrite IH. reflexivity.
Qed.

(** [DateSpec.inToken], as a proposition. *)
Lemma inToken_spec (l : list ascii) (i : nat) :
  DateSpec.inToken l i = true
  <-> exists name j,
        name ∈ DateSpec.colorNames
        /\ (j <= i < j + length (DateSpec.token name))%nat
        /\ take (length (DateSpec.token name)) (drop j l)
           = DateSpec.token name.
Proof.
  unfold DateSpec.inToken, DateSpec.occursAt.
  rewrite existsb_exists. split.
  - intros (name & Hin & H). apply existsb_exists in H as (j & Hj & H).
    apply andb_true_iff in H as [H1 H2].
    apply bool_decide_eq_true in H1. apply Nat.ltb_lt in H2.
    apply in_seq in Hj. exists name, j.
    split; [apply list_elem_of_In; exact Hin |].
    split; [lia | exact H1].
  - intros (name & j & Hin & Hj & H). exists name.
    split; [apply list_elem_of_In; exact Hin |].
    apply existsb_exists. exists j. split; [apply in_seq; lia |].
    apply andb_true_iff.
    split; [apply bool_decide_eq_true; exact H | apply Nat.ltb_lt; lia].
Qed.

(** The shape of the tokens: an opening bracket at the head and nowhere
    else, and a different letter behind it for each colour. *)
Lemma token_head (name : string) :
  name ∈ DateSpec.colorNames -> DateSpec.token name !! 0%nat = Some "["%char.
Proof.
  intros Hin. unfold DateSpec.colorNames in Hin.
  repeat (apply elem_of_cons in Hin as [-> | Hin]; [reflexivity |]).
  inversion Hin.
Qed.

Lemma token_inner (name : string) (j : nat) :
  name ∈ DateSpec.colorNames -> (0 < j)%nat ->
  DateSpec.token name !! j <> Some "["%char.
Proof.
  intros Hin Hj. unfold DateSpec.colorNames in Hin.
  destruct j as [| [| [| [| [| [| [| [| [| [| j]]]]]]]]]]; [lia | ..];
    repeat (apply elem_of_cons in Hin as [-> | Hin]; [discriminate |]);
    inversion Hin.
Qed.

Lemma token_second (name name' : string) :
  name ∈ DateSpec.colorNames -> name' ∈ DateSpec.colorNames ->
  DateSpec.token name !! 1%nat = DateSpec.token name' !! 1%nat ->
  name = name'.
Proof.
  intros Hin Hin' H. unfold DateSpec.colorNames in Hin, Hin'.
  repeat (apply elem_of_cons in Hin as [-> | Hin];
          [repeat (apply elem_of_cons in Hin' as [-> | Hin'];
                   [first [reflexivity | discriminate H] |]);
           inversion Hin' |]).
  inversion Hin.
Qed.

Lemma token_long (name : string) :
  name ∈ DateSpec.colorNames -> (2 <= length (DateSpec.token name))%nat.
Proof.
  intros Hin. unfold DateSpec.colorNames in Hin.
  repeat (apply elem_of_cons in Hin as [-> | Hin];
          [apply Nat.leb_le; reflexivity |]).
  inversion Hin.
Qed.

(** The characters of an occurrence. *)
Lemma occurs_lookup (l t : list ascii) (j k : nat) :
  take (length t) (drop j l) = t -> (k < length t)%nat ->
  l !! (j + k)%nat = t !! k.
Proof.
  intros H Hk. rewrite <- lookup_drop.
  rewrite <- (lookup_take_lt _ (length t)) by exact Hk.
  rewrite H. reflexivity.
Qed.

(** Where no token starts at the head, the head lies in no token, and the
    tokens of the rest are those of the whole. *)
Lemma inToken_head_none (a : ascii) (r : list ascii) :
  (forall name, name ∈ DateSpec.colorNames ->
     take (length (DateSpec.token name)) (a :: r) <> DateSpec.token name) ->
  DateSpec.inToken (a :: r) 0 = false.
Proof.
  intros Hnone. apply not_true_iff_false. intros H.
  apply inToken_spec in H as (name & j & Hin & Hj & H).
  assert (j = 0%nat) by lia. subst j. exact (Hnone name Hin H).
Qed.

Lemma inToken_tail_none (a : ascii) (r : list ascii) (k : nat) :
  (forall name, name ∈ DateSpec.colorNames ->
     take (length (DateSpec.token name)) (a :: r) <> DateSpec.token name) ->
  DateSpec.inToken (a :: r) (S k) = DateSpec.inToken r k.
Proof.
  intros Hnone. apply eq_true_iff_eq. rewrite !inToken_spec. split.
  - intros (name & j & Hin & Hj & H).
    destruct j as [| j]; [exfalso; exact (Hnone name Hin H) |].
    exists name, j. split; [exact Hin |]. split; [lia | exact H].
  - intros (name & j & Hin & Hj & H).
    exists name, (S j). split; [exact Hin |]. split; [lia | exact H].
Qed.

(** Where a token starts at the head, its characters lie in a token, and
    the tokens behind it are those of the rest: occurrences of tokens do
    not overlap. *)
Lemma inToken_in_head (name : string) (p : list ascii) (k : nat) :
  name ∈ DateSpec.colorNames ->
  (k < length (DateSpec.token name))%nat ->
  DateSpec.inToken (DateSpec.token name ++ p) k = true.
Proof.
  intros Hin Hk. apply inToken_spec. exists name, 0%nat.
  split; [exact Hin |]. split; [lia |]. apply take_app_length.
Qed.

Lemma inToken_behind (name : string) (p : list ascii) (k : nat) :
  name ∈ DateSpec.colorNames ->
  DateSpec.inToken (DateSpec.token name ++ p)
    (length (DateSpec.token name) + k)
  = DateSpec.inToken p k.
Proof.
  intros Hin. set (t := DateSpec.token name).
  apply eq_true_iff_eq. rewrite !inToken_spec. split.
  - intros (name' & j & Hin' & Hj & H).
    destruct (decide (length t <= j)%nat) as [Hge | Hlt].
    + exists name', (j - length t)%nat. split; [exact Hin' |].
      split; [lia |].
      replace j with (length t + (j - length t))%nat in H by lia.
      rewrite drop_app_add in H. exact H.
    + exfalso. pose proof (token_long name Hin) as Hl.
      pose proof (token_long name' Hin') as Hl'. fold t in Hl.
      destruct (decide (j = 0%nat)) as [-> | Hj0].
      * assert (E : name = name').
        { apply (token_second name name' Hin Hin').
          transitivity ((t ++ p) !! (0 + 1)%nat).
          - symmetry. apply (occurs_lookup (t ++ p) t 0 1);
              [apply take_app_length | lia].
          - apply (occurs_lookup (t ++ p) (DateSpec.token name') 0 1 H).
            lia. }
        subst name'. fold t in Hj. lia.
      * pose proof (occurs_lookup (t ++ p) (DateSpec.token name') j 0 H
                      ltac:(lia)) as H0.
        rewrite Nat.add_0_r, token_head in H0 by first [lia | exact Hin'].
        rewrite lookup_app_l in H0 by lia.
        exact (token_inner name j Hin ltac:(lia) H0).
  - intros (name' & j & Hin' & Hj & H).
    exists name', (length t + j)%nat. split; [exact Hin' |].
    split; [lia |]. rewrite drop_app_add. exact H.
Qed.

Lemma outside_ext (w1 w2 : list ascii) (i1 i2 : nat) (l : list ascii) :
  (forall k, (k < length l)%nat ->
     DateSpec.inToken w1 (i1 + k) = DateSpec.inToken w2 (i2 + k)) ->
  DateSpec.outside w1 i1 l = DateSpec.outside w2 i2 l.
Proof.
  revert i1 i2. induction l as [| c l IH]; intros i1 i2 H;
    cbn [DateSpec.outside]; [reflexivity |].
  pose proof (H 0%nat ltac:(cbn; lia)) as H0.
  rewrite !Nat.add_0_r in H0. rewrite H0.
  rewrite (IH (S i1) (S i2)); [reflexivity |].
  intros k Hk. specialize (H (S k) ltac:(cbn; lia)).
  rewrite !Nat.add_succ_r in H. exact H.
Qed.

Lemma outside_marked (w : list ascii) (i : nat) (p q : list ascii) :
  (forall k, (k < length p)%nat -> DateSpec.inToken w (i + k) = true) ->
  DateSpec.outside w i (p ++ q) = DateSpec.outside w (i + length p) q.
Proof.
  revert i. induction p as [| c p IH]; intros i H.
  - cbn. rewrite Nat.add_0_r. reflexivity.
  - cbn [app DateSpec.outside length].
    pose proof (H 0%nat ltac:(cbn; lia)) as H0.
    rewrite Nat.add_0_r in H0. rewrite H0.
    rewrite IH.
    + f_equal. lia.
    + intros k Hk. specialize (H (S k) ltac:(cbn; lia)).
      rewrite Nat.add_succ_r in H. exact H.
Qed.

(** The refinement: what the scan of QString::remove leaves is the
    format string without the characters that lie in an occurrence of a
    colour token. *)
Lemma removeColorTokens_spec (s : string) :
  String.list_ascii_of_string (QString.removeColorTokens s)
  = DateSpec.withoutColorTokens s.
Proof.
  remember (String.length s) as n eqn:En. revert s En.
  induction n as [n IH] using lt_wf_ind. intros s ->.
  destruct s as [| a rest]; [reflexivity |].
  pose proof (matchAt_spec (String a rest)) as M.
  destruct (QString.matchAt (String a rest)) as [n |] eqn:E.
  - destruct M as (tok & post & name & Htok & Hs & Hname & HT & Hn).
    rewrite Hs. rewrite removeColorTokens_token by exact Htok.
    assert (Hlen : (String.length post < String.length (String a rest))%nat).
    { rewrite Hs, length_append.
      assert (String.length tok = length (String.list_ascii_of_string tok))
        as -> by (clear; induction tok; cbn; congruence).
      rewrite HT. pose proof (token_long name Hname). lia. }
    rewrite (IH (String.length post) Hlen post eq_refl).
    unfold DateSpec.withoutColorTokens. cbv zeta.
    rewrite list_ascii_app, HT.
    rewrite (outside_marked _ 0)
      by (intros k Hk; apply inToken_in_head; assumption).
    apply outside_ext. intros k _. symmetry.
    apply (inToken_behind name _ k Hname).
  - rewrite removeColorTokens_other by exact E.
    cbn [String.list_ascii_of_string].
    rewrite (IH (String.length rest) ltac:(cbn; lia) rest eq_refl).
    unfold DateSpec.withoutColorTokens. cbv zeta.
    cbn [String.list_ascii_of_string DateSpec.outside].
    rewrite inToken_head_none by exact M. f_equal.
    apply outside_ext. intros k _. symmetry.
    apply (inToken_tail_none a _ k M).
Qed.

(** The test on the format string, in the words of the specification. *)
Lemma date_by_string (s : string) :
  QString.contains_dmhys (QString.removeColorTokens s) = true
  <-> exists c, c ∈ ["d"; "m"; "h"; "y"; "s"]%char
                /\ c ∈ DateSpec.withoutColorTokens s.
Proof. rewrite contains_dmhys_spec, removeColorTokens_spec. reflexivity. Qed.

(** C8.  isDateTimeFormat(): when the number format index is valid and
    the format string is empty, the result is true exactly when the index
    lies in 15..22 or in 45..47.  In every other case the result is true
    exactly when the format string, with every occurrence of the colour
    tokens [Green], [White], [Blue], [Magenta], [Yellow], [Cyan] and
    [Red] removed, holds one of the characters d, m, h, y, s (lower case
    only).  The occurrences are those in the format string itself: what
    their removal leaves is not searched again. *)
Theorem C8_isDateTimeFormat (d : FP.t) :
  let idx := Format.numberFormatIndex d in
  if Format.numFmtIndexValid d
     && bool_decide (Format.numberFormat d = ""%string)
  then Format.isDateTimeFormat d = true
       <-> (15 <= idx <= 22 \/ 45 <= idx <= 47)
  else Format.isDateTimeFormat d = true
       <-> exists c,
             c ∈ ["d"; "m"; "h"; "y"; "s"]%char
             /\ c ∈ DateSpec.withoutColorTokens (Format.numberFormat d).
Proof.
  unfold Format.isDateTimeFormat, Format.numFmtIndexValid,
    Format.numberFormat, Format.numberFormatIndex.
  destruct (FP.numberData d) as [idx str valid]. cbn [NumberData._valid
    NumberData.formatString NumberData.formatIndex].
  assert (Hempty : QString.isEmpty str
                   = bool_decide (str = ""%string)).
  { destruct str; reflexivity. }
  rewrite Hempty.
  destruct (valid && bool_decide (str = ""%string)).
  - destruct (((15 <=? idx) && (idx <=? 22)) || ((45 <=? idx) && (idx <=? 47)))
      eqn:E.
    + split; [intros _ | reflexivity].
      apply orb_true_iff in E as [E | E];
        apply andb_true_iff in E as [E1 E2]; lia.
    + split; [discriminate |]. intros H. exfalso.
      apply orb_false_iff in E as [E1 E2].
      apply andb_false_iff in E1, E2. lia.
  - rewrite <- date_by_string.
    destruct (QString.contains_dmhys _); split; auto.
Qed.

(** What is removed: the tokens of the seven colours, wherever they
    occur; not a bracketed word that is no colour of the set, and not a
    token that only the removal of another one puts together. *)
Example withoutColorTokens_examples :
  DateSpec.withoutColorTokens "[Red]yyyy-mm-dd"
  = String.list_ascii_of_string "yyyy-mm-dd"
  /\ DateSpec.withoutColorTokens "0.00[Green];[Cyan][Blue]-0"
     = String.list_ascii_of_string "0.00;-0"
  /\ DateSpec.withoutColorTokens "[Black]0[red]"
     = String.list_ascii_of_string "[Black]0[red]"
  /\ DateSpec.withoutColorTokens "[R[Red]ed]0"
     = String.list_ascii_of_string "[Red]0"
  /\ Format.isDateTimeFormat (Format.setNumberFormat "[Red]0.00" FP.new)
     = false
  /\ Format.isDateTimeFormat (Format.setNumberFormat "[R[Red]ed]0" FP.new)
     = true.
Proof. vm_compute. repeat split; reflexivity. Qed.

(** The examples of the specification. *)
Example isDateTimeFormat_examples :
  Format.isDateTimeFormat (Format.setNumberFormatIndex 16 FP.new) = true
  /\ Format.isDateTimeFormat (Format.setNumberFormatIndex 14 FP.new) = false
  /\ Format.isDateTimeFormat (Format.setNumberFormat "[Red]yyyy-mm-dd" FP.new)
     = true
  /\ Format.isDateTimeFormat (Format.setNumberFormat "0.00%" FP.new) = false
  /\ Format.isDateTimeFormat (Format.setNumberFormat "[Cyan]0.00" FP.new)
     = false
  /\ Format.isDateTimeFormat (Format.setNumberFormat "[cyan]0.00" FP.new)
     = true
  /\ Format.isDateTimeFormat (Format.setNumberFormat "D-M-Y" FP.new) = false.
Proof. vm_compute. repeat split; reflexivity. Qed.

(** ** C6: word wrap and shrink-to-fit exclude each other *)

(** A state split into its members, the alignment into its fields. *)
Ltac fields d :=
  destruct d as [nd fd [aH aV ind rot wr sh] bd ld pd ddirty fkey
                 xfi xfv isdxf dxfi dxfv th].

(** What a call does to the alignment: the key accessors and the mutators
    of the other bundles leave it alone. *)
Lemma access_alignment (k : KeyAccess) (d : FP.t) :
  FP.alignmentData (access k d).2 = FP.alignmentData d.
Proof. destruct k; flags d; reflexivity. Qed.

(** Unfold a call on a state given by its fields and decide the tests of
    the setters. *)
Ltac setter_eval := cbv -[Z.eqb QColor.isValid QString.isEmpty].

Ltac setter_cases :=
  setter_eval;
  repeat (match goal with
          | |- context [if ?b then _ else _] => is_var b; destruct b
          | |- context [match ?a with AlignHGeneral => _ | _ => _ end] =>
              is_var a; destruct a
          | |- context [Z.eqb ?x ?y] => destruct (Z.eqb x y) eqn:?
          | |- context [QColor.isValid ?c] => destruct (QColor.isValid c) eqn:?
          | |- context [QString.isEmpty ?f] =>
              destruct (QString.isEmpty f) eqn:?
          end; setter_eval).

Lemma step_exclusive (c : Call) (d : FP.t) :
  exclusive d -> exclusive (step c d).
Proof.
  unfold exclusive, Format.textWrap, Format.shrinkToFit.
  destruct c as [m | k].
  - fields d. destruct m; setter_cases; intros H;
      try reflexivity; try exact H; congruence.
  - cbn [step]. rewrite access_alignment. auto.
Qed.

Lemma run_exclusive (cs : list Call) (d : FP.t) :
  exclusive d -> exclusive (run cs d).
Proof.
  revert d. induction cs as [| c cs IH]; intros d H; [exact H |].
  cbn. apply IH, step_exclusive, H.
Qed.

(** C6.  In every state reached from the default-constructed format by
    calls of its members, textWrap() and shrinkToFit() are not both true;
    the same holds from any start state in which they are not both true.
    setTextWarp(true) leaves shrink-to-fit off, setShrinkToFit(true)
    leaves word wrap off, and no call other than setTextWarp(true) turns
    word wrap on, none other than setShrinkToFit(true) turns shrink-to-fit
    on. *)
Theorem C6_wrap_shrink_exclusive (cs : list Call) (d : FP.t) (c : Call) :
  Format.textWrap (run cs FP.new) && Format.shrinkToFit (run cs FP.new)
  = false
  /\ (Format.textWrap d && Format.shrinkToFit d = false ->
      Format.textWrap (run cs d) && Format.shrinkToFit (run cs d) = false)
  /\ Format.shrinkToFit (Format.setTextWarp true d) = false
  /\ Format.textWrap (Format.setShrinkToFit true d) = false
  /\ (c <> Mutate (SetTextWarp true) ->
      Format.textWrap (step c d) = true -> Format.textWrap d = true)
  /\ (c <> Mutate (SetShrinkToFit true) ->
      Format.shrinkToFit (step c d) = true -> Format.shrinkToFit d = true).
Proof.
  split; [apply (run_exclusive cs FP.new); reflexivity |].
  split; [apply (run_exclusive cs d) |].
  split; [fields d; setter_cases; reflexivity |].
  split; [fields d; setter_cases; reflexivity |].
  unfold Format.textWrap, Format.shrinkToFit.
  split; intros Hc; (destruct c as [m | k];
    [| cbn [step]; rewrite access_alignment; auto]);
    fields d; destruct m; try (exfalso; apply Hc; reflexivity);
    setter_cases; intros H; try exact H; congruence.
Qed.

(** From a format with shrink-to-fit on: a call sequence, and a call that
    is not setTextWarp(true). *)
Lemma C6_witness :
  let d := Format.setShrinkToFit true FP.new in
  let cs := [Mutate (SetTextWarp true); Access FormatKey;
             Mutate (SetHorizontalAlignment AlignHFill)] in
  (Format.textWrap d && Format.shrinkToFit d = false
   /\ Format.textWrap (run cs d) && Format.shrinkToFit (run cs d) = false)
  /\ (Format.textWrap (step (Mutate (SetHorizontalAlignment AlignHFill)) d)
      = true -> Format.textWrap d = true).
Proof.
  intros d cs.
  pose proof (C6_wrap_shrink_exclusive cs d
                (Mutate (SetHorizontalAlignment AlignHFill)))
    as (_ & Hrun & _ & _ & Hwrap & _).
  assert (Hd : Format.textWrap d && Format.shrinkToFit d = false)
    by reflexivity.
  split; [exact (conj Hd (Hrun Hd)) |].
  apply Hwrap. discriminate.
Defined.

(** ** C1: validity of the cached format indices *)

(** A mutator that marks the whole format sets its dirty flag. *)
Lemma marks_format_dirty (m : Mutator) (d : FP.t) :
  marks m = MarksFormat -> FP.dirty (call m d) = true.
Proof.
  destruct m; cbn [marks]; intros H; try discriminate H; try reflexivity.
  destruct format; [discriminate H | reflexivity].
Qed.

(** A mutator that marks its bundle leaves some dirty flag set. *)
Lemma marks_bundle_dirty (m : Mutator) (d : FP.t) :
  marks m = MarksBundle -> anyDirty (call m d) = true.
Proof.
  destruct m; cbn [marks]; intros H; try discriminate H;
    try (flags d; reflexivity).
  - destruct format; discriminate H.
  - unfold anyDirty, call, Format.setPatternForegroundColor.
    match goal with |- context [if ?b then _ else _] => destruct b end;
      cbn; rewrite ?orb_true_r; reflexivity.
  - unfold anyDirty, call, Format.setPatternBackgroundColor.
    match goal with |- context [if ?b then _ else _] => destruct b end;
      cbn; rewrite ?orb_true_r; reflexivity.
Qed.

(** No mutator clears the dirty flag of the whole format. *)
Lemma call_keeps_dirty (m : Mutator) (d : FP.t) :
  FP.dirty d = true -> FP.dirty (call m d) = true.
Proof.
  intros H. destruct m; try exact H; try reflexivity;
    unfold call, Format.setNumberFormat, Format.setPatternForegroundColor,
      Format.setPatternBackgroundColor;
    match goal with |- context [if ?b then _ else _] => destruct b end;
    (exact H || reflexivity).
Qed.

Lemma calls_keep_dirty (ms : list Mutator) (d : FP.t) :
  FP.dirty d = true -> FP.dirty (calls ms d) = true.
Proof.
  revert d. induction ms as [| m ms IH]; intros d H; [exact H |].
  cbn. apply IH, call_keeps_dirty, H.
Qed.

(** C1 (as the code has it).  For every format and every index:
    - after setXfIndex, xfIndexValid() is true exactly when the dirty flag
      of the whole format is clear, which it is right after formatKey();
      likewise setDxfIndex and dxfIndexValid();
    - after a later call of a setter that marks the whole format (number
      format index, a non-empty number format string, alignment,
      protection), xfIndexValid() and dxfIndexValid() are false, and stay
      false through any further mutator calls, setXfIndex and setDxfIndex
      among them;
    - after a later call of a setter of the font, the border or the fill,
      both are false once formatKey() has been called;
    - after formatKey(), setting a new index makes it valid. *)
Theorem C1_index_validity (d : FP.t) (i j : Z) (m : Mutator)
  (ms : list Mutator) :
  (Format.xfIndexValid (Format.setXfIndex i d) = negb (FP.dirty d)
   /\ Format.dxfIndexValid (Format.setDxfIndex i d) = negb (FP.dirty d))
  /\ (marks m = MarksFormat ->
      let d' := call m (Format.setDxfIndex i (Format.setXfIndex i d)) in
      Format.xfIndexValid d' = false
      /\ Format.dxfIndexValid d' = false
      /\ Format.xfIndexValid (calls ms d') = false
      /\ Format.dxfIndexValid (calls ms d') = false)
  /\ (marks m = MarksBundle ->
      let d' := call m (Format.setDxfIndex i (Format.setXfIndex i d)) in
      Format.xfIndexValid (Format.formatKey d').2 = false
      /\ Format.dxfIndexValid (Format.formatKey d').2 = false)
  /\ (Format.xfIndexValid (Format.setXfIndex j (Format.formatKey d).2) = true
      /\ Format.dxfIndexValid (Format.setDxfIndex j (Format.formatKey d).2)
         = true).
Proof.
  split; [| split; [| split]].
  - unfold Format.xfIndexValid, Format.dxfIndexValid. cbn.
    rewrite !andb_true_r. split; reflexivity.
  - intros Hm d'.
    pose proof (marks_format_dirty m
                  (Format.setDxfIndex i (Format.setXfIndex i d)) Hm) as Hd.
    fold d' in Hd.
    pose proof (calls_keep_dirty ms d' Hd) as Hds.
    unfold Format.xfIndexValid, Format.dxfIndexValid.
    rewrite Hd, Hds. repeat split; reflexivity.
  - intros Hm d'.
    apply formatKey_discards, marks_bundle_dirty, Hm.
  - unfold Format.xfIndexValid, Format.dxfIndexValid. cbn.
    rewrite formatKey_dirty_clear. split; reflexivity.
Qed.

(** A format whose key is up to date, then setRotation(90), and
    setFontSize(12) followed by formatKey(). *)
Lemma C1_witness :
  let clean := (Format.formatKey FP.new).2 in
  (FP.dirty clean = false
   /\ Format.xfIndexValid (Format.setXfIndex 5 clean) = true)
  /\ (marks (SetRotation 90) = MarksFormat
      /\ Format.xfIndexValid
           (calls [SetXfIndex 6]
              (call (SetRotation 90)
                 (Format.setDxfIndex 5 (Format.setXfIndex 5 clean))))
         = false)
  /\ (marks (SetFontSize 12) = MarksBundle
      /\ Format.xfIndexValid
           (Format.formatKey
              (call (SetFontSize 12)
                 (Format.setDxfIndex 5 (Format.setXfIndex 5 clean)))).2
         = false).
Proof.
  intros clean.
  assert (Hc : FP.dirty clean = false) by reflexivity.
  destruct (C1_index_validity clean 5 0 (SetRotation 90) [SetXfIndex 6])
    as (H1 & H2 & _ & _).
  destruct (C1_index_validity clean 5 0 (SetFontSize 12) [])
    as (_ & _ & H3 & _).
  split; [| split].
  - split; [exact Hc | rewrite (proj1 H1), Hc; reflexivity].
  - split; [reflexivity | exact (proj1 (proj2 (proj2 (H2 eq_refl))))].
  - split; [reflexivity | exact (proj1 (H3 eq_refl))].
Defined.

(** C1, as stated, fails on the code.  On a fresh format, whose dirty flag
    is set, xfIndexValid() and dxfIndexValid() are false right after
    setXfIndex(5) and setDxfIndex(5).  On a format whose key is up to date,
    xfIndexValid() is still true after setXfIndex(5) followed by
    setNumberFormat with an empty string, and also after setXfIndex(5)
    followed by setFontSize(12); and a new index set after setRotation(90)
    is not valid. *)
Lemma C1_counterexample :
  Format.xfIndexValid (Format.setXfIndex 5 FP.new) = false
  /\ Format.dxfIndexValid (Format.setDxfIndex 5 FP.new) = false
  /\ (let clean := (Format.formatKey FP.new).2 in
      Format.xfIndexValid
        (call (SetNumberFormat "") (Format.setXfIndex 5 clean)) = true
      /\ Format.xfIndexValid
           (call (SetFontSize 12) (Format.setXfIndex 5 clean)) = true
      /\ Format.xfIndexValid
           (Format.setXfIndex 6
              (call (SetRotation 90) (Format.setXfIndex 5 clean))) = false).
Proof. vm_compute. repeat split; reflexivity. Qed.

(** ** C2: the key and the order of the assignments *)

(** formatKey() does not read the validity flag of the number format. *)
Lemma formatKey_forgetValid (d : FP.t) :
  (Format.formatKey (forgetValid d)).1 = (Format.formatKey d).1.
Proof. flags d; key_cbv; reflexivity. Qed.

(** [act] presents [call]. *)
Lemma call_act (m : Mutator) (d : FP.t) : call m d = perform (act m) d.
Proof.
  destruct m; try reflexivity;
    fields d; destruct ld as [pat fg bg ldirty lkey liv li];
    setter_cases; reflexivity.
Qed.

(** Unfold [perform] down to the constructor of the state. *)
Ltac perform_eval :=
  cbv [forgetValid perform Format.on_number Format.on_font
       Format.on_alignment Format.on_border Format.on_fill
       Format.on_protection Format.setXfIndex Format.setDxfIndex
       FP.set_numberData FP.set_fontData FP.set_alignmentData
       FP.set_borderData FP.set_fillData FP.set_protectionData
       FP.set_dirty FP.set_xf_index FP.set_xf_indexValid
       FP.set_dxf_index FP.set_dxf_indexValid
       FP.numberData FP.fontData FP.alignmentData FP.borderData
       FP.fillData FP.protectionData FP.dirty FP.formatKey FP.xf_index
       FP.xf_indexValid FP.is_dxf_fomat FP.dxf_index FP.dxf_indexValid
       FP.theme].

(** Compatible actions commute, up to the validity flag of the number
    format. *)
Lemma perform_commute (a1 a2 : Action) (d : FP.t) :
  compatible a1 a2 ->
  forgetValid (perform a1 (perform a2 d))
  = forgetValid (perform a2 (perform a1 d)).
Proof.
  destruct d as [nd fd ad bd ld pd ddirty fkey xfi xfv isdxf dxfi dxfv th].
  destruct a1 as [k1 f | f | f | f | f | f | i1 | i1],
           a2 as [k2 g | g | g | g | g | g | i2 | i2];
    cbn [compatible]; intros H; try contradiction;
    try (destruct k1); try (destruct k2);
    perform_eval; rewrite ?H; reflexivity.
Qed.

(** No mutator reads the validity flag of the number format. *)
Lemma call_forgetValid (m : Mutator) (d : FP.t) :
  forgetValid (call m (forgetValid d)) = forgetValid (call m d).
Proof.
  rewrite !call_act.
  destruct d as [[idx str valid] fd ad bd ld pd ddirty fkey xfi xfv isdxf
                 dxfi dxfv th].
  destruct m; cbn [act fontAttr borderAttr fillColor];
    try (destruct (QString.isEmpty format));
    perform_eval; reflexivity.
Qed.

Lemma call_forgetValid_congr (m : Mutator) (d1 d2 : FP.t) :
  forgetValid d1 = forgetValid d2 ->
  forgetValid (call m d1) = forgetValid (call m d2).
Proof.
  intros H. rewrite <- (call_forgetValid m d1), <- (call_forgetValid m d2).
  rewrite H. reflexivity.
Qed.

Lemma calls_forgetValid_congr (ms : list Mutator) (d1 d2 : FP.t) :
  forgetValid d1 = forgetValid d2 ->
  forgetValid (calls ms d1) = forgetValid (calls ms d2).
Proof.
  revert d1 d2. induction ms as [| m ms IH]; intros d1 d2 H; [exact H |].
  cbn. apply IH, call_forgetValid_congr, H.
Qed.

Lemma disjointb_spec (l1 l2 : list Attr) :
  (forall a, a ∈ l1 -> a ∉ l2) -> disjointb l1 l2 = true.
Proof.
  intros H. unfold disjointb.
  apply forallb_forall. intros a Ha.
  apply forallb_forall. intros b Hb.
  apply negb_true_iff, Pos.eqb_neq. intros E.
  apply list_elem_of_In in Ha, Hb.
  assert (a = b) by (destruct a, b; try discriminate E; reflexivity).
  subst b. exact (H a Ha Hb).
Qed.

(** Mutators that touch no common attribute are compatible. *)
Lemma act_compatible (m1 m2 : Mutator) :
  disjointb (touches m1) (touches m2) = true ->
  compatible (act m1) (act m2).
Proof.
  intros H.
  destruct m1, m2; try discriminate H; clear H;
    cbn [act fontAttr borderAttr fillColor];
    repeat match goal with
           | |- context [QString.isEmpty ?f] =>
               destruct (QString.isEmpty f)
           end;
    cbn [compatible]; try exact I;
    intros r; try reflexivity;
    destruct r; setter_cases; reflexivity.
Qed.

(** Two mutators that touch no common attribute commute, up to the
    validity flag of the number format. *)
Lemma call_commute (m1 m2 : Mutator) (d : FP.t) :
  disjointb (touches m1) (touches m2) = true ->
  forgetValid (call m1 (call m2 d)) = forgetValid (call m2 (call m1 d)).
Proof.
  intros H. rewrite !call_act. apply perform_commute, act_compatible, H.
Qed.

(** Reordering a sequence of mutators of which no two touch a common
    attribute changes the final state at most in the validity flag of the
    number format. *)
Lemma calls_permutation (ms1 ms2 : list Mutator) :
  ms1 ≡ₚ ms2 ->
  NoDup (flat_map touches ms1) ->
  forall d, forgetValid (calls ms1 d) = forgetValid (calls ms2 d).
Proof.
  induction 1 as [| m ms1 ms2 Hp IH | m1 m2 ms | ms1 ms2 ms3 Hp1 IH1 Hp2 IH2];
    intros Hnd d.
  - reflexivity.
  - cbn. apply IH. cbn in Hnd.
    apply NoDup_app in Hnd as (_ & _ & Hnd). exact Hnd.
  - cbn. apply calls_forgetValid_congr, call_commute, disjointb_spec.
    cbn in Hnd.
    apply NoDup_app in Hnd as (_ & Hdis & _).
    intros a Ha Hb. apply (Hdis a Hb). apply elem_of_app. left. exact Ha.
  - rewrite IH1 by exact Hnd. apply IH2.
    rewrite <- Hp1. exact Hnd.
Qed.

(** C2 (as the code has it).  Take any sequence of mutator calls in which
    no two calls touch a common attribute, a setter that normalises
    counting as touching the attributes it tests or resets as well
    ([touches]).  Applied to equal formats (two default-constructed ones,
    for instance) in any two orders, the calls lead to byte-identical
    formatKey() results. *)
Theorem C2_key_order_independent (ms1 ms2 : list Mutator) (d : FP.t) :
  ms1 ≡ₚ ms2 ->
  NoDup (flat_map touches ms1) ->
  (Format.formatKey (calls ms1 d)).1 = (Format.formatKey (calls ms2 d)).1
  /\ (Format.formatKey (calls ms1 FP.new)).1
     = (Format.formatKey (calls ms2 FP.new)).1.
Proof.
  intros Hp Hnd.
  assert (H : forall d0, (Format.formatKey (calls ms1 d0)).1
                         = (Format.formatKey (calls ms2 d0)).1).
  { intros d0.
    rewrite <- (formatKey_forgetValid (calls ms1 d0)),
            <- (formatKey_forgetValid (calls ms2 d0)).
    rewrite (calls_permutation ms1 ms2 Hp Hnd d0). reflexivity. }
  split; apply H.
Qed.

(** setIndent, setTextWarp and setFontSize touch different attributes. *)
Lemma C2_witness :
  let ms1 := [SetIndent 3; SetTextWarp true; SetFontSize 12] in
  let ms2 := [SetTextWarp true; SetIndent 3; SetFontSize 12] in
  (Format.formatKey (calls ms1 FP.new)).1
  = (Format.formatKey (calls ms2 FP.new)).1.
Proof.
  intros ms1 ms2.
  refine (proj2 (C2_key_order_independent ms1 ms2 FP.new _ _)).
  - apply perm_swap.
  - cbn.
    repeat (apply NoDup_cons_2;
            [rewrite ?elem_of_cons, elem_of_nil; intuition discriminate |]).
    apply NoDup_nil_2.
Defined.

(** C2, as stated, fails on the code: setIndent(3) and
    setHorizontalAlignment(fill) on a default-constructed format give
    different keys in the two orders, since either setter resets what the
    other has set (the first order ends with alignment fill and indent 0,
    the second with alignment left and indent 3). *)
Lemma C2_counterexample :
  let ms1 := [SetIndent 3; SetHorizontalAlignment AlignHFill] in
  let ms2 := [SetHorizontalAlignment AlignHFill; SetIndent 3] in
  ms1 ≡ₚ ms2
  /\ (Format.formatKey (calls ms1 FP.new)).1
     <> (Format.formatKey (calls ms2 FP.new)).1
  /\ (Format.horizontalAlignment (calls ms1 FP.new),
      Format.indent (calls ms1 FP.new)) = (AlignHFill, 0)
  /\ (Format.horizontalAlignment (calls ms2 FP.new),
      Format.indent (calls ms2 FP.new)) = (AlignLeft, 3).
Proof.
  intros ms1 ms2. split; [apply perm_swap |].
  split; [| split; reflexivity].
  vm_compute. discriminate.
Qed.

(** ** Shared state: reading through a handle *)

Lemma read_Some (x : nat) (w : Shared.World) (d : FP.t) :
  Shared.read x w = Some d
  <-> exists l c, Shared.objects w !! x = Some l
                  /\ Shared.heap w !! l = Some c
                  /\ Shared.data c = d.
Proof.
  unfold Shared.read. split.
  - intros H. destruct (Shared.objects w !! x) as [l |] eqn:El;
      [| discriminate H].
    cbn in H. destruct (Shared.heap w !! l) as [c |] eqn:Ec;
      [| discriminate H].
    cbn in H. injection H as H. eauto.
  - intros (l & c & El & Ec & Hd). rewrite El. cbn. rewrite Ec. cbn.
    rewrite Hd. reflexivity.
Qed.

(** A key accessor works in place on the state the handle points to. *)
Lemma keyAccess_Some (x : nat) (k : KeyAccess) (w : Shared.World)
  (l : positive) (c : Shared.Cell) :
  Shared.objects w !! x = Some l ->
  Shared.heap w !! l = Some c ->
  Shared.keyAccess x k w
  = Some ((access k (Shared.data c)).1,
          Shared.mkWorld
            (<[l := Shared.mkCell (Shared.ref c)
                      (access k (Shared.data c)).2]> (Shared.heap w))
            (Shared.objects w)).
Proof.
  intros El Ec. unfold Shared.keyAccess. rewrite El. cbn. rewrite Ec.
  reflexivity.
Qed.

(** ** C5: equality of formats *)

(** C5.  For two live formats a and b, a == b is true exactly when the
    formatKey() of a and the formatKey() of b are byte-identical, and
    a != b is its negation.  The result is a function of the two states
    alone: it is the same whether the two handles point to one shared
    state or to two, and in whichever order the two keys are computed. *)
Theorem C5_equality_by_key (w : Shared.World) (a b : nat) (da db : FP.t) :
  Shared.read a w = Some da ->
  Shared.read b w = Some db ->
  let same := bool_decide ((Format.formatKey da).1 = (Format.formatKey db).1)
  in
  fst <$> Shared.keyAccess a FormatKey w = Some (Format.formatKey da).1
  /\ fst <$> Shared.keyAccess b FormatKey w = Some (Format.formatKey db).1
  /\ fst <$> Shared.equal a b w = Some same
  /\ fst <$> Shared.notEqual a b w = Some (negb same)
  /\ fst <$> Shared.equal_rl a b w = Some same.
Proof.
  intros Ha Hb same.
  apply read_Some in Ha as (la & ca & Ela & Eca & Hda).
  apply read_Some in Hb as (lb & cb & Elb & Ecb & Hdb).
  pose proof (keyAccess_Some a FormatKey w la ca Ela Eca) as Ka.
  pose proof (keyAccess_Some b FormatKey w lb cb Elb Ecb) as Kb.
  cbn [access] in Ka, Kb. rewrite Hda in Ka. rewrite Hdb in Kb.
  split; [rewrite Ka; reflexivity |].
  split; [rewrite Kb; reflexivity |].
  (* the second access, after the first has refreshed the cache *)
  assert (Kab : forall x y lx ly cx cy dx dy,
    Shared.objects w !! x = Some lx -> Shared.heap w !! lx = Some cx ->
    Shared.data cx = dx ->
    Shared.objects w !! y = Some ly -> Shared.heap w !! ly = Some cy ->
    Shared.data cy = dy ->
    exists w',
      Shared.keyAccess y FormatKey
        (Shared.mkWorld
           (<[lx := Shared.mkCell (Shared.ref cx)
                      (Format.formatKey dx).2]> (Shared.heap w))
           (Shared.objects w))
      = Some ((Format.formatKey dy).1, w')).
  { intros x y lx ly cx cy dx dy Elx Ecx Hdx Ely Ecy Hdy. subst dx dy.
    destruct (decide (lx = ly)) as [-> | Hne].
    - assert (cx = cy) by congruence. subst cy.
      rewrite (keyAccess_Some y FormatKey _ ly
                 (Shared.mkCell (Shared.ref cx)
                    (Format.formatKey (Shared.data cx)).2));
        [| exact Ely | cbn; apply lookup_insert_eq].
      cbn. rewrite formatKey_idempotent. cbn.
      eexists; reflexivity.
    - rewrite (keyAccess_Some y FormatKey _ ly cy);
        [| exact Ely | cbn; rewrite lookup_insert_ne by exact Hne; exact Ecy].
      cbn. eexists; reflexivity. }
  destruct (Kab a b la lb ca cb da db Ela Eca Hda Elb Ecb Hdb) as [w2 K2].
  destruct (Kab b a lb la cb ca db da Elb Ecb Hdb Ela Eca Hda) as [w1 K1].
  unfold Shared.equal, Shared.notEqual, Shared.equal_rl.
  rewrite Ka, Kb. cbn. rewrite K1, K2. cbn.
  repeat split; reflexivity.
Qed.

(** ** Shared state: reference counts *)

Lemma clone_eq (d : FP.t) : FP.clone d = d.
Proof. destruct d; reflexivity. Qed.

(** A mutator that does not evaluate [d->] changes nothing. *)
Lemma usesD_false (m : Mutator) (d : FP.t) :
  Shared.usesD m = false -> call m d = d.
Proof.
  destruct m; try discriminate. cbn. intros H.
  apply negb_false_iff in H. unfold Format.setNumberFormat. rewrite H.
  reflexivity.
Qed.

Lemma release_lookup_ne (l l' : positive) (h : gmap positive Shared.Cell) :
  l <> l' -> Shared.release l h !! l' = h !! l'.
Proof.
  intros Hne. unfold Shared.release.
  destruct (h !! l) as [c |]; [| reflexivity].
  destruct (decide (Shared.ref c = 1%nat)).
  - apply lookup_delete_ne, Hne.
  - apply lookup_insert_ne, Hne.
Qed.

Lemma fresh_heap (h : gmap positive Shared.Cell) : h !! fresh (dom h) = None.
Proof. apply not_elem_of_dom, is_fresh. Qed.

(** Two different handles on one state: it is counted at least twice. *)
Lemma sharers_two (w : Shared.World) (a b : nat) (l : positive) :
  a <> b ->
  Shared.objects w !! a = Some l ->
  Shared.objects w !! b = Some l ->
  (2 <= Shared.sharers l w)%nat.
Proof.
  intros Hne Ha Hb. unfold Shared.sharers, Shared.pointers.
  set (P := fun p : nat * positive => p.2 = l).
  set (f := filter P (Shared.objects w)).
  assert (Fa : f !! a = Some l)
    by (apply map_lookup_filter_Some; split; [exact Ha | reflexivity]).
  assert (Fb : f !! b = Some l)
    by (apply map_lookup_filter_Some; split; [exact Hb | reflexivity]).
  assert (Fb' : delete a f !! b = Some l)
    by (rewrite lookup_delete_ne by exact Hne; exact Fb).
  pose proof (map_size_delete_Some a f (ex_intro _ l Fa)) as S1.
  pose proof (map_size_ne_0_lookup_2 (delete a f) b (ex_intro _ l Fb')) as S2.
  lia.
Qed.

(** The heart of the fork: a mutator called through a handle whose state
    is counted at least twice works on a clone; the state, and with it
    every other handle on it, keeps its content. *)
Lemma mutate_shared (w : Shared.World) (a b : nat) (l : positive)
  (c : Shared.Cell) (m : Mutator) :
  a <> b ->
  Shared.objects w !! a = Some l ->
  Shared.objects w !! b = Some l ->
  Shared.heap w !! l = Some c ->
  (2 <= Shared.ref c)%nat ->
  exists w2,
    Shared.mutate b m w = Some w2
    /\ Shared.read a w2 = Some (Shared.data c)
    /\ Shared.read b w2 = Some (call m (Shared.data c)).
Proof.
  intros Hne Ha Hb Hc Href. unfold Shared.mutate.
  destruct (Shared.usesD m) eqn:Hu.
  - unfold Shared.detach. rewrite Hb. cbn. rewrite Hc. cbn.
    destruct (decide (Shared.ref c = 1%nat)) as [E | _]; [lia |].
    cbn. rewrite lookup_insert_eq. cbn.
    eexists. split; [reflexivity |].
    assert (Hfresh : fresh (dom (Shared.heap w)) <> l).
    { intros E. pose proof (fresh_heap (Shared.heap w)) as F.
      rewrite E, Hc in F. discriminate F. }
    split; apply read_Some; cbn.
    + exists l, (Shared.mkCell (Nat.pred (Shared.ref c)) (Shared.data c)).
      split; [rewrite lookup_insert_ne by congruence; exact Ha |].
      split; [| reflexivity].
      rewrite !lookup_insert_ne by exact Hfresh.
      unfold Shared.release. rewrite Hc.
      destruct (decide (Shared.ref c = 1%nat)) as [E | _]; [lia |].
      apply lookup_insert_eq.
    + eexists _, _. split; [apply lookup_insert_eq |].
      split; [apply lookup_insert_eq |].
      cbn. rewrite clone_eq. reflexivity.
  - rewrite Hb. cbn. eexists. split; [reflexivity |].
    rewrite (usesD_false m _ Hu).
    split; apply read_Some; eauto.
Qed.

(** ** C3: a mutation through a copy is invisible to the original *)

(** C3.  Let A be a live format.  After B is copy-constructed from A, or
    A is assigned to another live format B, a call of any mutator on B
    succeeds and leaves the state that A reads exactly as it was before
    the copy: every getter of A returns what it returned, and so does A's
    formatKey().  B reads the mutated state. *)
Theorem C3_fork_isolation (w w1 : Shared.World) (a b : nat) (m : Mutator)
  (dA : FP.t) :
  Shared.wf w ->
  a <> b ->
  Shared.read a w = Some dA ->
  Shared.copyConstruct b a w = Some w1 \/ Shared.assign b a w = Some w1 ->
  exists w2,
    Shared.mutate b m w1 = Some w2
    /\ Shared.read a w2 = Some dA
    /\ fst <$> Shared.keyAccess a FormatKey w2 = Some (Format.formatKey dA).1
    /\ Shared.read b w2 = Some (call m dA).
Proof.
  intros [Hobj Hcnt] Hne Ha Hop.
  apply read_Some in Ha as (l & c & El & Ec & Hd). subst dA.
  destruct (Hcnt l c Ec) as [Href Hpos].
  assert (Hshared : exists c1,
            Shared.objects w1 !! a = Some l
            /\ Shared.objects w1 !! b = Some l
            /\ Shared.heap w1 !! l = Some c1
            /\ Shared.data c1 = Shared.data c
            /\ (2 <= Shared.ref c1)%nat).
  { destruct Hop as [Hop | Hop].
    - unfold Shared.copyConstruct in Hop.
      destruct (Shared.objects w !! b) eqn:Eb; [discriminate Hop |].
      rewrite El in Hop. cbn in Hop. injection Hop as <-. cbn.
      exists (Shared.mkCell (S (Shared.ref c)) (Shared.data c)).
      split; [rewrite lookup_insert_ne by congruence; exact El |].
      split; [apply lookup_insert_eq |].
      split; [unfold Shared.acquire; rewrite lookup_alter_eq, Ec;
              reflexivity |].
      split; [reflexivity | cbn; lia].
    - unfold Shared.assign in Hop.
      destruct (Shared.objects w !! b) as [old |] eqn:Eb;
        [| discriminate Hop].
      cbn in Hop. rewrite El in Hop. cbn in Hop.
      destruct (decide (l = old)) as [<- | Hold].
      + injection Hop as <-. exists c.
        repeat (split; [assumption || reflexivity |]).
        rewrite Href. apply (sharers_two w a b l Hne El Eb).
      + injection Hop as <-. cbn.
        exists (Shared.mkCell (S (Shared.ref c)) (Shared.data c)).
        split; [rewrite lookup_insert_ne by congruence; exact El |].
        split; [apply lookup_insert_eq |].
        split; [rewrite release_lookup_ne by congruence;
                unfold Shared.acquire; rewrite lookup_alter_eq, Ec;
                reflexivity |].
        split; [reflexivity | cbn; lia]. }
  destruct Hshared as (c1 & Ea1 & Eb1 & Ec1 & Hd1 & Href1).
  destruct (mutate_shared w1 a b l c1 m Hne Ea1 Eb1 Ec1 Href1)
    as (w2 & Hm & Hra & Hrb).
  rewrite Hd1 in Hra, Hrb.
  exists w2. split; [exact Hm |]. split; [exact Hra |].
  split; [| exact Hrb].
  apply read_Some in Hra as (l2 & c2 & El2 & Ec2 & Hd2).
  rewrite (keyAccess_Some a FormatKey w2 l2 c2 El2 Ec2). cbn.
  rewrite Hd2. reflexivity.
Qed.

(** ** Shared state: the reference counts stay right *)

Section Pointers.

Variable l : positive.

Lemma pointers_lookup (o : gmap nat positive) (x : nat) :
  o !! x = Some l ->
  filter (fun p : nat * positive => p.2 = l) o !! x = Some l.
Proof.
  intros E. apply map_lookup_filter_Some. split; [exact E | reflexivity].
Qed.

Lemma pointers_delete (o : gmap nat positive) (x : nat) :
  (Shared.pointers l (delete x o)
   + (if decide (o !! x = Some l) then 1 else 0)
   = Shared.pointers l o)%nat.
Proof.
  unfold Shared.pointers. rewrite map_filter_delete, map_size_delete.
  destruct (decide (o !! x = Some l)) as [E | E].
  - pose proof (pointers_lookup o x E) as F. rewrite F.
    pose proof (map_size_ne_0_lookup_2 _ x (ex_intro _ l F)). lia.
  - destruct (filter _ o !! x) as [l' |] eqn:F; [| cbn; lia].
    apply map_lookup_filter_Some in F as [F1 F2]. cbn in F2. subst l'.
    contradiction.
Qed.

Lemma pointers_insert_fresh (o : gmap nat positive) (x : nat)
  (l' : positive) :
  o !! x = None ->
  Shared.pointers l (<[x := l']> o)
  = (Shared.pointers l o + if decide (l' = l) then 1 else 0)%nat.
Proof.
  intros E. unfold Shared.pointers. rewrite map_filter_insert. cbn.
  destruct (decide (l' = l)) as [-> | Hne].
  - rewrite map_size_insert_None; [lia |].
    apply map_lookup_filter_None. left. exact E.
  - rewrite delete_id by exact E. lia.
Qed.

Lemma pointers_insert (o : gmap nat positive) (x : nat) (l' : positive) :
  (Shared.pointers l (<[x := l']> o)
   + (if decide (o !! x = Some l) then 1 else 0)
   = Shared.pointers l o + if decide (l' = l) then 1 else 0)%nat.
Proof.
  rewrite <- insert_delete_eq.
  rewrite pointers_insert_fresh by apply lookup_delete_eq.
  pose proof (pointers_delete o x). lia.
Qed.

Lemma pointers_zero (o : gmap nat positive) :
  (forall x, o !! x <> Some l) -> Shared.pointers l o = 0%nat.
Proof.
  intros H. unfold Shared.pointers. apply map_size_empty_iff.
  apply map_empty_filter_2. intros x l' E HP. cbn in HP. subst l'.
  exact (H x E).
Qed.

Lemma pointers_pos (o : gmap nat positive) (x : nat) :
  o !! x = Some l -> (1 <= Shared.pointers l o)%nat.
Proof.
  intros E. unfold Shared.pointers.
  pose proof (map_size_ne_0_lookup_2 _ x
                (ex_intro _ l (pointers_lookup o x E))). lia.
Qed.

End Pointers.

Lemma wf_empty : Shared.wf Shared.empty.
Proof.
  split.
  - intros x l H. cbn in H. rewrite lookup_empty in H. discriminate H.
  - intros l c H. cbn in H. rewrite lookup_empty in H. discriminate H.
Qed.

(** Rewriting the state of a cell in place keeps the counts right. *)
Lemma wf_update (w : Shared.World) (l : positive) (c : Shared.Cell)
  (d : FP.t) :
  Shared.wf w ->
  Shared.heap w !! l = Some c ->
  Shared.wf (Shared.mkWorld
               (<[l := Shared.mkCell (Shared.ref c) d]> (Shared.heap w))
               (Shared.objects w)).
Proof.
  intros [Hobj Hcnt] Hc. split; cbn.
  - intros x l0 E. destruct (decide (l = l0)) as [-> | Hne].
    + rewrite lookup_insert_eq. eauto.
    + rewrite lookup_insert_ne by exact Hne. eauto.
  - intros l0 c0 E. unfold Shared.sharers. cbn.
    destruct (decide (l = l0)) as [-> | Hne].
    + rewrite lookup_insert_eq in E. injection E as <-. cbn.
      apply (Hcnt l0 c Hc).
    + rewrite lookup_insert_ne in E by exact Hne. apply (Hcnt l0 c0 E).
Qed.

Lemma wf_construct (x : nat) (w w' : Shared.World) :
  Shared.wf w -> Shared.construct x w = Some w' -> Shared.wf w'.
Proof.
  intros [Hobj Hcnt] H. unfold Shared.construct in H.
  destruct (Shared.objects w !! x) eqn:Ex; [discriminate H |].
  injection H as <-.
  pose proof (fresh_heap (Shared.heap w)) as Hf.
  set (l := fresh (dom (Shared.heap w))) in *.
  assert (Hno : forall y, Shared.objects w !! y <> Some l).
  { intros y E. destruct (Hobj y l E) as [c E']. congruence. }
  split; cbn.
  - intros y l0 E. destruct (decide (x = y)) as [<- | Hne].
    + rewrite lookup_insert_eq in E. injection E as <-.
      rewrite lookup_insert_eq. eauto.
    + rewrite lookup_insert_ne in E by exact Hne.
      destruct (Hobj y l0 E) as [c E'].
      rewrite lookup_insert_ne by congruence. eauto.
  - intros l0 c E. unfold Shared.sharers. cbn.
    rewrite (pointers_insert_fresh l0 _ x l Ex).
    destruct (decide (l = l0)) as [<- | Hne].
    + rewrite lookup_insert_eq in E. injection E as <-. cbn.
      rewrite (pointers_zero l _ Hno). lia.
    + rewrite lookup_insert_ne in E by exact Hne.
      destruct (Hcnt l0 c E) as [H1 H2]. unfold Shared.sharers in H1. lia.
Qed.

Lemma wf_copyConstruct (x other : nat) (w w' : Shared.World) :
  Shared.wf w -> Shared.copyConstruct x other w = Some w' -> Shared.wf w'.
Proof.
  intros [Hobj Hcnt] H. unfold Shared.copyConstruct in H.
  destruct (Shared.objects w !! x) eqn:Ex; [discriminate H |].
  destruct (Shared.objects w !! other) as [l |] eqn:Eo; [| discriminate H].
  cbn in H. injection H as <-.
  destruct (Hobj other l Eo) as [c Ec].
  split; cbn.
  - intros y l0 E. unfold Shared.acquire.
    destruct (decide (x = y)) as [<- | Hne].
    + rewrite lookup_insert_eq in E. injection E as <-.
      rewrite lookup_alter_eq, Ec. cbn. eauto.
    + rewrite lookup_insert_ne in E by exact Hne.
      destruct (Hobj y l0 E) as [c0 E0].
      destruct (decide (l = l0)) as [<- | Hl].
      * rewrite lookup_alter_eq, Ec. cbn. eauto.
      * rewrite lookup_alter_ne by exact Hl. eauto.
  - intros l0 c0 E. unfold Shared.sharers, Shared.acquire in *. cbn.
    rewrite (pointers_insert_fresh l0 _ x l Ex).
    destruct (decide (l = l0)) as [<- | Hl].
    + rewrite lookup_alter_eq, Ec in E. cbn in E. injection E as <-. cbn.
      destruct (Hcnt l c Ec) as [H1 H2]. unfold Shared.sharers in H1. lia.
    + rewrite lookup_alter_ne in E by exact Hl.
      destruct (Hcnt l0 c0 E) as [H1 H2]. unfold Shared.sharers in H1. lia.
Qed.

(** Dropping one reference to [l] repairs a world in which the state at
    [l] is counted once too often and everything else is right. *)
Lemma wf_release (h : gmap positive Shared.Cell) (o : gmap nat positive)
  (l : positive) :
  (forall x l0, o !! x = Some l0 -> is_Some (h !! l0)) ->
  (forall l0 c, h !! l0 = Some c ->
     Shared.ref c
     = (Shared.sharers l0 (Shared.mkWorld h o)
        + if decide (l0 = l) then 1 else 0)%nat
     /\ (1 <= Shared.ref c)%nat) ->
  Shared.wf (Shared.mkWorld (Shared.release l h) o).
Proof.
  intros Hobj Hcnt. unfold Shared.release.
  destruct (h !! l) as [c |] eqn:Ec.
  - destruct (Hcnt l c Ec) as [Href Hpos].
    rewrite decide_True in Href by reflexivity.
    unfold Shared.sharers in Href. cbn in Href.
    destruct (decide (Shared.ref c = 1%nat)) as [E1 | E1].
    + split; cbn.
      * intros x l0 E. destruct (decide (l = l0)) as [<- | Hne].
        -- pose proof (pointers_pos l o x E). lia.
        -- rewrite lookup_delete_ne by exact Hne. eauto.
      * intros l0 c0 E. destruct (decide (l = l0)) as [<- | Hne].
        -- rewrite lookup_delete_eq in E. discriminate E.
        -- rewrite lookup_delete_ne in E by exact Hne.
           destruct (Hcnt l0 c0 E) as [H1 H2].
           rewrite decide_False in H1 by congruence.
           unfold Shared.sharers in *. cbn in *. lia.
    + split; cbn.
      * intros x l0 E. destruct (decide (l = l0)) as [<- | Hne].
        -- rewrite lookup_insert_eq. eauto.
        -- rewrite lookup_insert_ne by exact Hne. eauto.
      * intros l0 c0 E. unfold Shared.sharers. cbn.
        destruct (decide (l = l0)) as [<- | Hne].
        -- rewrite lookup_insert_eq in E. injection E as <-. cbn. lia.
        -- rewrite lookup_insert_ne in E by exact Hne.
           destruct (Hcnt l0 c0 E) as [H1 H2].
           rewrite decide_False in H1 by congruence.
           unfold Shared.sharers in H1. cbn in H1. lia.
  - split; cbn; [exact Hobj |].
    intros l0 c0 E. destruct (Hcnt l0 c0 E) as [H1 H2].
    rewrite decide_False in H1 by congruence. split; [| exact H2].
    rewrite H1. lia.
Qed.

Lemma wf_destroy (x : nat) (w w' : Shared.World) :
  Shared.wf w -> Shared.destroy x w = Some w' -> Shared.wf w'.
Proof.
  intros [Hobj Hcnt] H. unfold Shared.destroy in H.
  destruct (Shared.objects w !! x) as [l |] eqn:Ex; [| discriminate H].
  cbn in H. injection H as <-.
  apply wf_release.
  - intros y l0 E. apply lookup_delete_Some in E as [_ E]. eauto.
  - intros l0 c E. destruct (Hcnt l0 c E) as [H1 H2]. split; [| exact H2].
    unfold Shared.sharers in *. cbn.
    pose proof (pointers_delete l0 (Shared.objects w) x) as Hd. cbn in Hd.
    rewrite Ex in Hd.
    destruct (decide (l0 = l)) as [-> | Hne].
    + rewrite decide_True in Hd by reflexivity. lia.
    + rewrite decide_False in Hd by congruence. lia.
Qed.

Lemma wf_assign (x other : nat) (w w' : Shared.World) :
  Shared.wf w -> Shared.assign x other w = Some w' -> Shared.wf w'.
Proof.
  intros Hwf H. pose proof Hwf as [Hobj Hcnt]. unfold Shared.assign in H.
  destruct (Shared.objects w !! x) as [old |] eqn:Ex; [| discriminate H].
  cbn in H.
  destruct (Shared.objects w !! other) as [l |] eqn:Eo; [| discriminate H].
  cbn in H.
  destruct (decide (l = old)) as [-> | Hne]; injection H as <-;
    [exact Hwf |].
  destruct (Hobj other l Eo) as [c Ec].
  apply wf_release.
  - intros y l0 E. unfold Shared.acquire.
    assert (Hl0 : is_Some (Shared.heap w !! l0)).
    { destruct (decide (x = y)) as [<- | Hy].
      - rewrite lookup_insert_eq in E. injection E as <-. eauto.
      - rewrite lookup_insert_ne in E by exact Hy. eauto. }
    destruct Hl0 as [c0 E0].
    destruct (decide (l = l0)) as [<- | Hl].
    + rewrite lookup_alter_eq, Ec. cbn. eauto.
    + rewrite lookup_alter_ne by exact Hl. eauto.
  - intros l0 c0 E. unfold Shared.sharers, Shared.acquire in *. cbn.
    pose proof (pointers_insert l0 (Shared.objects w) x l) as Hi.
    cbn in Hi. rewrite Ex in Hi.
    destruct (decide (l = l0)) as [<- | Hl].
    + rewrite lookup_alter_eq, Ec in E. cbn in E. injection E as <-. cbn.
      destruct (Hcnt l c Ec) as [H1 H2]. unfold Shared.sharers in H1.
      rewrite decide_False in Hi by congruence.
      rewrite decide_False by congruence. lia.
    + rewrite lookup_alter_ne in E by exact Hl.
      destruct (Hcnt l0 c0 E) as [H1 H2]. unfold Shared.sharers in H1.
      destruct (decide (l0 = old)) as [-> | Ho].
      * rewrite decide_True in Hi by reflexivity. lia.
      * rewrite decide_False in Hi by congruence. lia.
Qed.

Lemma release_insert_ne (l l' : positive) (c' : Shared.Cell)
  (h : gmap positive Shared.Cell) :
  l <> l' ->
  <[l' := c']> (Shared.release l h) = Shared.release l (<[l' := c']> h).
Proof.
  intros Hne. unfold Shared.release.
  rewrite lookup_insert_ne by congruence.
  destruct (h !! l) as [c |]; [| reflexivity].
  destruct (decide (Shared.ref c = 1%nat)).
  - symmetry. apply delete_insert_ne. congruence.
  - apply insert_insert_ne. congruence.
Qed.

Lemma wf_detach (x : nat) (w w' : Shared.World) (l' : positive) :
  Shared.wf w -> Shared.detach x w = Some (l', w') ->
  Shared.wf w'
  /\ Shared.objects w' !! x = Some l'
  /\ is_Some (Shared.heap w' !! l').
Proof.
  intros Hwf H. pose proof Hwf as [Hobj Hcnt]. unfold Shared.detach in H.
  destruct (Shared.objects w !! x) as [l |] eqn:Ex; [| discriminate H].
  cbn in H.
  destruct (Shared.heap w !! l) as [c |] eqn:Ec; [| discriminate H].
  cbn in H.
  destruct (decide (Shared.ref c = 1%nat)) as [E1 | E1].
  - injection H as <- <-. eauto.
  - injection H as <- <-. cbn.
    pose proof (fresh_heap (Shared.heap w)) as Hf.
    set (n := fresh (dom (Shared.heap w))) in *.
    assert (Hln : l <> n) by congruence.
    assert (Hno : forall y, Shared.objects w !! y <> Some n).
    { intros y E. destruct (Hobj y n E) as [c0 E']. congruence. }
    split; [| split; [apply lookup_insert_eq
                     | rewrite lookup_insert_eq; eauto]].
    rewrite release_insert_ne by exact Hln.
    apply wf_release.
    + intros y l0 E.
      destruct (decide (n = l0)) as [<- | Hl];
        [rewrite lookup_insert_eq; eauto |].
      rewrite lookup_insert_ne by exact Hl.
      destruct (decide (x = y)) as [<- | Hy].
      * rewrite lookup_insert_eq in E. congruence.
      * rewrite lookup_insert_ne in E by exact Hy. eauto.
    + intros l0 c0 E. unfold Shared.sharers. cbn.
      pose proof (pointers_insert l0 (Shared.objects w) x n) as Hi.
      cbn in Hi. rewrite Ex in Hi.
      destruct (decide (n = l0)) as [<- | Hl].
      * rewrite lookup_insert_eq in E. injection E as <-. cbn.
        rewrite (pointers_zero n _ Hno) in Hi.
        rewrite decide_False in Hi by congruence.
        rewrite decide_False by congruence. lia.
      * rewrite lookup_insert_ne in E by exact Hl.
        destruct (Hcnt l0 c0 E) as [H1 H2]. unfold Shared.sharers in H1.
        destruct (decide (l0 = l)) as [-> | Ho].
        -- rewrite decide_True in Hi by reflexivity. lia.
        -- rewrite decide_False in Hi by congruence. lia.
Qed.

Lemma wf_mutate (x : nat) (m : Mutator) (w w' : Shared.World) :
  Shared.wf w -> Shared.mutate x m w = Some w' -> Shared.wf w'.
Proof.
  intros Hwf H. unfold Shared.mutate in H.
  destruct (Shared.usesD m).
  - destruct (Shared.detach x w) as [[l w1] |] eqn:Ed; [| discriminate H].
    cbn in H. destruct (wf_detach x w w1 l Hwf Ed) as (Hwf1 & _ & _).
    destruct (Shared.heap w1 !! l) as [c |] eqn:Ec; [| discriminate H].
    cbn in H. injection H as <-. apply wf_update; assumption.
  - destruct (Shared.objects w !! x); [| discriminate H].
    cbn in H. injection H as <-. exact Hwf.
Qed.

Lemma wf_keyAccess (x : nat) (k : KeyAccess) (w w' : Shared.World)
  (key : QByteArray) :
  Shared.wf w -> Shared.keyAccess x k w = Some (key, w') -> Shared.wf w'.
Proof.
  intros Hwf H. unfold Shared.keyAccess in H.
  destruct (Shared.objects w !! x) as [l |]; [| discriminate H]. cbn in H.
  destruct (Shared.heap w !! l) as [c |] eqn:Ec; [| discriminate H].
  cbn in H. injection H as _ <-. apply wf_update; assumption.
Qed.

(** Every statement keeps the reference counts right. *)
Lemma wf_exec (s : Shared.Stmt) (w w' : Shared.World) :
  Shared.wf w -> Shared.exec s w = Some w' -> Shared.wf w'.
Proof.
  intros Hwf H. destruct s; cbn in H.
  - exact (wf_construct _ _ _ Hwf H).
  - exact (wf_copyConstruct _ _ _ _ Hwf H).
  - exact (wf_assign _ _ _ _ Hwf H).
  - exact (wf_destroy _ _ _ Hwf H).
  - exact (wf_mutate _ _ _ _ Hwf H).
  - destruct (Shared.keyAccess x k w) as [[key w1] |] eqn:E;
      [| discriminate H].
    cbn in H. injection H as <-. exact (wf_keyAccess _ _ _ _ _ Hwf E).
  - unfold Shared.equal in H.
    destruct (Shared.keyAccess x FormatKey w) as [[k1 w1] |] eqn:E1;
      [| discriminate H].
    cbn in H.
    destruct (Shared.keyAccess format FormatKey w1) as [[k2 w2] |] eqn:E2;
      [| discriminate H].
    cbn in H. injection H as <-.
    exact (wf_keyAccess _ _ _ _ _ (wf_keyAccess _ _ _ _ _ Hwf E1) E2).
Qed.

(** The worlds a program reaches from the empty one have right
    reference counts. *)
Lemma wf_execs (ss : list Shared.Stmt) (w w' : Shared.World) :
  Shared.wf w -> Shared.execs ss w = Some w' -> Shared.wf w'.
Proof.
  revert w. induction ss as [| s ss IH]; intros w Hwf H; cbn in H.
  - injection H as <-. exact Hwf.
  - destruct (Shared.exec s w) as [w1 |] eqn:E; [| discriminate H].
    cbn in H. exact (IH w1 (wf_exec s w w1 Hwf E) H).
Qed.

(** ** Concrete programs *)

(** One format, and setNumberFormat with an empty string on it. *)
Lemma C9_witness :
  let w := default Shared.empty (Shared.construct 0 Shared.empty) in
  is_Some (Shared.objects w !! 0%nat)
  /\ Shared.mutate 0 (SetNumberFormat "") w = Some w.
Proof.
  intros w.
  assert (H : is_Some (Shared.objects w !! 0%nat))
    by (exists 1%positive; vm_compute; reflexivity).
  split; [exact H |].
  exact (proj2 (proj2 (C9_setNumberFormat_empty_noop FP.new 0 w)) H).
Defined.

(** Formats 0 and 1 share their state, format 2 has its own and another
    font size. *)
Lemma C5_witness :
  let w := default Shared.empty
             (Shared.execs [Shared.Construct 0; Shared.CopyConstruct 1 0;
                            Shared.Construct 2;
                            Shared.Mutator_ 2 (SetFontSize 20)]
                Shared.empty) in
  (Shared.read 0 w = Some FP.new
   /\ Shared.read 1 w = Some FP.new
   /\ Shared.read 2 w = Some (Format.setFontSize 20 FP.new))
  /\ fst <$> Shared.equal 0 1 w
     = Some (bool_decide ((Format.formatKey FP.new).1
                          = (Format.formatKey FP.new).1))
  /\ fst <$> Shared.equal 0 2 w
     = Some (bool_decide ((Format.formatKey FP.new).1
                          = (Format.formatKey
                               (Format.setFontSize 20 FP.new)).1)).
Proof.
  intros w.
  assert (H0 : Shared.read 0 w = Some FP.new) by (vm_compute; reflexivity).
  assert (H1 : Shared.read 1 w = Some FP.new) by (vm_compute; reflexivity).
  assert (H2 : Shared.read 2 w = Some (Format.setFontSize 20 FP.new))
    by (vm_compute; reflexivity).
  split; [exact (conj H0 (conj H1 H2)) |].
  split.
  - exact (proj1 (proj2 (proj2 (C5_equality_by_key w 0 1 _ _ H0 H1)))).
  - exact (proj1 (proj2 (proj2 (C5_equality_by_key w 0 2 _ _ H0 H2)))).
Defined.

(** Format 1 copy-constructed from the fresh format 0, then
    setFontSize(20) on format 1. *)
Lemma C3_witness :
  let w := default Shared.empty (Shared.construct 0 Shared.empty) in
  let w1 := default Shared.empty (Shared.copyConstruct 1 0 w) in
  (Shared.wf w /\ Shared.read 0 w = Some FP.new
   /\ Shared.copyConstruct 1 0 w = Some w1)
  /\ exists w2,
       Shared.mutate 1 (SetFontSize 20) w1 = Some w2
       /\ Shared.read 0 w2 = Some FP.new
       /\ fst <$> Shared.keyAccess 0 FormatKey w2
          = Some (Format.formatKey FP.new).1
       /\ Shared.read 1 w2 = Some (call (SetFontSize 20) FP.new).
Proof.
  intros w w1.
  assert (Hwf : Shared.wf w).
  { apply (wf_execs [Shared.Construct 0] Shared.empty w wf_empty).
    vm_compute. reflexivity. }
  assert (Hr : Shared.read 0 w = Some FP.new) by (vm_compute; reflexivity).
  assert (Hc : Shared.copyConstruct 1 0 w = Some w1)
    by (vm_compute; reflexivity).
  split; [exact (conj Hwf (conj Hr Hc)) |].
  apply (C3_fork_isolation w w1 0 1 (SetFontSize 20) FP.new Hwf);
    [discriminate | exact Hr | left; exact Hc].
Defined.

(** The same through an assignment: B = A, then B.setFontSize(20). *)
Example fork_after_assignment :
  let w := default Shared.empty
             (Shared.execs [Shared.Construct 0; Shared.Construct 1;
                            Shared.Mutator_ 1 (SetFontSize 9);
                            Shared.Assign 1 0;
                            Shared.Mutator_ 1 (SetFontSize 20)]
                Shared.empty) in
  Format.fontSize <$> Shared.read 0 w = Some 11
  /\ Format.fontSize <$> Shared.read 1 w = Some 20
  /\ size (Shared.heap w) = 2%nat.
Proof. vm_compute. repeat split; reflexivity. Qed.

(** * Further properties of the setters *)

(** ** Every mutator is idempotent *)

Ltac is_numeral x :=
  lazymatch x with
  | Z0 => idtac
  | Zpos _ => idtac
  | Zneg _ => idtac
  end.

(** As [setter_cases], deciding the tests on variables first and computing
    the tests on numerals. *)
Ltac setter_cases2 :=
  setter_eval;
  repeat (match goal with
          | |- context [if ?b then _ else _] => is_var b; destruct b
          | |- context [match ?a with AlignHGeneral => _ | _ => _ end] =>
              is_var a; destruct a
          | |- context [Z.eqb ?x ?y] => is_var x; destruct (Z.eqb x y) eqn:?
          | |- context [Z.eqb ?x ?y] =>
              is_numeral x;
              let v := eval cbv in (Z.eqb x y) in
              change (Z.eqb x y) with v
          | |- context [QColor.isValid ?c] =>
              is_var c; destruct (QColor.isValid c) eqn:?
          | |- context [QString.isEmpty ?f] =>
              is_var f; destruct (QString.isEmpty f) eqn:?
          end; setter_eval).

Ltac eqb_subst :=
  repeat match goal with
         | H : (_ =? _) = true |- _ => apply Z.eqb_eq in H; subst
         end.

(** X1.  Calling a mutator a second time with the same arguments changes
    nothing: the normalising setters (setHorizontalAlignment, setIndent,
    setTextWarp, setShrinkToFit, the pattern colours) included, whose
    first call may have reset other attributes. *)
Theorem mutator_idempotent (m : Mutator) (d : FP.t) :
  call m (call m d) = call m d.
Proof.
  rewrite !call_act.
  destruct d as [nd fd ad bd ld pd ddirty fkey xfi xfv isdxf dxfi dxfv th].
  destruct m; cbn [act fontAttr borderAttr fillColor];
    try (destruct (QString.isEmpty format));
    perform_eval; f_equal; try reflexivity;
    match goal with
    | |- _ = _ :> AlignmentData.t => destruct ad
    | |- _ = _ :> FillData.t => destruct ld
    end;
    setter_cases2; try reflexivity; try congruence; eqb_subst; reflexivity.
Qed.

(** ** A mutator changes only what it touches *)

(** X2.  A mutator leaves every attribute outside its footprint as it was:
    the getter of an attribute that the mutator neither assigns nor
    normalises returns the same value after the call. *)
Theorem mutator_frame (m : Mutator) (a : Attr) (d : FP.t) :
  a ∉ touches m -> observe a (call m d) = observe a d.
Proof.
  intros H.
  destruct m, a; try reflexivity;
    try (exfalso; apply H; repeat constructor; fail);
    fields d; destruct ld as [pat fg bg ldirty lkey liv li];
    setter_cases2; reflexivity.
Qed.

(** setIndent(3) leaves the word wrap alone, and the vertical alignment. *)
Lemma mutator_frame_witness :
  observe AWrap (call (SetIndent 3) (Format.setTextWarp true FP.new))
  = VBool true.
Proof.
  rewrite (mutator_frame (SetIndent 3) AWrap).
  - reflexivity.
  - intros Hin.
    repeat (apply elem_of_cons in Hin as [Hin | Hin]; [discriminate Hin |]).
    apply elem_of_nil in Hin. exact Hin.
Defined.

(** ** Invariants of the alignment and of the number format *)

Lemma step_shrinkFits (c : Call) (d : FP.t) :
  shrinkFits d -> shrinkFits (step c d).
Proof.
  unfold shrinkFits, Format.shrinkToFit, Format.horizontalAlignment.
  destruct c as [m | k].
  - fields d. destruct ld as [pat fg bg ldirty lkey liv li].
    destruct m; setter_cases2; intros H;
      try reflexivity; try exact H; try congruence;
      eqb_subst; congruence.
  - cbn [step]. rewrite access_alignment. auto.
Qed.

(** X3.  Shrink-to-fit is never on together with the horizontal
    alignments fill, justify or distributed: whatever calls are made on a
    format that satisfies this, the default-constructed one for instance,
    it holds afterwards. *)
Theorem shrinkToFit_excludes_filling (cs : list Call) (d : FP.t) :
  shrinkFits d -> shrinkFits (run cs d).
Proof.
  revert d. induction cs as [| c cs IH]; intros d H; [exact H |].
  cbn. apply IH, step_shrinkFits, H.
Qed.

(** From the default format: shrink-to-fit, then alignment justify. *)
Lemma shrinkToFit_excludes_filling_witness :
  shrinkFits FP.new
  /\ shrinkFits (run [Mutate (SetShrinkToFit true);
                      Mutate (SetHorizontalAlignment AlignHJustify)] FP.new).
Proof.
  assert (H : shrinkFits FP.new) by reflexivity.
  split; [exact H |].
  apply (shrinkToFit_excludes_filling _ FP.new H).
Defined.

Lemma step_indentFits (c : Call) (d : FP.t) :
  indentFits d -> indentFits (step c d).
Proof.
  unfold indentFits, Format.indent, Format.horizontalAlignment.
  destruct c as [m | k].
  - fields d. destruct ld as [pat fg bg ldirty lkey liv li].
    destruct m; setter_cases2; intros H;
      try reflexivity; try exact H; try congruence;
      eqb_subst; congruence.
  - cbn [step]. rewrite access_alignment. auto.
Qed.

(** X4.  A format with a non-zero indent is never aligned center, fill or
    merge (centerContinuous): whatever calls are made on a format that
    satisfies this, it holds afterwards.  (Justify keeps an indent given
    by setIndent, distributed one that was there when the alignment was
    set: both are reachable, see [indent_with_justify_or_distributed].) *)
Theorem indent_excludes_centering (cs : list Call) (d : FP.t) :
  indentFits d -> indentFits (run cs d).
Proof.
  revert d. induction cs as [| c cs IH]; intros d H; [exact H |].
  cbn. apply IH, step_indentFits, H.
Qed.

(** From the default format: indent 3, then alignment center. *)
Lemma indent_excludes_centering_witness :
  indentFits FP.new
  /\ indentFits (run [Mutate (SetIndent 3);
                      Mutate (SetHorizontalAlignment AlignHCenter)] FP.new).
Proof.
  assert (H : indentFits FP.new) by reflexivity.
  split; [exact H |].
  apply (indent_excludes_centering _ FP.new H).
Defined.

Example indent_with_justify_or_distributed :
  (let d := run [Mutate (SetHorizontalAlignment AlignHJustify);
                 Mutate (SetIndent 3)] FP.new in
   (Format.horizontalAlignment d, Format.indent d) = (AlignHJustify, 3))
  /\ (let d := run [Mutate (SetIndent 3);
                    Mutate (SetHorizontalAlignment AlignHDistributed)]
                FP.new in
      (Format.horizontalAlignment d, Format.indent d)
      = (AlignHDistributed, 3))
  /\ (let d := run [Mutate (SetIndent 3);
                    Mutate (SetHorizontalAlignment AlignHJustify)] FP.new in
      (Format.horizontalAlignment d, Format.indent d) = (AlignHJustify, 0))
  /\ (let d := run [Mutate (SetHorizontalAlignment AlignHDistributed);
                    Mutate (SetIndent 3)] FP.new in
      (Format.horizontalAlignment d, Format.indent d) = (AlignLeft, 3)).
Proof. repeat split; reflexivity. Qed.

Lemma access_numberData (k : KeyAccess) (d : FP.t) :
  FP.numberData (access k d).2 = FP.numberData d.
Proof. destruct k; flags d; reflexivity. Qed.

Lemma step_numberFits (c : Call) (d : FP.t) :
  numberFits d -> numberFits (step c d).
Proof.
  unfold numberFits, Format.numFmtIndexValid, Format.numberFormat.
  destruct c as [m | k].
  - cbn [step]. rewrite call_act.
    destruct m; cbn [act fontAttr borderAttr fillColor];
      try (intros H; exact H); try reflexivity.
    destruct format; intros H; [exact H | reflexivity].
  - cbn [step]. rewrite access_numberData. auto.
Qed.

(** X5.  A number format whose index is not valid has a non-empty format
    string: whatever calls are made on a format that satisfies this, it
    holds afterwards.  (Only setNumberFormat with a non-empty string
    clears the validity.) *)
Theorem invalid_index_has_string (cs : list Call) (d : FP.t) :
  numberFits d -> numberFits (run cs d).
Proof.
  revert d. induction cs as [| c cs IH]; intros d H; [exact H |].
  cbn. apply IH, step_numberFits, H.
Qed.

(** From the default format: a format string, an index, an empty
    string. *)
Lemma invalid_index_has_string_witness :
  numberFits FP.new
  /\ numberFits (run [Mutate (SetNumberFormat "0.00");
                      Mutate (SetNumberFormatIndex 2);
                      Mutate (SetNumberFormat "");
                      Mutate (SetNumFmt 164 "")] FP.new).
Proof.
  assert (H : numberFits FP.new) by reflexivity.
  split; [exact H |].
  apply (invalid_index_has_string _ FP.new H).
Defined.

(** ** Who sets and who clears the dirty flags *)

(** X6.  No mutator clears a dirty flag: the flag of the whole format and
    the flags of the font, the border and the fill each stay set through
    any mutator call.  Only the key accessors clear them. *)
Theorem mutator_keeps_dirty_flags (m : Mutator) (d : FP.t) :
  (FP.dirty d = true -> FP.dirty (call m d) = true)
  /\ (FontData._dirty (FP.fontData d) = true ->
      FontData._dirty (FP.fontData (call m d)) = true)
  /\ (BorderData._dirty (FP.borderData d) = true ->
      BorderData._dirty (FP.borderData (call m d)) = true)
  /\ (FillData._dirty (FP.fillData d) = true ->
      FillData._dirty (FP.fillData (call m d)) = true).
Proof.
  repeat split; intros H;
    (destruct m; try exact H; try reflexivity;
     unfold call, Format.setNumberFormat, Format.setHorizontalAlignment,
       Format.setTextWarp, Format.setIndent, Format.setShrinkToFit,
       Format.setPatternForegroundColor, Format.setPatternBackgroundColor;
     repeat match goal with
            | |- context [if ?b then _ else _] => destruct b
            end;
     (exact H || reflexivity)).
Qed.

(** A fresh format stays dirty through setXfIndex and setFontIndex. *)
Lemma mutator_keeps_dirty_flags_witness :
  FP.dirty (call (SetXfIndex 3) FP.new) = true
  /\ FontData._dirty (FP.fontData (call (SetFontIndex 2) FP.new)) = true.
Proof.
  split.
  - exact (proj1 (mutator_keeps_dirty_flags (SetXfIndex 3) FP.new) eq_refl).
  - exact (proj1 (proj2 (mutator_keeps_dirty_flags (SetFontIndex 2) FP.new))
             eq_refl).
Defined.

(** * Further properties of the keys *)

(** ** The sub-key accessors *)

(** X7.  fontKey(), borderKey() and fillKey() on a bundle that is dirty
    leave the dirty flag of the whole format set, so that xfIndexValid()
    and dxfIndexValid() are false afterwards; on a bundle that is not
    dirty they return the cached key and change nothing. *)
Theorem subkey_access_rolls_up (d : FP.t) :
  (FontData._dirty (FP.fontData d) = true ->
   FP.dirty (Format.fontKey d).2 = true
   /\ Format.xfIndexValid (Format.fontKey d).2 = false
   /\ Format.dxfIndexValid (Format.fontKey d).2 = false)
  /\ (BorderData._dirty (FP.borderData d) = true ->
      FP.dirty (Format.borderKey d).2 = true
      /\ Format.xfIndexValid (Format.borderKey d).2 = false
      /\ Format.dxfIndexValid (Format.borderKey d).2 = false)
  /\ (FillData._dirty (FP.fillData d) = true ->
      FP.dirty (Format.fillKey d).2 = true
      /\ Format.xfIndexValid (Format.fillKey d).2 = false
      /\ Format.dxfIndexValid (Format.fillKey d).2 = false)
  /\ (FontData._dirty (FP.fontData d) = false ->
      Format.fontKey d = (FontData._key (FP.fontData d), d))
  /\ (BorderData._dirty (FP.borderData d) = false ->
      Format.borderKey d = (BorderData._key (FP.borderData d), d))
  /\ (FillData._dirty (FP.fillData d) = false ->
      Format.fillKey d = (FillData._key (FP.fillData d), d)).
Proof.
  flags d; key_cbv; repeat split; intros; first [reflexivity | congruence].
Qed.

(** A format with a valid index, then setFontSize(12), then fontKey(). *)
Lemma subkey_access_rolls_up_witness :
  let d := Format.setFontSize 12
             (Format.setXfIndex 5 (Format.formatKey FP.new).2) in
  (Format.xfIndexValid d = true
   /\ FontData._dirty (FP.fontData d) = true)
  /\ Format.xfIndexValid (Format.fontKey d).2 = false.
Proof.
  intros d. split; [split; reflexivity |].
  exact (proj1 (proj2 (proj1 (subkey_access_rolls_up d) eq_refl))).
Defined.

(** X8.  The three sub-key accessors do not interfere with one another or
    with formatKey(): two of them called in either order return the same
    keys and leave the same state, and formatKey() returns the same key
    whichever accessors were called before it.  (C++ leaves the order in
    which formatKey() evaluates fontKey(), borderKey() and fillKey()
    open.) *)
Theorem key_accessors_commute (k1 k2 : KeyAccess) (d : FP.t) :
  k1 <> FormatKey -> k2 <> FormatKey ->
  (access k1 (access k2 d).2).2 = (access k2 (access k1 d).2).2
  /\ (access k1 (access k2 d).2).1 = (access k1 d).1
  /\ (Format.formatKey (access k1 d).2).1 = (Format.formatKey d).1
  /\ (Format.formatKey (access k1 (access k2 d).2).2).1
     = (Format.formatKey d).1.
Proof.
  intros H1 H2.
  destruct k1, k2; try contradiction;
    flags d; key_cbv; repeat split; reflexivity.
Qed.

(** fillKey() before fontKey(), on a fresh format. *)
Lemma key_accessors_commute_witness :
  (access FontKey (access FillKey FP.new).2).1 = (access FontKey FP.new).1.
Proof.
  refine (proj1 (proj2 (key_accessors_commute FontKey FillKey FP.new _ _)));
    discriminate.
Defined.

(** X9.  The key accessors change caches and flags only: after
    fontKey(), borderKey(), fillKey() or formatKey() every getter of an
    attribute returns what it returned before, and so do
    isDateTimeFormat() and alignmentChanged(); a second formatKey()
    returns the same key as the first and changes nothing. *)
Theorem key_access_reads_only (k : KeyAccess) (a : Attr) (d : FP.t) :
  observe a (access k d).2 = observe a d
  /\ Format.isDateTimeFormat (access k d).2 = Format.isDateTimeFormat d
  /\ Format.alignmentChanged (access k d).2 = Format.alignmentChanged d
  /\ Format.formatKey (Format.formatKey d).2
     = ((Format.formatKey d).1, (Format.formatKey d).2).
Proof.
  split; [| split; [| split]].
  - destruct k, a; flags d; reflexivity.
  - unfold Format.isDateTimeFormat. rewrite access_numberData. reflexivity.
  - unfold Format.alignmentChanged. rewrite access_alignment. reflexivity.
  - apply formatKey_idempotent.
Qed.

(** ** The key is the key of the content *)

Ltac key_cbv_in H :=
  cbv -[QDataStream.put_bytes QDataStream.put_i32 QDataStream.put_bool
        QDataStream.put_u8 QDataStream.put_u16 QDataStream.put_string
        QColor.put app] in H.

Lemma formatKey_coherent (d : FP.t) :
  coherent d -> (Format.formatKey d).1 = contentKey d.
Proof.
  unfold coherent, anyDirty, contentKey.
  flags d; intros (Hf & Hb & Hl & Hk);
    key_cbv_in Hf; key_cbv_in Hb; key_cbv_in Hl; key_cbv_in Hk;
    try specialize (Hf eq_refl); try specialize (Hb eq_refl);
    try specialize (Hl eq_refl); try specialize (Hk eq_refl);
    subst; key_cbv; reflexivity.
Qed.

Lemma access_coherent (k : KeyAccess) (d : FP.t) :
  coherent d -> coherent (access k d).2.
Proof.
  unfold coherent, anyDirty, contentKey.
  destruct k; flags d; intros (Hf & Hb & Hl & Hk);
    key_cbv_in Hf; key_cbv_in Hb; key_cbv_in Hl; key_cbv_in Hk;
    try specialize (Hf eq_refl); try specialize (Hb eq_refl);
    try specialize (Hl eq_refl); try specialize (Hk eq_refl);
    subst; key_cbv; repeat split; intros;
    first [reflexivity | congruence].
Qed.

Lemma perform_coherent (a : Action) (d : FP.t) :
  marking a -> coherent d -> coherent (perform a d).
Proof.
  destruct d as [nd fd ad bd ld pd ddirty fkey xfi xfv isdxf dxfi dxfv th].
  unfold coherent, anyDirty, contentKey, Format.streamKey.
  destruct a as [[|] f | f | f | f | f | f | i | i];
    cbn [marking]; intros M (Hf & Hb & Hl & Hk); perform_eval;
    cbv [FP.fontData FP.borderData FP.fillData FP.dirty FP.formatKey
         FP.numberData FP.alignmentData FP.protectionData] in Hf, Hb, Hl, Hk;
    (split; [| split; [| split]]); try assumption.
  - intros E. cbn in E. discriminate E.
  - destruct M as [M | M]; [discriminate M |].
    intros E. rewrite M. apply Hk, E.
  - destruct (M fd) as [Md | (Md & Mk & Ms)].
    + intros E. congruence.
    + rewrite Md, Mk, Ms. exact Hf.
  - destruct (M fd) as [Md | (Md & Mk & Ms)].
    + intros E. rewrite Md in E. destruct ddirty; discriminate E.
    + rewrite Md, Ms. exact Hk.
  - intros E. cbn in E. discriminate E.
  - destruct (M bd) as [Md | (Md & Mk & Ms)].
    + intros E. congruence.
    + rewrite Md, Mk, Ms. exact Hb.
  - destruct (M bd) as [Md | (Md & Mk & Ms)].
    + intros E. rewrite Md in E.
      destruct ddirty, (FontData._dirty fd); discriminate E.
    + rewrite Md, Ms. exact Hk.
  - destruct (M ld) as [Md | (Md & Mk & Ms)].
    + intros E. congruence.
    + rewrite Md, Mk, Ms. exact Hl.
  - destruct (M ld) as [Md | (Md & Mk & Ms)].
    + intros E. rewrite Md in E.
      destruct ddirty, (FontData._dirty fd), (BorderData._dirty bd);
        discriminate E.
    + rewrite Md, Ms. exact Hk.
  - intros E. cbn in E. discriminate E.
Qed.

Lemma act_marking (m : Mutator) :
  notSetNumFmt (Mutate m) = true -> marking (act m).
Proof.
  destruct m; try discriminate; intros _;
    cbn [act fontAttr borderAttr fillColor marking];
    try exact I; try (left; reflexivity);
    try (intros r; left; reflexivity).
  - destruct (QString.isEmpty format); cbn [marking];
      [right; reflexivity | left; reflexivity].
  - intros r. right. destruct r; repeat split; reflexivity.
  - intros r. right. destruct r; repeat split; reflexivity.
  - intros r. right. destruct r; repeat split; reflexivity.
Qed.

Lemma step_coherent (c : Call) (d : FP.t) :
  notSetNumFmt c = true -> coherent d -> coherent (step c d).
Proof.
  destruct c as [m | k]; intros Hc H.
  - cbn [step]. rewrite call_act.
    apply perform_coherent; [apply act_marking, Hc | exact H].
  - apply access_coherent, H.
Qed.

Lemma coherent_new : coherent FP.new.
Proof. repeat split; intros E; discriminate E. Qed.

Lemma run_coherent (cs : list Call) (d : FP.t) :
  coherent d -> forallb notSetNumFmt cs = true -> coherent (run cs d).
Proof.
  revert d. induction cs as [| c cs IH]; intros d H Hcs; [exact H |].
  cbn in Hcs. apply andb_true_iff in Hcs as [Hc Hcs].
  cbn. apply IH; [apply step_coherent; assumption | exact Hcs].
Qed.

(** X10.  formatKey() returns the key of the content the format has at
    the time of the call: on a format whose caches agree with its
    content, the default-constructed one for instance, and after any
    calls other than setNumFmt, the key is the stream of the freshly
    serialised font, border and fill and of the current number format
    index, alignment and protection, whatever keys were cached on the
    way and in whatever order the attributes were set. *)
Theorem formatKey_is_content_key (cs : list Call) (d : FP.t) :
  coherent d ->
  forallb notSetNumFmt cs = true ->
  coherent (run cs d)
  /\ (Format.formatKey (run cs d)).1 = contentKey (run cs d).
Proof.
  intros H Hcs.
  pose proof (run_coherent cs d H Hcs) as Hr.
  split; [exact Hr | apply formatKey_coherent, Hr].
Qed.

(** Set attributes, ask for keys in between, set more attributes. *)
Lemma formatKey_is_content_key_witness :
  let cs := [Mutate (SetFontSize 12); Access FormatKey;
             Mutate (SetXfIndex 3); Mutate (SetFontBold true);
             Access FontKey; Mutate (SetIndent 2);
             Mutate (SetNumberFormat "0.00"); Access FormatKey;
             Mutate (SetBorderStyle 1)] in
  coherent FP.new
  /\ (Format.formatKey (run cs FP.new)).1 = contentKey (run cs FP.new).
Proof.
  intros cs. split; [exact coherent_new |].
  apply (formatKey_is_content_key cs FP.new coherent_new). reflexivity.
Defined.

(** ** The key tells formats apart *)

Lemma byte_of_Z_inj (a b : Z) :
  QDataStream.byte_of_Z a = QDataStream.byte_of_Z b ->
  a mod 256 = b mod 256.
Proof.
  unfold QDataStream.byte_of_Z.
  pose proof (Z.mod_pos_bound a 256 eq_refl) as Ha.
  pose proof (Z.mod_pos_bound b 256 eq_refl) as Hb.
  destruct (Byte.of_N (Z.to_N (a mod 256))) as [x |] eqn:Ex;
    [| apply Byte.of_N_None_iff in Ex; lia].
  destruct (Byte.of_N (Z.to_N (b mod 256))) as [y |] eqn:Ey;
    [| apply Byte.of_N_None_iff in Ey; lia].
  intros ->. apply Byte.to_of_N in Ex, Ey.
  apply Z2N.inj; lia.
Qed.

Lemma mod32_bytes (z : Z) :
  z mod 2 ^ 32
  = z mod 256 + 256 * (Z.shiftr z 8 mod 256)
    + 65536 * (Z.shiftr z 16 mod 256) + 16777216 * (Z.shiftr z 24 mod 256).
Proof.
  rewrite !Z.shiftr_div_pow2 by lia.
  change (2 ^ 8) with 256. change (2 ^ 16) with (256 * 256).
  change (2 ^ 24) with (256 * 256 * 256).
  change (2 ^ 32) with (256 * 256 * 256 * 256).
  rewrite <- !Z.div_div by lia.
  rewrite (Z.rem_mul_r z (256 * 256 * 256) 256) by lia.
  rewrite (Z.rem_mul_r z (256 * 256) 256) by lia.
  rewrite (Z.rem_mul_r z 256 256) by lia.
  rewrite <- !Z.div_div by lia. lia.
Qed.

(** An [int] can be read back from its four bytes, up to the 32 bits. *)
Lemma put_i32_inj (a b : Z) :
  QDataStream.put_i32 a = QDataStream.put_i32 b ->
  a mod 2 ^ 32 = b mod 2 ^ 32.
Proof.
  unfold QDataStream.put_i32. intros H.
  injection H as H3 H2 H1 H0.
  apply byte_of_Z_inj in H0, H1, H2, H3.
  rewrite (mod32_bytes a), (mod32_bytes b). lia.
Qed.

Lemma put_i32_app (a b : Z) (r r' : QByteArray) :
  QDataStream.put_i32 a ++ r = QDataStream.put_i32 b ++ r' ->
  a mod 2 ^ 32 = b mod 2 ^ 32 /\ r = r'.
Proof.
  intros H. unfold QDataStream.put_i32 in H. cbn [app] in H.
  injection H as H3 H2 H1 H0 Hr. split; [| exact Hr].
  apply put_i32_inj. unfold QDataStream.put_i32. congruence.
Qed.

Lemma put_bool_app (a b : bool) (r r' : QByteArray) :
  QDataStream.put_bool a ++ r = QDataStream.put_bool b ++ r' ->
  a = b /\ r = r'.
Proof.
  intros H. unfold QDataStream.put_bool, QDataStream.put_u8 in H.
  cbn [app] in H. injection H as H0 Hr. split; [| exact Hr].
  destruct a, b; try reflexivity; vm_compute in H0; discriminate H0.
Qed.

(** X11.  The key tells formats apart: when two formats whose caches
    agree with their content have the same font, border and fill sub-keys
    and formatKey() returns the same bytes for both, then they agree in
    the number format index, the indent and the rotation (as 32-bit
    values), in both alignments and in the shrink-to-fit, word-wrap,
    hidden and locked flags.  Changing any one of these changes the
    key. *)
Theorem formatKey_separates (d1 d2 : FP.t) :
  coherent d1 -> coherent d2 ->
  FontData.serialize (FP.fontData d1) = FontData.serialize (FP.fontData d2) ->
  BorderData.serialize (FP.borderData d1)
  = BorderData.serialize (FP.borderData d2) ->
  FillData.serialize (FP.fillData d1) = FillData.serialize (FP.fillData d2) ->
  (Format.formatKey d1).1 = (Format.formatKey d2).1 ->
  Format.numberFormatIndex d1 mod 2 ^ 32
  = Format.numberFormatIndex d2 mod 2 ^ 32
  /\ Format.horizontalAlignment d1 = Format.horizontalAlignment d2
  /\ Format.verticalAlignment d1 = Format.verticalAlignment d2
  /\ Format.indent d1 mod 2 ^ 32 = Format.indent d2 mod 2 ^ 32
  /\ Format.rotation d1 mod 2 ^ 32 = Format.rotation d2 mod 2 ^ 32
  /\ Format.shrinkToFit d1 = Format.shrinkToFit d2
  /\ Format.textWrap d1 = Format.textWrap d2
  /\ Format.hidden d1 = Format.hidden d2
  /\ Format.locked d1 = Format.locked d2.
Proof.
  intros H1 H2 Ef Eb El Ek.
  rewrite (formatKey_coherent d1 H1), (formatKey_coherent d2 H2) in Ek.
  unfold contentKey, Format.streamKey in Ek. rewrite Ef, Eb, El in Ek.
  do 3 apply app_inv_head in Ek.
  apply put_i32_app in Ek as [Eidx Ek].
  apply put_i32_app in Ek as [EaH Ek].
  apply put_i32_app in Ek as [EaV Ek].
  apply put_i32_app in Ek as [Eind Ek].
  apply put_i32_app in Ek as [Erot Ek].
  apply put_bool_app in Ek as [Esh Ek].
  apply put_bool_app in Ek as [Ewr Ek].
  apply put_bool_app in Ek as [Ehid Ek].
  rewrite <- (app_nil_r (QDataStream.put_bool _)) in Ek.
  rewrite <- (app_nil_r (QDataStream.put_bool
                           (ProtectionData.locked (FP.protectionData d1))))
    in Ek.
  apply put_bool_app in Ek as [Eloc _].
  repeat split; try assumption.
  - unfold Format.horizontalAlignment.
    destruct (AlignmentData.alignH (FP.alignmentData d1)),
             (AlignmentData.alignH (FP.alignmentData d2));
      try reflexivity; vm_compute in EaH; discriminate EaH.
  - unfold Format.verticalAlignment.
    destruct (AlignmentData.alignV (FP.alignmentData d1)),
             (AlignmentData.alignV (FP.alignmentData d2));
      try reflexivity; vm_compute in EaV; discriminate EaV.
Qed.

(** Two formats from the same calls but for the rotation have different
    keys. *)
Lemma formatKey_separates_witness :
  let d1 := run [Mutate (SetFontSize 12); Mutate (SetRotation 45)] FP.new in
  let d2 := run [Mutate (SetFontSize 12); Mutate (SetRotation 90)] FP.new in
  (Format.formatKey d1).1 <> (Format.formatKey d2).1.
Proof.
  intros d1 d2 Ek.
  assert (H1 : coherent d1)
    by (apply (run_coherent _ FP.new coherent_new); reflexivity).
  assert (H2 : coherent d2)
    by (apply (run_coherent _ FP.new coherent_new); reflexivity).
  destruct (formatKey_separates d1 d2 H1 H2 eq_refl eq_refl eq_refl Ek)
    as (_ & _ & _ & _ & Erot & _).
  vm_compute in Erot. discriminate Erot.
Defined.

(** ** setNumFmt and the key *)

(** X12.  setNumFmt stores a number format index without setting a dirty
    flag: on a format with no dirty flag set, formatKey() after
    setNumFmt(index, string) still returns the key cached before the
    call; when the caches agreed with the content and the index differs
    from the old one (as a 32-bit value), that key is not the key of the
    new content. *)
Theorem setNumFmt_keeps_stale_key (index : Z) (str : string) (d : FP.t) :
  anyDirty d = false ->
  let d' := Format.setNumFmt index str d in
  Format.numberFormatIndex d' = index
  /\ (Format.formatKey d').1 = FP.formatKey d
  /\ (coherent d ->
      index mod 2 ^ 32 <> Format.numberFormatIndex d mod 2 ^ 32 ->
      (Format.formatKey d').1 <> contentKey d').
Proof.
  intros Hclean d'.
  assert (Hkey : (Format.formatKey d').1 = FP.formatKey d).
  { subst d'. revert Hclean. flags d; intros Hclean; try discriminate Hclean.
    reflexivity. }
  split; [reflexivity | split; [exact Hkey |]].
  intros (_ & _ & _ & Hk) Hne E.
  rewrite Hkey, (Hk Hclean) in E.
  unfold contentKey, Format.streamKey in E.
  do 3 apply app_inv_head in E.
  apply put_i32_app in E as [E _].
  apply Hne. symmetry. exact E.
Qed.

(** A format keyed with index 0, then setNumFmt(164, "0.00"). *)
Lemma setNumFmt_keeps_stale_key_witness :
  let d := (Format.formatKey FP.new).2 in
  let d' := Format.setNumFmt 164 "0.00" d in
  anyDirty d = false
  /\ (Format.formatKey d').1 = (Format.formatKey FP.new).1
  /\ (Format.formatKey d').1 <> contentKey d'.
Proof.
  intros d d'.
  assert (Hclean : anyDirty d = false) by reflexivity.
  assert (Hc : coherent d)
    by (apply (run_coherent [Access FormatKey] FP.new coherent_new);
        reflexivity).
  destruct (setNumFmt_keeps_stale_key 164 "0.00" d Hclean) as (_ & Hk & Hs).
  split; [exact Hclean | split].
  - exact (eq_trans Hk (formatKey_cached FP.new)).
  - apply (Hs Hc). vm_compute. discriminate.
Defined.

(** * Further properties of the number format, the fill and the labels *)

Lemma step_numberFormat_nonempty (c : Call) (d : FP.t) :
  notSetNumFmt c = true ->
  QString.isEmpty (Format.numberFormat d) = false ->
  QString.isEmpty (Format.numberFormat (step c d)) = false.
Proof.
  unfold Format.numberFormat.
  destruct c as [m | k]; intros Hc.
  - cbn [step]. rewrite call_act.
    destruct m; try discriminate Hc; cbn [act fontAttr borderAttr fillColor];
      try (intros H; exact H).
    destruct format; intros H; [exact H | reflexivity].
  - cbn [step]. rewrite access_numberData. auto.
Qed.

Lemma run_numberFormat_nonempty (cs : list Call) (d : FP.t) :
  forallb notSetNumFmt cs = true ->
  QString.isEmpty (Format.numberFormat d) = false ->
  QString.isEmpty (Format.numberFormat (run cs d)) = false.
Proof.
  revert d. induction cs as [| c cs IH]; intros d Hcs H; [exact H |].
  cbn in Hcs. apply andb_true_iff in Hcs as [Hc Hcs].
  cbn. apply (IH _ Hcs), step_numberFormat_nonempty; assumption.
Qed.

(** X13.  Once a format has a number format string, no call other than
    setNumFmt takes it away again (setNumberFormat with an empty string
    does nothing), and from then on isDateTimeFormat() is decided by the
    string alone: it is true exactly when the string, with every
    occurrence of the colour tokens [Green], [White], [Blue], [Magenta],
    [Yellow], [Cyan] and [Red] removed, holds one of d, m, h, y, s,
    whatever number format index is set, the built-in date indices
    15..22 and 45..47 included. *)
Theorem format_string_decides_date (cs : list Call) (d : FP.t) :
  Format.numberFormat d <> ""%string ->
  forallb notSetNumFmt cs = true ->
  Format.numberFormat (run cs d) <> ""%string
  /\ (Format.isDateTimeFormat (run cs d) = true
      <-> exists c,
            c ∈ ["d"; "m"; "h"; "y"; "s"]%char
            /\ c ∈ DateSpec.withoutColorTokens
                     (Format.numberFormat (run cs d))).
Proof.
  intros Hs Hcs.
  assert (H0 : QString.isEmpty (Format.numberFormat d) = false)
    by (destruct (Format.numberFormat d); [contradiction | reflexivity]).
  pose proof (run_numberFormat_nonempty cs d Hcs H0) as H.
  split.
  - intros E. rewrite E in H. discriminate H.
  - rewrite <- date_by_string.
    unfold Format.isDateTimeFormat. unfold Format.numberFormat in *.
    rewrite H, andb_false_r.
    destruct (QString.contains_dmhys _); split; auto.
Qed.

(** A format with the string "[Red]0.00", then the built-in date index
    16: the index is stored, and the format is no date. *)
Lemma format_string_decides_date_witness :
  let d := Format.setNumberFormat "[Red]0.00" FP.new in
  let cs := [Mutate (SetNumberFormatIndex 16); Mutate (SetNumberFormat "")] in
  Format.numberFormat d <> ""%string
  /\ Format.numberFormatIndex (run cs d) = 16
  /\ Format.isDateTimeFormat (run cs d) = false.
Proof.
  intros d cs.
  assert (Hs : Format.numberFormat d <> ""%string) by discriminate.
  split; [exact Hs | split; [reflexivity |]].
  apply not_true_iff_false. intros E.
  apply (proj2 (format_string_decides_date cs d Hs eq_refl)) in E
    as (c & Hc & Hin).
  change (c ∈ String.list_ascii_of_string "0.00") in Hin.
  repeat (apply elem_of_cons in Hc as [-> | Hc];
          [repeat (apply elem_of_cons in Hin as [Hin | Hin];
                   [discriminate Hin |]);
           inversion Hin |]).
  inversion Hc.
Defined.

(** X14.  Setting a valid pattern colour never leaves the fill without a
    pattern: after setPatternForegroundColor or setPatternBackgroundColor
    with a valid colour the fill pattern is not "none" (it has become
    "solid" when it was "none", and is unchanged otherwise); with an
    invalid colour the pattern is left as it was.  The colour is stored
    in both cases. *)
Theorem pattern_colour_sets_pattern (color : QColor.t) (d : FP.t) :
  let fg := Format.setPatternForegroundColor color d in
  let bg := Format.setPatternBackgroundColor color d in
  Format.patternForegroundColor fg = color
  /\ Format.patternBackgroundColor bg = color
  /\ Format.fillPattern fg = Format.fillPattern bg
  /\ Format.fillPattern fg
     = (if QColor.isValid color
           && bool_decide (Format.fillPattern d = PatternNone)
        then PatternSolid
        else Format.fillPattern d)
  /\ (if QColor.isValid color
      then Format.fillPattern fg <> PatternNone
      else Format.fillPattern fg = Format.fillPattern d).
Proof.
  fields d. destruct ld as [pat fg0 bg0 ldirty lkey liv li].
  unfold Format.patternForegroundColor, Format.patternBackgroundColor,
    Format.fillPattern, Format.setPatternForegroundColor,
    Format.setPatternBackgroundColor.
  cbn [FP.fillData FillData.pattern].
  destruct (QColor.isValid color); cbn [andb];
    [destruct (Z.eqb_spec pat PatternNone) as [-> | Hne] |];
    repeat split; try reflexivity; cbn;
    try (rewrite bool_decide_false by exact Hne; reflexivity);
    try discriminate; try exact Hne.
Qed.

(** X15.  The alignment labels identify the alignment:
    horizontalAlignmentString() returns the same label for two formats
    exactly when their horizontal alignments are the same, and the empty
    label exactly for the general alignment; verticalAlignmentString()
    likewise, with the empty label for bottom. *)
Theorem alignment_labels_injective (d1 d2 : FP.t) :
  (Format.horizontalAlignmentString d1 = Format.horizontalAlignmentString d2
   <-> Format.horizontalAlignment d1 = Format.horizontalAlignment d2)
  /\ (Format.verticalAlignmentString d1 = Format.verticalAlignmentString d2
      <-> Format.verticalAlignment d1 = Format.verticalAlignment d2)
  /\ (Format.horizontalAlignmentString d1 = ""%string
      <-> Format.horizontalAlignment d1 = AlignHGeneral)
  /\ (Format.verticalAlignmentString d1 = ""%string
      <-> Format.verticalAlignment d1 = AlignBottom).
Proof.
  unfold Format.horizontalAlignmentString, Format.verticalAlignmentString,
    Format.horizontalAlignment, Format.verticalAlignment.
  destruct (AlignmentData.alignH (FP.alignmentData d1)),
           (AlignmentData.alignH (FP.alignmentData d2)),
           (AlignmentData.alignV (FP.alignmentData d1)),
           (AlignmentData.alignV (FP.alignmentData d2));
    repeat split; intros H; try reflexivity; discriminate H.
Qed.

(** * Programs over shared formats *)

Lemma access_observe (k : KeyAccess) (a : Attr) (d : FP.t) :
  observe a (access k d).2 = observe a d.
Proof. destruct k, a; flags d; reflexivity. Qed.

Lemma access_access (k k2 : KeyAccess) (d : FP.t) :
  (access k (access k2 d).2).1 = (access k d).1.
Proof. destruct k, k2; flags d; key_cbv; reflexivity. Qed.

Lemma sameContent_refl (d : FP.t) : sameContent d d.
Proof. unfold sameContent. repeat split; reflexivity. Qed.

Lemma sameContent_trans (d1 d2 d3 : FP.t) :
  sameContent d1 d2 -> sameContent d2 d3 -> sameContent d1 d3.
Proof.
  unfold sameContent.
  intros (A1 & B1 & C1 & D1 & E1 & F1 & G1 & H1 & I1 & J1 & K1 & L1)
         (A2 & B2 & C2 & D2 & E2 & F2 & G2 & H2 & I2 & J2 & K2 & L2).
  split; [intros a; rewrite A1; apply A2 |].
  do 10 (split; [congruence |]).
  intros k. rewrite L1. apply L2.
Qed.

Lemma sameContent_access (k : KeyAccess) (d : FP.t) :
  sameContent (access k d).2 d.
Proof.
  unfold sameContent.
  split; [intros a; apply access_observe |].
  split; [unfold Format.numFmtIndexValid; rewrite access_numberData;
          reflexivity |].
  split; [unfold Format.isDateTimeFormat; rewrite access_numberData;
          reflexivity |].
  split; [destruct k; flags d; reflexivity |].
  split; [destruct k; flags d; reflexivity |].
  split; [destruct k; flags d; reflexivity |].
  split; [unfold Format.alignmentChanged; rewrite access_alignment;
          reflexivity |].
  split; [unfold Format.horizontalAlignmentString,
            Format.horizontalAlignment; rewrite access_alignment;
          reflexivity |].
  split; [unfold Format.verticalAlignmentString, Format.verticalAlignment;
          rewrite access_alignment; reflexivity |].
  split; [destruct k; flags d; reflexivity |].
  split; [destruct k; flags d; reflexivity |].
  intros k'. apply access_access.
Qed.

Lemma acquire_lookup (l0 l : positive) (h : gmap positive Shared.Cell)
  (c : Shared.Cell) :
  h !! l = Some c ->
  exists c', Shared.acquire l0 h !! l = Some c'
             /\ Shared.data c' = Shared.data c
             /\ (Shared.ref c <= Shared.ref c')%nat.
Proof.
  intros H. unfold Shared.acquire.
  destruct (decide (l0 = l)) as [-> | Hne].
  - rewrite lookup_alter_eq, H. cbn. eexists. split; [reflexivity |].
    cbn. split; [reflexivity | lia].
  - rewrite lookup_alter_ne by exact Hne. exists c. auto.
Qed.

Lemma release_lookup (l0 l : positive) (h : gmap positive Shared.Cell)
  (c : Shared.Cell) :
  h !! l = Some c ->
  (l0 = l -> (2 <= Shared.ref c)%nat) ->
  exists c', Shared.release l0 h !! l = Some c'
             /\ Shared.data c' = Shared.data c.
Proof.
  intros H Href. destruct (decide (l0 = l)) as [-> | Hne].
  - unfold Shared.release. rewrite H.
    destruct (decide (Shared.ref c = 1%nat)) as [E | _];
      [specialize (Href eq_refl); lia |].
    rewrite lookup_insert_eq. eexists. split; reflexivity.
  - rewrite release_lookup_ne by exact Hne. exists c. auto.
Qed.

(** A key accessor called through any handle leaves every handle reading
    a state: the one it read, or that state after the accessor. *)
Lemma keyAccess_read (x : nat) (k : KeyAccess) (w w' : Shared.World)
  (r : QByteArray) (a : nat) (d : FP.t) :
  Shared.keyAccess x k w = Some (r, w') ->
  Shared.read a w = Some d ->
  Shared.objects w' = Shared.objects w
  /\ live x w
  /\ exists d', Shared.read a w' = Some d'
                /\ (d' = d \/ d' = (access k d).2).
Proof.
  unfold Shared.keyAccess, live. intros K Ha.
  destruct (Shared.objects w !! x) as [lx |] eqn:Ex; [| discriminate K].
  cbn in K.
  destruct (Shared.heap w !! lx) as [cx |] eqn:Ecx; [| discriminate K].
  cbn in K. injection K as _ <-. cbn.
  split; [reflexivity |]. split; [eauto |].
  apply read_Some in Ha as (l & c & El & Ec & Hd). subst d.
  destruct (decide (lx = l)) as [-> | Hne].
  - assert (cx = c) by congruence. subst cx.
    exists (access k (Shared.data c)).2. split; [| right; reflexivity].
    apply read_Some. eexists _, _. cbn.
    split; [exact El |]. split; [apply lookup_insert_eq | reflexivity].
  - exists (Shared.data c). split; [| left; reflexivity].
    apply read_Some. exists l, c. cbn.
    split; [exact El |].
    split; [rewrite lookup_insert_ne by exact Hne; exact Ec | reflexivity].
Qed.

Lemma keyAccess_total (x : nat) (k : KeyAccess) (w : Shared.World)
  (d : FP.t) :
  Shared.read x w = Some d ->
  exists w', Shared.keyAccess x k w = Some ((access k d).1, w').
Proof.
  intros Hx. apply read_Some in Hx as (l & c & El & Ec & Hd). subst d.
  rewrite (keyAccess_Some x k w l c El Ec). eexists. reflexivity.
Qed.

Lemma live_read (x : nat) (w : Shared.World) :
  Shared.wf w -> live x w -> is_Some (Shared.read x w).
Proof.
  intros [Hobj _] [l El]. destruct (Hobj x l El) as [c Ec].
  exists (Shared.data c). apply read_Some. eauto.
Qed.

Lemma read_live (x : nat) (w : Shared.World) (d : FP.t) :
  Shared.read x w = Some d -> live x w.
Proof. intros H. apply read_Some in H as (l & c & El & _). exists l. exact El. Qed.

(** The comparison of two live formats, by the states they read. *)
Lemma equal_by_state (a b : nat) (w : Shared.World) (da db : FP.t) :
  Shared.read a w = Some da ->
  Shared.read b w = Some db ->
  exists w',
    Shared.equal a b w
    = Some (bool_decide ((Format.formatKey da).1 = (Format.formatKey db).1),
            w')
    /\ Shared.notEqual a b w
       = Some (negb (bool_decide
                       ((Format.formatKey da).1 = (Format.formatKey db).1)),
               w').
Proof.
  intros Ha Hb.
  destruct (keyAccess_total a FormatKey w da Ha) as [w1 K1].
  destruct (keyAccess_read _ _ _ _ _ b db K1 Hb)
    as (_ & _ & db' & Hb' & Hdb').
  destruct (keyAccess_total b FormatKey w1 db' Hb') as [w2 K2].
  assert (E : (access FormatKey db').1 = (Format.formatKey db).1).
  { destruct Hdb' as [-> | ->]; [reflexivity |].
    apply (access_access FormatKey FormatKey db). }
  change (access FormatKey da).1 with (Format.formatKey da).1 in K1.
  rewrite E in K2.
  remember (Format.formatKey da).1 as ka eqn:Eka.
  remember (Format.formatKey db).1 as kb eqn:Ekb.
  unfold Shared.equal, Shared.notEqual. rewrite K1. cbn. rewrite K2. cbn.
  exists w2. split; reflexivity.
Qed.

(** One statement that does not write to [a]. *)
Lemma exec_spares (s : Shared.Stmt) (a : nat) (w w' : Shared.World)
  (d : FP.t) :
  Shared.wf w ->
  Shared.read a w = Some d ->
  Shared.exec s w = Some w' ->
  spares a s = true ->
  exists d', Shared.read a w' = Some d' /\ sameContent d' d
             /\ (isWrite s = true -> d' = d).
Proof.
  intros Hwf Ha He Hs.
  assert (Hkey : forall x k r w1 d1,
            Shared.read a w = Some d1 ->
            Shared.keyAccess x k w = Some (r, w1) ->
            exists d', Shared.read a w1 = Some d' /\ sameContent d' d1).
  { intros x k r w1 d1 H1 K.
    destruct (keyAccess_read _ _ _ _ _ a d1 K H1)
      as (_ & _ & d' & Hd' & [-> | ->]);
      eexists; split; try exact Hd';
      [apply sameContent_refl | apply sameContent_access]. }
  destruct s as [x | x o | x o | x | x m | x k | x y];
    cbn [Shared.exec] in He; unfold spares in Hs; cbn [target] in Hs;
    try (apply negb_true_iff, Nat.eqb_neq in Hs).
  6: { destruct (Shared.keyAccess x k w) as [[r w1] |] eqn:K;
         [| discriminate He].
       cbn in He. injection He as <-.
       destruct (Hkey x k r w1 d Ha K) as (d1 & H1 & S1).
       exists d1. split; [exact H1 |]. split; [exact S1 | discriminate]. }
  6: { unfold Shared.equal in He.
       destruct (Shared.keyAccess x FormatKey w) as [[k1 w1] |] eqn:K1;
         [| discriminate He].
       cbn in He.
       destruct (Shared.keyAccess y FormatKey w1) as [[k2 w2] |] eqn:K2;
         [| discriminate He].
       cbn in He. injection He as <-.
       destruct (Hkey x FormatKey k1 w1 d Ha K1) as (d1 & H1 & S1).
       destruct (keyAccess_read _ _ _ _ _ a d1 K2 H1)
         as (_ & _ & d2 & H2 & Hd2).
       exists d2. split; [exact H2 |]. split; [| discriminate].
       apply (sameContent_trans d2 d1 d); [| exact S1].
       destruct Hd2 as [-> | ->];
         [apply sameContent_refl | apply sameContent_access]. }
  all: exists d; split; [| split; [apply sameContent_refl | reflexivity]].
  all: destruct Hwf as [Hobj Hcnt].
  all: apply read_Some in Ha as (l & c & El & Ec & Hd).
  all: apply read_Some.
  - (* Format() *)
    unfold Shared.construct in He.
    destruct (Shared.objects w !! x) eqn:Ex; [discriminate He |].
    injection He as <-. exists l, c. cbn.
    split; [rewrite lookup_insert_ne by exact Hs; exact El |].
    split; [| exact Hd].
    rewrite lookup_insert_ne; [exact Ec |].
    intros E. pose proof (fresh_heap (Shared.heap w)) as F.
    rewrite E, Ec in F. discriminate F.
  - (* Format(const Format &) *)
    unfold Shared.copyConstruct in He.
    destruct (Shared.objects w !! x) eqn:Ex; [discriminate He |].
    destruct (Shared.objects w !! o) as [lo |] eqn:Eo; [| discriminate He].
    cbn in He. injection He as <-.
    destruct (acquire_lookup lo l _ c Ec) as (c' & Ec' & Hd' & _).
    exists l, c'. cbn.
    split; [rewrite lookup_insert_ne by exact Hs; exact El |].
    split; [exact Ec' | congruence].
  - (* operator= *)
    unfold Shared.assign in He.
    destruct (Shared.objects w !! x) as [old |] eqn:Ex; [| discriminate He].
    destruct (Shared.objects w !! o) as [lo |] eqn:Eo; [| discriminate He].
    cbn in He.
    destruct (decide (lo = old)) as [_ | Hlo];
      injection He as <-; [eauto |].
    destruct (acquire_lookup lo l _ c Ec) as (c1 & Ec1 & Hd1 & Hr1).
    destruct (release_lookup old l _ c1 Ec1) as (c2 & Ec2 & Hd2).
    { intros ->. destruct (Hcnt l c Ec) as [Href _].
      pose proof (sharers_two w x a l Hs Ex El). lia. }
    exists l, c2. cbn.
    split; [rewrite lookup_insert_ne by exact Hs; exact El |].
    split; [exact Ec2 | congruence].
  - (* ~Format() *)
    unfold Shared.destroy in He.
    destruct (Shared.objects w !! x) as [lx |] eqn:Ex; [| discriminate He].
    cbn in He. injection He as <-.
    destruct (release_lookup lx l _ c Ec) as (c2 & Ec2 & Hd2).
    { intros ->. destruct (Hcnt l c Ec) as [Href _].
      pose proof (sharers_two w x a l Hs Ex El). lia. }
    exists l, c2. cbn.
    split; [rewrite lookup_delete_ne by exact Hs; exact El |].
    split; [exact Ec2 | congruence].
  - (* a mutator *)
    destruct (Shared.objects w !! x) as [lx |] eqn:Ex.
    2: { unfold Shared.mutate, Shared.detach in He. rewrite Ex in He.
         destruct (Shared.usesD m); discriminate He. }
    destruct (decide (lx = l)) as [-> | Hne].
    + destruct (Hcnt l c Ec) as [Href _].
      pose proof (sharers_two w x a l Hs Ex El) as H2.
      destruct (mutate_shared w a x l c m (not_eq_sym Hs) El Ex Ec)
        as (w2 & Hm & Ha2 & _); [lia |].
      rewrite Hm in He. injection He as <-.
      apply read_Some in Ha2 as (l2 & c2 & El2 & Ec2 & Hd2).
      exists l2, c2. split; [exact El2 |]. split; [exact Ec2 | congruence].
    + destruct (Hobj x lx Ex) as [cx Ecx].
      unfold Shared.mutate in He. destruct (Shared.usesD m).
      * unfold Shared.detach in He. rewrite Ex in He. cbn in He.
        rewrite Ecx in He. cbn in He.
        destruct (decide (Shared.ref cx = 1%nat)); cbn in He.
        -- rewrite Ecx in He. cbn in He. injection He as <-.
           exists l, c. cbn. split; [exact El |].
           split; [| exact Hd].
           rewrite lookup_insert_ne by exact Hne. exact Ec.
        -- rewrite lookup_insert_eq in He. cbn in He. injection He as <-.
           exists l, c. cbn.
           split; [rewrite lookup_insert_ne by exact Hs; exact El |].
           split; [| exact Hd].
           assert (Hfresh : fresh (dom (Shared.heap w)) <> l).
           { intros E. pose proof (fresh_heap (Shared.heap w)) as F.
             rewrite E, Ec in F. discriminate F. }
           rewrite !lookup_insert_ne by exact Hfresh.
           rewrite release_lookup_ne by exact Hne. exact Ec.
      * rewrite Ex in He. cbn in He. injection He as <-. eauto.
Qed.

(** X16.  Value semantics of the handles.  In a world with right
    reference counts, a program none of whose statements constructs,
    assigns to, destroys or mutates the live format A leaves A live,
    whatever it does to the other formats, those sharing A's state
    included.  When the program calls no key accessor and no comparison,
    A reads exactly the state it read before.  When it does, on A or on
    any other format, A's state may differ in the cached keys, the dirty
    flags and the validity flags only: every attribute getter, every
    query derived from the attributes and each of the four keys return
    what they returned before.  The five validity queries of the cached
    indices are not among these, see [validity_is_shared]. *)
Theorem handles_are_isolated (ss : list Shared.Stmt) (a : nat)
  (w w' : Shared.World) (d : FP.t) :
  Shared.wf w ->
  Shared.read a w = Some d ->
  Shared.execs ss w = Some w' ->
  forallb (spares a) ss = true ->
  exists d', Shared.read a w' = Some d'
             /\ sameContent d' d
             /\ (forallb isWrite ss = true -> d' = d).
Proof.
  revert w d. induction ss as [| s ss IH]; intros w d Hwf Ha He Hs.
  - cbn in He. injection He as <-. exists d.
    split; [exact Ha |]. split; [apply sameContent_refl | reflexivity].
  - cbn in He, Hs. apply andb_true_iff in Hs as [Hs Hss].
    destruct (Shared.exec s w) as [w1 |] eqn:E; [| discriminate He].
    cbn in He.
    destruct (exec_spares s a w w1 d Hwf Ha E Hs) as (d1 & H1 & S1 & W1).
    destruct (IH w1 d1 (wf_exec s w w1 Hwf E) H1 He Hss)
      as (d2 & H2 & S2 & W2).
    exists d2. split; [exact H2 |].
    split; [exact (sameContent_trans d2 d1 d S2 S1) |].
    intros Hw. cbn in Hw. apply andb_true_iff in Hw as [Hw Hws].
    rewrite (W2 Hws). exact (W1 Hw).
Qed.

(** Format 0 with font size 14 and its copy 1; then the copy is changed,
    compared, assigned a third format and destroyed. *)
Lemma handles_are_isolated_witness :
  let w := default Shared.empty
             (Shared.execs [Shared.Construct 0;
                            Shared.Mutator_ 0 (SetFontSize 14);
                            Shared.CopyConstruct 1 0] Shared.empty) in
  let ss := [Shared.Mutator_ 1 (SetFontBold true); Shared.Equal 0 1;
             Shared.Construct 2; Shared.Assign 1 2;
             Shared.KeyAccess_ 0 FontKey; Shared.Destroy 1;
             Shared.Destroy 2] in
  let d := call (SetFontSize 14) FP.new in
  exists w' d',
    Shared.execs ss w = Some w'
    /\ Shared.read 0 w' = Some d' /\ sameContent d' d.
Proof.
  intros w ss d.
  assert (Hwf : Shared.wf w).
  { apply (wf_execs [Shared.Construct 0; Shared.Mutator_ 0 (SetFontSize 14);
                     Shared.CopyConstruct 1 0] Shared.empty w wf_empty).
    vm_compute. reflexivity. }
  assert (Hr : Shared.read 0 w = Some d) by (vm_compute; reflexivity).
  destruct (Shared.execs ss w) as [w' |] eqn:He;
    [| vm_compute in He; discriminate He].
  destruct (handles_are_isolated ss 0 w w' d Hwf Hr He eq_refl)
    as (d' & H1 & H2 & _).
  exists w', d'. split; [reflexivity |]. split; assumption.
Defined.

(** What a key accessor called through a sharing handle does change for
    the other handle: xfIndexValid() of format 0 is true, and false after
    fontKey() of its copy 1 has marked the state they share dirty. *)
Example validity_is_shared :
  let w := default Shared.empty
             (Shared.execs [Shared.Construct 0;
                            Shared.KeyAccess_ 0 FormatKey;
                            Shared.Mutator_ 0 (SetXfIndex 5);
                            Shared.Mutator_ 0 (SetFontSize 20);
                            Shared.CopyConstruct 1 0] Shared.empty) in
  let w' := default Shared.empty
              (Shared.exec (Shared.KeyAccess_ 1 FontKey) w) in
  Format.xfIndexValid <$> Shared.read 0 w = Some true
  /\ Format.xfIndexValid <$> Shared.read 0 w' = Some false
  /\ Format.xfIndex <$> Shared.read 0 w' = Some 5
  /\ Format.fontSize <$> Shared.read 0 w' = Some 20.
Proof. vm_compute. repeat split; reflexivity. Qed.

(** X17.  A copy shares.  After B is copy-constructed from the live
    format A, or A is assigned to the live format B, both handles hold
    the same pointer, both read the state A read before, A == B is true
    and A != B is false. *)
Theorem copy_shares_state (w w1 : Shared.World) (a b : nat) (dA : FP.t) :
  Shared.read a w = Some dA ->
  Shared.copyConstruct b a w = Some w1 \/ Shared.assign b a w = Some w1 ->
  Shared.objects w1 !! b = Shared.objects w1 !! a
  /\ Shared.read a w1 = Some dA
  /\ Shared.read b w1 = Some dA
  /\ fst <$> Shared.equal a b w1 = Some true
  /\ fst <$> Shared.notEqual a b w1 = Some false.
Proof.
  intros Ha Hop.
  apply read_Some in Ha as (l & c & El & Ec & Hd).
  assert (H : exists c1, Shared.objects w1 !! a = Some l
                         /\ Shared.objects w1 !! b = Some l
                         /\ Shared.heap w1 !! l = Some c1
                         /\ Shared.data c1 = dA).
  { destruct Hop as [Hop | Hop].
    - unfold Shared.copyConstruct in Hop.
      destruct (Shared.objects w !! b) eqn:Eb; [discriminate Hop |].
      rewrite El in Hop. cbn in Hop. injection Hop as <-.
      destruct (acquire_lookup l l _ c Ec) as (c1 & Ec1 & Hd1 & _).
      exists c1. cbn.
      split; [rewrite lookup_insert_ne by congruence; exact El |].
      split; [apply lookup_insert_eq |].
      split; [exact Ec1 | congruence].
    - unfold Shared.assign in Hop.
      destruct (Shared.objects w !! b) as [old |] eqn:Eb;
        [| discriminate Hop].
      cbn in Hop. rewrite El in Hop. cbn in Hop.
      destruct (decide (l = old)) as [<- | Hold]; injection Hop as <-.
      + exists c. auto.
      + destruct (acquire_lookup l l _ c Ec) as (c1 & Ec1 & Hd1 & _).
        exists c1. cbn.
        split; [rewrite lookup_insert_ne by congruence; exact El |].
        split; [apply lookup_insert_eq |].
        split; [| congruence].
        rewrite release_lookup_ne by congruence. exact Ec1. }
  destruct H as (c1 & Ea1 & Eb1 & Ec1 & Hd1).
  assert (Ra : Shared.read a w1 = Some dA) by (apply read_Some; eauto).
  assert (Rb : Shared.read b w1 = Some dA) by (apply read_Some; eauto).
  destruct (equal_by_state a b w1 dA dA Ra Rb) as (w2 & Heq & Hne).
  split; [congruence |]. split; [exact Ra |]. split; [exact Rb |].
  rewrite Heq, Hne. cbn. rewrite bool_decide_true by reflexivity.
  split; reflexivity.
Qed.

(** Format 1 assigned the format 0, whose font is bold. *)
Lemma copy_shares_state_witness :
  let w := default Shared.empty
             (Shared.execs [Shared.Construct 0; Shared.Construct 1;
                            Shared.Mutator_ 0 (SetFontBold true)]
                Shared.empty) in
  let w1 := default Shared.empty (Shared.assign 1 0 w) in
  Shared.read 0 w = Some (call (SetFontBold true) FP.new)
  /\ Shared.assign 1 0 w = Some w1
  /\ Shared.read 1 w1 = Some (call (SetFontBold true) FP.new)
  /\ fst <$> Shared.equal 0 1 w1 = Some true.
Proof.
  intros w w1.
  assert (Hr : Shared.read 0 w = Some (call (SetFontBold true) FP.new))
    by (vm_compute; reflexivity).
  assert (Hc : Shared.assign 1 0 w = Some w1) by (vm_compute; reflexivity).
  pose proof (copy_shares_state w w1 0 1 _ Hr (or_intror Hc)) as H.
  split; [exact Hr |]. split; [exact Hc |].
  split; [exact (proj1 (proj2 (proj2 H))) |].
  exact (proj1 (proj2 (proj2 (proj2 H)))).
Defined.

(** X18.  No dangling pointer, no leak.  In every world a program
    reaches from one with right reference counts, every live format
    reads a state, and every state on the heap carries as its counter
    the number of live formats that point to it, and is pointed to by
    at least one: the state of a format is freed exactly when its last
    handle goes. *)
Theorem programs_keep_counts (ss : list Shared.Stmt) (w w' : Shared.World) :
  Shared.wf w ->
  Shared.execs ss w = Some w' ->
  (forall x, live x w' <-> is_Some (Shared.read x w'))
  /\ (forall l c, Shared.heap w' !! l = Some c ->
        Shared.ref c = Shared.sharers l w'
        /\ exists x, Shared.objects w' !! x = Some l).
Proof.
  intros Hwf He. pose proof (wf_execs ss w w' Hwf He) as Hwf'.
  split.
  - intros x. split; [apply live_read, Hwf' |].
    intros [d Hd]. exact (read_live x w' d Hd).
  - intros l c Ec. destruct Hwf' as [_ Hcnt].
    destruct (Hcnt l c Ec) as [Href Hpos]. split; [exact Href |].
    unfold Shared.sharers, Shared.pointers in Href.
    destruct (map_size_ne_0_lookup_1
                (filter (fun p : nat * positive => p.2 = l)
                   (Shared.objects w'))) as [x [l' Hx]]; [lia |].
    apply map_lookup_filter_Some in Hx as [Hx E]. cbn in E. subst l'.
    exists x. exact Hx.
Qed.

(** Three handles on two states; the two handles of one state go. *)
Lemma programs_keep_counts_witness :
  let ss := [Shared.Construct 0; Shared.CopyConstruct 1 0;
             Shared.Construct 2; Shared.Mutator_ 1 (SetFontSize 20);
             Shared.Assign 1 0; Shared.Destroy 0; Shared.Destroy 1] in
  let w' := default Shared.empty (Shared.execs ss Shared.empty) in
  Shared.execs ss Shared.empty = Some w'
  /\ size (Shared.heap w') = 1%nat
  /\ (forall x, live x w' <-> is_Some (Shared.read x w')).
Proof.
  intros ss w'.
  assert (He : Shared.execs ss Shared.empty = Some w')
    by (vm_compute; reflexivity).
  split; [exact He |]. split; [vm_compute; reflexivity |].
  exact (proj1 (programs_keep_counts ss Shared.empty w' wf_empty He)).
Defined.

Ltac some_none :=
  repeat match goal with
         | H : is_Some None |- _ => destruct H as [? H]; discriminate H
         | H : _ /\ _ |- _ => destruct H
         | H : ~ is_Some (Some _) |- _ => exfalso; apply H; eauto
         | |- _ /\ _ => split
         | |- ~ _ => intros ?
         | |- is_Some (Some _) => eauto
         end.

(** X19.  No statement fails on live formats.  In a world with right
    reference counts a statement runs exactly when the formats it uses
    are live and the one it constructs is not: no constructor, no
    assignment, no destructor, no mutator, no key accessor and no
    comparison ever finds a pointer without its state. *)
Theorem exec_succeeds_iff_scoped (s : Shared.Stmt) (w : Shared.World) :
  Shared.wf w ->
  is_Some (Shared.exec s w) <-> scoped s w.
Proof.
  intros Hwf. pose proof Hwf as [Hobj Hcnt].
  destruct s as [x | x o | x o | x | x m | x k | x y];
    cbn [Shared.exec scoped]; unfold live.
  - unfold Shared.construct.
    destruct (Shared.objects w !! x) eqn:Ex; split; intros H; some_none.
  - unfold Shared.copyConstruct.
    destruct (Shared.objects w !! x) eqn:Ex;
      destruct (Shared.objects w !! o) eqn:Eo; cbn; split; intros H;
      some_none.
  - unfold Shared.assign.
    destruct (Shared.objects w !! x) as [old |] eqn:Ex;
      destruct (Shared.objects w !! o) as [lo |] eqn:Eo; cbn;
      try destruct (decide (lo = old)); split; intros H; some_none.
  - unfold Shared.destroy.
    destruct (Shared.objects w !! x) as [lx |] eqn:Ex; cbn; split;
      intros H; some_none.
  - unfold Shared.mutate, Shared.detach.
    destruct (Shared.objects w !! x) as [lx |] eqn:Ex; cbn.
    + split; [eauto | intros _].
      destruct (Hobj x lx Ex) as [cx Ecx]. rewrite Ecx. cbn.
      destruct (Shared.usesD m); [| eauto].
      destruct (decide (Shared.ref cx = 1%nat)); cbn.
      * rewrite Ecx. cbn. eauto.
      * rewrite lookup_insert_eq. cbn. eauto.
    + split; [| intros [? H]; discriminate H].
      destruct (Shared.usesD m); intros [? H]; discriminate H.
  - split.
    + intros [w1 H].
      destruct (Shared.keyAccess x k w) as [[r w2] |] eqn:K;
        [| discriminate H].
      unfold Shared.keyAccess in K.
      destruct (Shared.objects w !! x); [eauto | discriminate K].
    + intros Hx. destruct (live_read x w Hwf Hx) as [d Hd].
      destruct (keyAccess_total x k w d Hd) as [w1 K]. rewrite K. cbn. eauto.
  - split.
    + intros [w2 H]. unfold Shared.equal in H.
      destruct (Shared.keyAccess x FormatKey w) as [[k1 w1] |] eqn:K1;
        [| discriminate H].
      cbn in H.
      destruct (Shared.keyAccess y FormatKey w1) as [[k2 w3] |] eqn:K2;
        [| discriminate H].
      unfold Shared.keyAccess in K1, K2.
      destruct (Shared.objects w !! x) as [lx |] eqn:Ex; [| discriminate K1].
      cbn in K1.
      destruct (Shared.heap w !! lx) as [cx |]; [| discriminate K1].
      cbn in K1. injection K1 as _ <-. cbn in K2.
      destruct (Shared.objects w !! y); [eauto | discriminate K2].
    + intros [Hx Hy].
      destruct (live_read x w Hwf Hx) as [dx Hdx].
      destruct (live_read y w Hwf Hy) as [dy Hdy].
      destruct (equal_by_state x y w dx dy Hdx Hdy) as (w2 & Heq & _).
      rewrite Heq. cbn. eauto.
Qed.

(** Two handles on one state: assigning one to the other runs, a mutator
    on a format that was never constructed does not. *)
Lemma exec_succeeds_iff_scoped_witness :
  let w := default Shared.empty
             (Shared.execs [Shared.Construct 0; Shared.CopyConstruct 1 0]
                Shared.empty) in
  Shared.wf w
  /\ is_Some (Shared.exec (Shared.Assign 1 0) w)
  /\ ~ is_Some (Shared.exec (Shared.Mutator_ 2 (SetFontSize 9)) w).
Proof.
  intros w.
  assert (Hwf : Shared.wf w).
  { apply (wf_execs [Shared.Construct 0; Shared.CopyConstruct 1 0]
             Shared.empty w wf_empty).
    vm_compute. reflexivity. }
  split; [exact Hwf |]. split.
  - apply (proj2 (exec_succeeds_iff_scoped (Shared.Assign 1 0) w Hwf)).
    split; vm_compute; eauto.
  - intros H.
    apply (proj1 (exec_succeeds_iff_scoped
                    (Shared.Mutator_ 2 (SetFontSize 9)) w Hwf)) in H.
    vm_compute in H. destruct H as [l H]. discriminate H.
Defined.
